(** * ip.c: address families, text conversion and range matching

    A shallow embedding of [src/backend/libpq/ip.c] (PostgreSQL, revision 1.3)
    built with [HAVE_IPV6] and [HAVE_UNIX_SOCKETS], and the properties of it
    that the specification states.

    Conventions.
    - A C integer is a [Z]; where the C type wraps, the wrap is written out.
    - A C string is the [string] of its characters before the terminator;
      memory that holds characters is a [list ascii] and the terminator is
      the character [NUL].
    - The union [SockAddr] is the record of the members [ip.c] touches. Its
      three views [sa], [in] and [in6] begin with the family tag, which is
      the single field [sa_family]; the ports [in.sin_port] and
      [in6.sin6_port] are the same two bytes of the union, and are the
      single field [sin_port], of which [sin6_port] is the other name; the
      address members [in.sin_addr] and [in6.sin6_addr], which do not
      overlap in the layouts of the system headers, are two fields.
    - What [ip.c] takes from the system headers and from libc is the class
      [Platform]; [linux] is an instance of it for either byte order. *)

From Stdlib Require Import ZArith List String Ascii Bool Lia.
From stdpp Require Import base option list gmap strings.

Local Open Scope string_scope.
Local Open Scope list_scope.
Local Open Scope Z_scope.

(** ** The process: heap, file system, log *)

(** A pointer is the name of an allocated object; NULL is [None]. *)
Definition ptr := nat.

Record addrinfo := mkAddrinfo {
  ai_flags : Z;
  ai_family : Z;
  ai_socktype : Z;
  ai_protocol : Z;
  ai_addrlen : Z;
  ai_addr : option ptr;
  ai_canonname : option ptr;
  ai_next : option ptr
}.

Record sockaddr_un := mkSockaddrUn {
  sun_family : Z;
  sun_path : list ascii   (* char sun_path[sizeof_sun_path] *)
}.

Inductive object :=
  | Obj_addrinfo (a : addrinfo)
  | Obj_sockaddr_un (u : sockaddr_un).

(** [avail] is the number of allocations the process can still obtain;
    [files] are the paths that exist; [log] is what [elog] has printed,
    latest first. *)
Record world := mkWorld {
  heap : gmap ptr object;
  avail : nat;
  files : gset string;
  log : list string
}.

(** A call either returns in a new world or dies on an invalid access. *)
Inductive outcome (A : Type) :=
  | Done (a : A) (w : world)
  | Crash.
Arguments Done {A} a w.
Arguments Crash {A}.

Definition M (A : Type) : Type := world -> outcome A.

Definition ret {A} (a : A) : M A := fun w => Done a w.
Definition bind {A B} (m : M A) (k : A -> M B) : M B :=
  fun w => match m w with Done a w' => k a w' | Crash => Crash end.
Definition crash {A} : M A := fun _ => Crash.

Declare Scope M_scope.
Delimit Scope M_scope with M.
Notation "'let*' x := m 'in' k" := (bind m (fun x => k))
  (at level 10, x pattern, m at level 100, k at level 200) : M_scope.
Notation "m ;;; k" := (bind m (fun _ => k))
  (at level 100, k at level 200, right associativity) : M_scope.

(** ** The platform *)

(** Constants of <sys/socket.h>, <netdb.h>, <sys/un.h>, and the text
    conversions behind [inet_ntop] and [inet_pton]. The specification
    calls EAI_ADDRFAMILY AddressFamilyMismatch, EAI_MEMORY OutOfMemory and
    EAI_SERVICE PathTooLong; a value 0 of [inet_pton] is its InvalidFormat.

    An [in_addr] is seen by [ip.c] as the 32-bit integer [s_addr] that the
    host loads from its four octets; an [in6_addr] as its sixteen octets
    [s6_addr]. [inet_ntop4_text] and [inet_ntop6_text] give the text that
    [inet_ntop] produces for them, [inet_pton4_addr] and [inet_pton6_addr]
    the address that [inet_pton] stores, or [None] where it returns 0. *)
Class Platform := {
  AF_UNIX : Z;
  AF_INET : Z;
  AF_INET6 : Z;
  SOCK_STREAM : Z;
  AI_PASSIVE : Z;
  EAI_ADDRFAMILY : Z;
  EAI_MEMORY : Z;
  EAI_SERVICE : Z;
  sizeof_sun_path : Z;
  sizeof_sockaddr_un : Z;
  inet_ntop4_text : Z -> string;
  inet_pton4_addr : string -> option Z;
  inet_ntop6_text : list Z -> string;
  inet_pton6_addr : string -> option (list Z)
}.

(** The resolver of the platform, <netdb.h>. [getaddrinfo] returns its
    value paired with [*result] after the call. *)
Class Resolver := {
  getaddrinfo :
    option string -> option string -> option addrinfo -> option ptr
    -> M (Z * option ptr);
  freeaddrinfo : option ptr -> M unit
}.

(** ** SockAddr *)

Record SockAddr := mkSockAddr {
  sa_family : Z;          (* sa.sa_family, in.sin_family, in6.sin6_family *)
  sin_port : Z;           (* in.sin_port and in6.sin6_port: offset 2 of the union *)
  s_addr : Z;             (* in.sin_addr.s_addr, 32 bits *)
  s6_addr : list Z        (* in6.sin6_addr.s6_addr[16] *)
}.

(** [in6.sin6_port] is read from the bytes of [in.sin_port]. *)
Definition sin6_port (sa : SockAddr) : Z := sin_port sa.

Definition set_sa_family (v : Z) (sa : SockAddr) : SockAddr :=
  mkSockAddr v (sin_port sa) (s_addr sa) (s6_addr sa).
Definition set_sin_port (v : Z) (sa : SockAddr) : SockAddr :=
  mkSockAddr (sa_family sa) v (s_addr sa) (s6_addr sa).
Definition set_s_addr (v : Z) (sa : SockAddr) : SockAddr :=
  mkSockAddr (sa_family sa) (sin_port sa) v (s6_addr sa).
Definition set_s6_addr (v : list Z) (sa : SockAddr) : SockAddr :=
  mkSockAddr (sa_family sa) (sin_port sa) (s_addr sa) v.

(** [a[i]] for an array of octets. *)
Definition octet (a : list Z) (i : nat) : Z := nth i a 0.

(** An in6_addr holds sixteen octets. *)
Definition wf_in6 (a : list Z) : Prop :=
  List.length a = 16%nat /\ Forall (fun b => 0 <= b < 256) a.

(** ** Integer arithmetic of C *)

(** [int]: 32 bits, two's complement. *)
Definition wrap_int (z : Z) : Z := (z + 2^31) mod 2^32 - 2^31.
(** Conversion to [uint32_t]. *)
Definition to_uint32 (z : Z) : Z := z mod 2^32.

Definition int_add (x y : Z) : Z := wrap_int (x + y).
Definition int_shl (x n : Z) : Z := wrap_int (Z.shiftl x n).

(** Conversion of a [size_t] to the 32-bit unsigned [socklen_t]. A
    [size_t] is not negative; an integer below 0 stands for 0, as it does
    where a capacity is counted in characters. *)
Definition to_socklen_t (n : Z) : Z := (Z.max 0 n) mod 2^32.

(** ** Byte order of the host *)

Inductive byte_order := BigEndian | LittleEndian.

(** The 32-bit integer a host loads from four octets in memory. *)
Definition load32 (bo : byte_order) (o0 o1 o2 o3 : Z) : Z :=
  match bo with
  | BigEndian => o0 * 2^24 + o1 * 2^16 + o2 * 2^8 + o3
  | LittleEndian => o3 * 2^24 + o2 * 2^16 + o1 * 2^8 + o0
  end.

(** The four octets a host stores for a 32-bit integer, in memory order. *)
Definition store32 (bo : byte_order) (v : Z) : list Z :=
  let b k := Z.land (Z.shiftr v k) 255 in
  match bo with
  | BigEndian => [b 24; b 16; b 8; b 0]
  | LittleEndian => [b 0; b 8; b 16; b 24]
  end.

(** [s_addr] of the IPv4 address [a.b.c.d]: its octets are in network
    order in memory. *)
Definition in_addr_of (bo : byte_order) (a b c d : Z) : Z := load32 bo a b c d.

(** ** Character memory *)

Definition NUL : ascii := Ascii.zero.
(** The newline. *)
Definition LF : ascii := "010"%char.

(** [m[i] = c]; [None] when [i] lies outside the object. *)
Definition poke (m : list ascii) (i : nat) (c : ascii) : option (list ascii) :=
  if decide (i < List.length m)%nat then Some (<[i:=c]> m) else None.

(** Store the characters [cs] from offset [off] on. *)
Fixpoint store (m : list ascii) (off : nat) (cs : list ascii) : option (list ascii) :=
  match cs with
  | [] => Some m
  | c :: cs' => m' ← poke m off c; store m' (S off) cs'
  end.

(** The characters before the first [NUL] of [m]; [None] when [m] holds no
    [NUL]. *)
Fixpoint cstring (m : list ascii) : option (list ascii) :=
  match m with
  | [] => None
  | c :: m' => if decide (c = NUL) then Some [] else (c ::.) <$> cstring m'
  end.

(** [strcpy(dst + to, dst + from)] for [to <= from]: the characters are
    copied in increasing order, so each is read before it is overwritten. *)
Definition strcpy_within (m : list ascii) (to from : nat) : option (list ascii) :=
  cs ← cstring (drop from m); store m to (cs ++ [NUL]).

(** [inet_ntop(af, src, dst, cnt)] for an address whose text is [text]:
    the text and its terminator are stored when they fit into [cnt]
    characters; otherwise nothing is stored and the call returns NULL
    (ENOSPC). The result pairs "returned non-NULL" with the memory. *)
Definition inet_ntop (text : string) (dst : list ascii) (cnt : Z)
  : option (bool * list ascii) :=
  let cs := list_ascii_of_string text in
  if Z.of_nat (List.length cs) <? cnt
  then m ← store dst 0 (cs ++ [NUL]); Some (true, m)
  else Some (false, dst).

(** ** Heap and file system primitives *)

(** [calloc(1, sizeof obj)]: NULL when no allocation is available, else a
    fresh object holding [zero]. *)
Definition calloc (zero : object) : M (option ptr) :=
  fun w =>
    match avail w with
    | O => Done None w
    | S n =>
        let p := fresh (dom (heap w)) in
        Done (Some p) (mkWorld (<[p := zero]> (heap w)) n (files w) (log w))
    end.

(** [free(p)]: nothing for NULL; an invalid access for a pointer that is
    not allocated. *)
Definition free (p : option ptr) : M unit :=
  fun w =>
    match p with
    | None => Done tt w
    | Some q =>
        match heap w !! q with
        | Some _ => Done tt (mkWorld (delete q (heap w)) (S (avail w)) (files w) (log w))
        | None => Crash
        end
    end.

(** Read through a pointer to an [addrinfo] or a [sockaddr_un]. *)
Definition load_addrinfo (p : option ptr) : M addrinfo :=
  fun w =>
    match p with
    | Some q => match heap w !! q with Some (Obj_addrinfo a) => Done a w | _ => Crash end
    | None => Crash
    end.

Definition load_sockaddr_un (p : option ptr) : M sockaddr_un :=
  fun w =>
    match p with
    | Some q => match heap w !! q with Some (Obj_sockaddr_un u) => Done u w | _ => Crash end
    | None => Crash
    end.

(** Write through a pointer: [f] is the assignment to the members. *)
Definition update_addrinfo (p : option ptr) (f : addrinfo -> addrinfo) : M unit :=
  fun w =>
    match p with
    | Some q =>
        match heap w !! q with
        | Some (Obj_addrinfo a) =>
            Done tt (mkWorld (<[q := Obj_addrinfo (f a)]> (heap w)) (avail w) (files w) (log w))
        | _ => Crash
        end
    | None => Crash
    end.

Definition update_sockaddr_un (p : option ptr) (f : sockaddr_un -> sockaddr_un) : M unit :=
  fun w =>
    match p with
    | Some q =>
        match heap w !! q with
        | Some (Obj_sockaddr_un u) =>
            Done tt (mkWorld (<[q := Obj_sockaddr_un (f u)]> (heap w)) (avail w) (files w) (log w))
        | _ => Crash
        end
    | None => Crash
    end.

Definition unlink (path : string) : M unit :=
  fun w => Done tt (mkWorld (heap w) (avail w) (files w ∖ {[path]}) (log w)).

Definition elog (msg : string) : M unit :=
  fun w => Done tt (mkWorld (heap w) (avail w) (files w) (msg :: log w)).

(** [strlen(s)]; reading through NULL is an invalid access. *)
Definition strlen (s : option string) : M Z :=
  match s with
  | Some t => ret (Z.of_nat (String.length t))
  | None => crash
  end.

(** ** Text conversions of libc

    [inet_ntop] and [inet_pton] are not part of [ip.c]; the functions below
    follow their common implementation (the one of BIND, which glibc and
    the BSDs ship) and give the platform [linux] its text forms. They work
    on the octets of an address in memory order. *)

Module libc.

Definition code (ch : ascii) : Z := Z.of_N (N_of_ascii ch).
Definition char (c : Z) : ascii := ascii_of_N (Z.to_N c).

Definition xdigits : list ascii := list_ascii_of_string "0123456789abcdef".

Definition xdigit (d : Z) : ascii := nth (Z.to_nat d) xdigits "0"%char.

(** ["%u"] of an octet. *)
Definition print_u (n : Z) : list ascii :=
  if n <? 10 then [char (48 + n)]
  else if n <? 100 then [char (48 + n / 10); char (48 + n mod 10)]
  else [char (48 + n / 100); char (48 + n / 10 mod 10); char (48 + n mod 10)].

(** ["%x"] of a 16-bit word. *)
Definition print_x (w : Z) : list ascii :=
  if w <? 16 then [xdigit w]
  else if w <? 256 then [xdigit (w / 16); xdigit (w mod 16)]
  else if w <? 4096 then [xdigit (w / 256); xdigit (w / 16 mod 16); xdigit (w mod 16)]
  else [xdigit (w / 4096); xdigit (w / 256 mod 16); xdigit (w / 16 mod 16);
        xdigit (w mod 16)].

(** [inet_ntop4]: ["%u.%u.%u.%u"]. *)
Definition inet_ntop4 (src : list Z) : list ascii :=
  print_u (octet src 0) ++ "."%char :: print_u (octet src 1) ++ "."%char ::
  print_u (octet src 2) ++ "."%char :: print_u (octet src 3).

(** The loop of [inet_pton4]: [done] are the octets before [tp], [cur] is
    [*tp]. *)
Fixpoint inet_pton4_loop (src : list ascii) (done : list Z) (cur : Z)
    (saw_digit : bool) (octets : Z) : option (list Z) :=
  match src with
  | [] => if octets <? 4 then None else Some (done ++ [cur])
  | ch :: rest =>
      if (48 <=? code ch) && (code ch <=? 57) then
        let new := cur * 10 + (code ch - 48) in
        if saw_digit && (cur =? 0) then None
        else if new >? 255 then None
        else if negb saw_digit then
          if octets + 1 >? 4 then None
          else inet_pton4_loop rest done new true (octets + 1)
        else inet_pton4_loop rest done new saw_digit octets
      else if bool_decide (ch = "."%char) && saw_digit then
        if octets =? 4 then None
        else inet_pton4_loop rest (done ++ [cur]) 0 false octets
      else None
  end.

Definition inet_pton4 (src : list ascii) : option (list Z) :=
  inet_pton4_loop src [] 0 false 0.

(** The 16-bit words of an in6_addr. *)
Definition words (src : list Z) : list Z :=
  map (fun i => Z.lor (Z.shiftl (octet src (2 * i)) 8) (octet src (2 * i + 1)))
      (seq 0 8).

(** A run of zero words: [(base, len)], with [base = -1] for none. *)
Definition run : Type := Z * Z.

Definition longer (best cur : run) : run :=
  if (fst best =? -1) || (snd cur >? snd best) then cur else best.

(** The first loop of [inet_ntop6], over the words from index [i] on. *)
Fixpoint best_run_loop (ws : list Z) (i : Z) (best cur : run) : run * run :=
  match ws with
  | [] => (best, cur)
  | w :: ws' =>
      if w =? 0 then
        if fst cur =? -1 then best_run_loop ws' (i + 1) best (i, 1)
        else best_run_loop ws' (i + 1) best (fst cur, snd cur + 1)
      else if negb (fst cur =? -1) then
        best_run_loop ws' (i + 1) (longer best cur) (-1, snd cur)
      else best_run_loop ws' (i + 1) best cur
  end.

Definition best_run (ws : list Z) : run :=
  let '(best, cur) := best_run_loop ws 0 (-1, 0) (-1, 0) in
  let best := if negb (fst cur =? -1) then longer best cur else best in
  if negb (fst best =? -1) && (snd best <? 2) then (-1, snd best) else best.

(** The second loop of [inet_ntop6], entered at word [i] with [k]
    iterations left: the characters it appends. *)
Fixpoint inet_ntop6_loop (k : nat) (i : nat) (src ws : list Z) (best : run)
  : list ascii :=
  match k with
  | O => []
  | S k' =>
      if negb (fst best =? -1) && (fst best <=? Z.of_nat i)
         && (Z.of_nat i <? fst best + snd best)
      then
        (if Z.of_nat i =? fst best then [":"%char] else [])
        ++ inet_ntop6_loop k' (S i) src ws best
      else
        (if negb (Z.of_nat i =? 0) then [":"%char] else [])
        ++ if (Z.of_nat i =? 6) && (fst best =? 0)
              && ((snd best =? 6) || ((snd best =? 5) && (octet ws 5 =? 65535)))
           then inet_ntop4 (drop 12 src)
           else print_x (octet ws i) ++ inet_ntop6_loop k' (S i) src ws best
  end.

Definition inet_ntop6 (src : list Z) : list ascii :=
  let ws := words src in
  let best := best_run ws in
  inet_ntop6_loop 8 0 src ws best
  ++ if negb (fst best =? -1) && (fst best + snd best =? 8) then [":"%char] else [].

Definition tolower (ch : ascii) : ascii :=
  if (65 <=? code ch) && (code ch <=? 90) then char (code ch + 32) else ch.

(** [strchr(xdigits, ch) - xdigits] for a [ch] other than the terminator. *)
Fixpoint index_of (ch : ascii) (cs : list ascii) (i : Z) : option Z :=
  match cs with
  | [] => None
  | c :: cs' => if bool_decide (c = ch) then Some i else index_of ch cs' (i + 1)
  end.

(** The end of [inet_pton6], after its loop: [out] are the octets before
    [tp], [colonp] the offset at which "::" stood. *)
Definition inet_pton6_end (out : list Z) (colonp : option nat) (saw_xdigit : bool)
    (val : Z) : option (list Z) :=
  out ← (if saw_xdigit then
           if (Z.of_nat (List.length out) + 2 >? 16) then None
           else Some (out ++ [Z.land (Z.shiftr val 8) 255; Z.land val 255])
         else Some out);
  match colonp with
  | Some c =>
      if Z.of_nat (List.length out) =? 16 then None
      else Some (take c out ++ repeat 0 (16 - List.length out) ++ drop c out)
  | None =>
      if negb (Z.of_nat (List.length out) =? 16) then None else Some out
  end.

(** The loop of [inet_pton6]. *)
Fixpoint inet_pton6_loop (src curtok : list ascii) (out : list Z)
    (colonp : option nat) (saw_xdigit : bool) (val : Z) : option (list Z) :=
  match src with
  | [] => inet_pton6_end out colonp saw_xdigit val
  | ch0 :: rest =>
      let ch := tolower ch0 in
      match index_of ch xdigits 0 with
      | Some d =>
          let val := Z.lor (Z.shiftl val 4) d in
          if val >? 65535 then None
          else inet_pton6_loop rest curtok out colonp true val
      | None =>
          if bool_decide (ch = ":"%char) then
            if negb saw_xdigit then
              match colonp with
              | Some _ => None
              | None => inet_pton6_loop rest rest out (Some (List.length out)) saw_xdigit val
              end
            else if bool_decide (rest = []) then None
            else if Z.of_nat (List.length out) + 2 >? 16 then None
            else inet_pton6_loop rest rest
                   (out ++ [Z.land (Z.shiftr val 8) 255; Z.land val 255]) colonp false 0
          else if bool_decide (ch = "."%char) && (Z.of_nat (List.length out) + 4 <=? 16) then
            match inet_pton4 curtok with
            | Some o4 => inet_pton6_end (out ++ o4) colonp false val
            | None => None
            end
          else None
      end
  end.

Definition inet_pton6 (src : list ascii) : option (list Z) :=
  match src with
  | ch :: rest =>
      if bool_decide (ch = ":"%char) then
        match rest with
        | ch' :: _ =>
            if bool_decide (ch' = ":"%char)
            then inet_pton6_loop rest rest [] None false 0
            else None
        | [] => None
        end
      else inet_pton6_loop src src [] None false 0
  | [] => inet_pton6_loop src src [] None false 0
  end.

End libc.

(** ** ip.c *)

Section ip.
Context `{Platform} `{Resolver}.

Local Open Scope M_scope.

Definition zero_addrinfo : addrinfo := mkAddrinfo 0 0 0 0 0 None None None.

Definition zero_sockaddr_un : sockaddr_un :=
  mkSockaddrUn 0 (repeat NUL (Z.to_nat sizeof_sun_path)).

(** [strcpy(unp->sun_path, path)]. *)
Definition strcpy_sun_path (unp : option ptr) (path : option string) : M unit :=
  let* u := load_sockaddr_un unp in
  match path with
  | Some t =>
      match store (sun_path u) 0 (list_ascii_of_string t ++ [NUL]) with
      | Some m => update_sockaddr_un unp (fun u => mkSockaddrUn (sun_family u) m)
      | None => crash
      end
  | None => crash
  end.

(** [unlink(unp->sun_path)]. *)
Definition unlink_sun_path (unp : option ptr) : M unit :=
  let* u := load_sockaddr_un unp in
  match cstring (sun_path u) with
  | Some cs => unlink (string_of_list_ascii cs)
  | None => crash
  end.

(** The local [hints] of [getaddrinfo_unix] once it is set up: zeroed,
    then AF_UNIX and SOCK_STREAM when [hintsp] is NULL and a copy of
    [*hintsp] otherwise, then SOCK_STREAM in place of a socket type 0. *)
Definition getaddrinfo_unix_hints (hintsp : option addrinfo) : addrinfo :=
  let hints := zero_addrinfo in
  let hints :=
    match hintsp with
    | None => mkAddrinfo (ai_flags hints) AF_UNIX SOCK_STREAM (ai_protocol hints)
                (ai_addrlen hints) (ai_addr hints) (ai_canonname hints) (ai_next hints)
    | Some h => h
    end in
  if ai_socktype hints =? 0
  then mkAddrinfo (ai_flags hints) (ai_family hints) SOCK_STREAM (ai_protocol hints)
         (ai_addrlen hints) (ai_addr hints) (ai_canonname hints) (ai_next hints)
  else hints.

(** [getaddrinfo_unix(path, hintsp, result)]: the value returned, paired
    with [*result] after the call; the argument [result] is [*result]
    before it. Built without SALEN. *)
Definition getaddrinfo_unix (path : option string) (hintsp : option addrinfo)
    (result : option ptr) : M (Z * option ptr) :=
  let hints := getaddrinfo_unix_hints hintsp in
  if negb (ai_family hints =? AF_UNIX) then
    elog (String.append "hints.ai_family is invalid in getaddrinfo_unix()"
            (String LF EmptyString)) ;;;
    ret (EAI_ADDRFAMILY, result)
  else
    let* aip := calloc (Obj_addrinfo zero_addrinfo) in
    match aip with
    | None => ret (EAI_MEMORY, result)
    | Some _ =>
        update_addrinfo aip (fun a =>
          mkAddrinfo (ai_flags a) AF_UNIX (ai_socktype hints) (ai_protocol hints)
            (ai_addrlen a) (ai_addr a) None None) ;;;
        let result := aip in
        let* unp := calloc (Obj_sockaddr_un zero_sockaddr_un) in
        match aip with            (* the test is on [aip], as in the source *)
        | None => ret (EAI_MEMORY, result)
        | Some _ =>
            update_sockaddr_un unp (fun u => mkSockaddrUn AF_UNIX (sun_path u)) ;;;
            update_addrinfo aip (fun a =>
              mkAddrinfo (ai_flags a) (ai_family a) (ai_socktype a) (ai_protocol a)
                sizeof_sockaddr_un unp (ai_canonname a) (ai_next a)) ;;;
            let* n := strlen path in
            if n >=? sizeof_sun_path then ret (EAI_SERVICE, result)
            else
              strcpy_sun_path unp path ;;;
              (if negb (Z.land (ai_flags hints) AI_PASSIVE =? 0)
               then unlink_sun_path unp
               else ret tt) ;;;
              ret (0, result)
        end
    end.

(** [getaddrinfo2(hostname, servname, hintp, result)]. *)
Definition getaddrinfo2 (hostname servname : option string) (hintp : option addrinfo)
    (result : option ptr) : M (Z * option ptr) :=
  match hintp with
  | Some h =>
      if ai_family h =? AF_UNIX then getaddrinfo_unix servname hintp result
      else
        getaddrinfo
          (match hostname with Some "" | None => None | _ => hostname end)
          servname hintp result
  | None =>
      getaddrinfo
        (match hostname with Some "" | None => None | _ => hostname end)
        servname hintp result
  end.

(** The [while] loop of [freeaddrinfo2]. Every iteration frees the node it
    visits, so the loop cannot take more iterations than the heap has
    objects without ending on an invalid access; [fuel] counts them. *)
Fixpoint freeaddrinfo2_loop (fuel : nat) (ai : option ptr) : M unit :=
  match fuel with
  | O => match ai with None => ret tt | Some _ => crash end
  | S fuel' =>
      match ai with
      | None => ret tt
      | Some _ =>
          let p := ai in
          let* node := load_addrinfo p in
          let ai := ai_next node in
          free (ai_addr node) ;;;
          free p ;;;
          freeaddrinfo2_loop fuel' ai
      end
  end.

(** [freeaddrinfo2(hint_ai_family, ai)]. *)
Definition freeaddrinfo2 (hint_ai_family : Z) (ai : option ptr) : M unit :=
  if hint_ai_family =? AF_UNIX
  then fun w => freeaddrinfo2_loop (size (heap w)) ai w
  else freeaddrinfo ai.

(** IN6_IS_ADDR_V4MAPPED of <netinet/in.h>: the first ten octets are zero
    and the next two are 0xff. *)
Definition IN6_IS_ADDR_V4MAPPED (a : list Z) : bool :=
  forallb (fun i => octet a i =? 0) (seq 0 10)
  && (octet a 10 =? 255) && (octet a 11 =? 255).

(** [SockAddr_ntop(sa, dst, cnt, v4conv)]. [dst] is the memory from the
    pointer [dst] to the end of the object it points into; the function
    returns that pointer, so the result is the memory after the call, or
    [None] when the call reaches outside the object. [cnt] is a [size_t]
    and the size that [inet_ntop] takes is a [socklen_t], so the call
    converts it. The value [inet_ntop] returns is not looked at. *)
Definition SockAddr_ntop (sa : SockAddr) (dst : list ascii) (cnt : Z) (v4conv : Z)
  : option (list ascii) :=
  if sa_family sa =? AF_INET then
    snd <$> inet_ntop (inet_ntop4_text (s_addr sa)) dst (to_socklen_t cnt)
  else if sa_family sa =? AF_INET6 then
    '(_, m) ← inet_ntop (inet_ntop6_text (s6_addr sa)) dst (to_socklen_t cnt);
    if negb (v4conv =? 0) && IN6_IS_ADDR_V4MAPPED (s6_addr sa)
    then strcpy_within m 0 7
    else Some m
  else
    poke dst 0 NUL.

(** The loop of [SockAddr_pton]: is there a ':' before the terminator. *)
Fixpoint has_colon (src : string) : bool :=
  match src with
  | EmptyString => false
  | String ch rest => if decide (ch = ":"%char) then true else has_colon rest
  end.

(** [SockAddr_pton(sa, src)]: the value returned and [*sa] after the call. *)
Definition SockAddr_pton (sa : SockAddr) (src : string) : Z * SockAddr :=
  let family := if has_colon src then AF_INET6 else AF_INET in
  let sa := set_sa_family family sa in
  if family =? AF_INET then
    match inet_pton4_addr src with
    | Some a => (1, set_s_addr a sa)
    | None => (0, sa)
    end
  else if family =? AF_INET6 then
    match inet_pton6_addr src with
    | Some a => (1, set_s6_addr a sa)
    | None => (0, sa)
    end
  else (-1, sa).

Definition isAF_INETx (family : Z) : Z :=
  if (family =? AF_INET) || (family =? AF_INET6) then 1 else 0.

Definition rangeSockAddrAF_INET (addr netaddr netmask : SockAddr) : Z :=
  if negb (sa_family addr =? AF_INET)
     || negb (sa_family netaddr =? AF_INET)
     || negb (sa_family netmask =? AF_INET)
  then 0
  else if Z.land (Z.lxor (s_addr addr) (s_addr netaddr)) (s_addr netmask) =? 0
  then 1
  else 0.

(** [convSockAddr6to4(src, dst)]: [*dst] after the call. The port is
    read through the view [in6] and stored through the view [in], into the
    bytes that both views share. The sum is taken in [int] and converted
    to the type of [s_addr]. The closing call of [SockAddr_ntop] fills the
    local [addr_str] only, which no one reads. *)
Definition convSockAddr6to4 (src dst : SockAddr) : SockAddr :=
  let a := s6_addr src in
  let dst := set_sa_family AF_INET dst in
  let dst := set_sin_port (sin6_port src) dst in
  set_s_addr
    (to_uint32
       (int_add
          (int_add
             (int_add (octet a 15) (int_shl (octet a 14) 8))
             (int_shl (octet a 13) 16))
          (int_shl (octet a 12) 24)))
    dst.

(** The [for] loop of [rangeSockAddrAF_INET6], entered at [i] with [k]
    iterations left: [Some j] when [return 0] is taken at octet [j],
    [None] when the loop runs to its end. *)
Fixpoint range6_loop (k : nat) (i : nat) (a n m : list Z) : option nat :=
  match k with
  | O => None
  | S k' =>
      if negb (Z.land (Z.lxor (octet a i) (octet n i)) (octet m i) =? 0)
      then Some i
      else range6_loop k' (S i) a n m
  end.

(** [rangeSockAddrAF_INET6(addr, netaddr, netmask)]. [addr4] is the local
    the function declares without initialising it. *)
Definition rangeSockAddrAF_INET6 (addr4 : SockAddr) (addr netaddr netmask : SockAddr) : Z :=
  if IN6_IS_ADDR_V4MAPPED (s6_addr addr)
     && negb (rangeSockAddrAF_INET (convSockAddr6to4 addr addr4) netaddr netmask =? 0)
  then 1
  else if negb (sa_family netaddr =? AF_INET6) || negb (sa_family netmask =? AF_INET6)
  then 0
  else match range6_loop 16 0 (s6_addr addr) (s6_addr netaddr) (s6_addr netmask) with
       | Some _ => 0
       | None => 1
       end.

Definition rangeSockAddr (addr4 : SockAddr) (addr netaddr netmask : SockAddr) : Z :=
  if sa_family addr =? AF_INET then rangeSockAddrAF_INET addr netaddr netmask
  else if sa_family addr =? AF_INET6 then rangeSockAddrAF_INET6 addr4 addr netaddr netmask
  else 0.

End ip.

(** ** Linux

    The constants are those of the Linux headers; the host is of either
    byte order. [s_addr] is loaded from, and stored to, the four octets
    that [inet_pton] writes and [inet_ntop] reads. *)

Definition linux (bo : byte_order) : Platform := {|
  AF_UNIX := 1;
  AF_INET := 2;
  AF_INET6 := 10;
  SOCK_STREAM := 1;
  AI_PASSIVE := 1;
  EAI_ADDRFAMILY := -9;
  EAI_MEMORY := -10;
  EAI_SERVICE := -8;
  sizeof_sun_path := 108;
  sizeof_sockaddr_un := 110;
  inet_ntop4_text := fun v => string_of_list_ascii (libc.inet_ntop4 (store32 bo v));
  inet_pton4_addr := fun s =>
    o ← libc.inet_pton4 (list_ascii_of_string s);
    Some (load32 bo (octet o 0) (octet o 1) (octet o 2) (octet o 3));
  inet_ntop6_text := fun a => string_of_list_ascii (libc.inet_ntop6 a);
  inet_pton6_addr := fun s => libc.inet_pton6 (list_ascii_of_string s)
|}.

(** INET_ADDRSTRLEN and INET6_ADDRSTRLEN of <netinet/in.h>. *)
Definition INET_ADDRSTRLEN : Z := 16.
Definition INET6_ADDRSTRLEN : Z := 46.

(** ** Test values *)

Definition ipv4 `{Platform} (v : Z) : SockAddr := mkSockAddr AF_INET 0 v [].
Definition ipv6 `{Platform} (a : list Z) : SockAddr := mkSockAddr AF_INET6 0 0 a.
Definition blank : SockAddr := mkSockAddr 0 0 0 [].

Definition pton_ok `{Platform} (src : string) : SockAddr := snd (SockAddr_pton blank src).

Definition ntop_text `{Platform} (sa : SockAddr) (v4conv : Z) : option string :=
  m ← SockAddr_ntop sa (repeat "X"%char 64) 64 v4conv;
  string_of_list_ascii <$> cstring m.

(** [rangeSockAddr] on the addresses that [SockAddr_pton] reads from three
    texts, on the platform [P]. *)
Definition range_of_text (P : Platform) (addr netaddr netmask : string) : Z :=
  @rangeSockAddr P blank (@pton_ok P addr) (@pton_ok P netaddr) (@pton_ok P netmask).

(** Hints that ask for the Unix-domain family, with the given flags. *)
Definition unix_hints (flags : Z) : addrinfo := mkAddrinfo flags 1 0 0 0 None None None.

(** A path of 108 characters. *)
Definition long_path : string := string_of_list_ascii (repeat "a"%char 108).

(** A resolver that knows no host: EAI_NONAME. *)
Definition no_resolver : Resolver := {|
  getaddrinfo := fun _ _ _ result => ret (-2, result);
  freeaddrinfo := fun _ => ret tt
|}.

(** ** Auxiliary definitions *)

(** The node and the address that [getaddrinfo_unix] has built when it
    reaches the test of the path length. *)
Definition unix_node `{Platform} (hintsp : option addrinfo) (unp : option ptr) : addrinfo :=
  mkAddrinfo 0 AF_UNIX (ai_socktype (getaddrinfo_unix_hints hintsp))
    (ai_protocol (getaddrinfo_unix_hints hintsp)) sizeof_sockaddr_un unp None None.

Definition unix_addr `{Platform} (path : list ascii) : sockaddr_un :=
  mkSockaddrUn AF_UNIX path.

(** Nothing beyond [cnt] characters has changed, and a terminator lies
    within them. *)
Definition within_capacity (dst m : list ascii) (cnt : Z) : Prop :=
  List.length m = List.length dst
  ∧ drop (Z.to_nat cnt) m = drop (Z.to_nat cnt) dst
  ∧ ∃ k : nat, (Z.of_nat k < cnt) ∧ m !! k = Some NUL.

(** Octet [i] of the address agrees with the network under the mask. *)
Definition octet_match (a n m : list Z) (i : nat) : Prop :=
  Z.land (Z.lxor (octet a i) (octet n i)) (octet m i) = 0.

(** ::ffff:10.1.2.3 with port 5432. *)
Definition mapped_10_1_2_3 : SockAddr :=
  mkSockAddr 10 5432 0 [0; 0; 0; 0; 0; 0; 0; 0; 0; 0; 255; 255; 10; 1; 2; 3].

(** The text that decides the family of [src], and the parse of it. *)
Definition inferred_family `{Platform} (src : string) : Z :=
  if has_colon src then AF_INET6 else AF_INET.

Definition parses `{Platform} (src : string) : bool :=
  if has_colon src then bool_decide (is_Some (inet_pton6_addr src))
  else bool_decide (is_Some (inet_pton4_addr src)).

(** The integers below [n], for checks that run through all of them. *)
Definition below (n : nat) : list Z := map Z.of_nat (seq 0 n).

(** The hexadecimal digits of [inet_pton6_loop], run on their own: the
    value they leave in [val], or [None] where the loop returns 0. *)
Fixpoint run_xdigits (cs : list ascii) (val : Z) : option Z :=
  match cs with
  | [] => Some val
  | c :: cs' =>
      match libc.index_of (libc.tolower c) libc.xdigits 0 with
      | Some d =>
          if Z.lor (Z.shiftl val 4) d >? 65535 then None
          else run_xdigits cs' (Z.lor (Z.shiftl val 4) d)
      | None => None
      end
  end.

(** The two octets that [inet_pton6] stores for a group. *)
Definition group_hi (w : Z) : Z := Z.land (Z.shiftr w 8) 255.
Definition group_lo (w : Z) : Z := Z.land w 255.

(** [best_run] looks at a word only to see whether it is zero. *)
Definition zero_or_one (w : Z) : Z := if w =? 0 then 0 else 1.

(** All lists of [n] zeros and ones. *)
Fixpoint zeros_and_ones (n : nat) : list (list Z) :=
  match n with
  | O => [[]]
  | S n' => flat_map (fun l => [0 :: l; 1 :: l]) (zeros_and_ones n')
  end.

(** What is used of the run: it is absent, or it lies within the eight
    words, is at least two words long, and covers zero words only. *)
Definition best_run_ok (ws : list Z) : bool :=
  let '(b, l) := libc.best_run ws in
  (b =? -1)
  || ((0 <=? b) && (2 <=? l) && (b + l <=? 8)
      && forallb (fun i => if (b <=? i) && (i <? b + l)
                           then octet ws (Z.to_nat i) =? 0 else true) (below 8)).

(** [w] is the word that the octets [x] and [y] make. *)
Definition word_of (x y w : Z) : Prop :=
  0 <= w < 65536 ∧ group_hi w = x ∧ group_lo w = y
  ∧ (w = 0 → x = 0 ∧ y = 0) ∧ (w = 65535 → x = 255 ∧ y = 255).

(** [inet_ntop6_loop] with its test of [words[5] == 0xffff] made a
    parameter. *)
Fixpoint inet_ntop6_loop_with (mapped : bool) (k : nat) (i : nat) (src ws : list Z)
    (best : libc.run) : list ascii :=
  match k with
  | O => []
  | S k' =>
      if negb (fst best =? -1) && (fst best <=? Z.of_nat i)
         && (Z.of_nat i <? fst best + snd best)
      then
        (if Z.of_nat i =? fst best then [":"%char] else [])
        ++ inet_ntop6_loop_with mapped k' (S i) src ws best
      else
        (if negb (Z.of_nat i =? 0) then [":"%char] else [])
        ++ if (Z.of_nat i =? 6) && (fst best =? 0)
              && ((snd best =? 6) || ((snd best =? 5) && mapped))
           then libc.inet_ntop4 (drop 12 src)
           else libc.print_x (octet ws i)
                ++ inet_ntop6_loop_with mapped k' (S i) src ws best
  end.

(** What the round trip needs of a text. *)
Definition good_text (text : list ascii) (src : list Z) : Prop :=
  libc.inet_pton6 text = Some src
  ∧ In ":"%char text
  ∧ Forall (fun c => c ≠ NUL) text
  ∧ (List.length text < 46)%nat.

(** [SockAddr_pton] into [out] of the text that [SockAddr_ntop] leaves in
    [dst] for [sa], without unmapping. *)
Definition pton_of_ntop `{Platform} (sa out : SockAddr) (dst : list ascii) (cnt : Z)
  : option (Z * SockAddr) :=
  m ← SockAddr_ntop sa dst cnt 0;
  text ← cstring m;
  Some (SockAddr_pton out (string_of_list_ascii text)).

(** [sun_path] after [strcpy] of a path that fits into it: the characters
    of the path, and NUL up to the end of the array. *)
Definition path_buffer `{Platform} (path : string) : list ascii :=
  list_ascii_of_string path
  ++ repeat NUL (Z.to_nat sizeof_sun_path - String.length path).

(** The heap after [free(q)]. *)
Definition release (q : option ptr) (h : gmap ptr object) : gmap ptr object :=
  match q with
  | Some u => delete u h
  | None => h
  end.

(** The list that starts at [ai] in the heap [h] has the nodes [cells],
    each with its [ai_addr]: a node is an allocated [addrinfo], its
    [ai_addr] is NULL or an allocated object other than the node, and the
    rest of the list lies in the heap without the two. *)
Fixpoint chain (h : gmap ptr object) (ai : option ptr) (cells : list (ptr * option ptr))
  : Prop :=
  match cells with
  | [] => ai = None
  | (p, q) :: cells' =>
      ai = Some p
      ∧ ∃ node, h !! p = Some (Obj_addrinfo node)
                ∧ ai_addr node = q
                ∧ q ≠ Some p
                ∧ (∀ u, q = Some u → is_Some (h !! u))
                ∧ chain (delete p (release q h)) (ai_next node) cells'
  end.

(** The heap without the nodes and the addresses of a list. *)
Fixpoint released (h : gmap ptr object) (cells : list (ptr * option ptr))
  : gmap ptr object :=
  match cells with
  | [] => h
  | (p, q) :: cells' => released (delete p (release q h)) cells'
  end.

(** The number of objects of a list. *)
Fixpoint freed (cells : list (ptr * option ptr)) : nat :=
  match cells with
  | [] => 0
  | (_, Some _) :: cells' => S (S (freed cells'))
  | (_, None) :: cells' => S (freed cells')
  end.

(** A list of two nodes, the second without an address. *)
Definition two_nodes : world :=
  mkWorld
    (<[1%nat := Obj_addrinfo (mkAddrinfo 0 1 1 0 110 (Some 2%nat) None (Some 3%nat))]>
       (<[2%nat := Obj_sockaddr_un (mkSockaddrUn 1 [])]>
          (<[3%nat := Obj_addrinfo (mkAddrinfo 0 1 1 0 0 None None None)]>
             (<[4%nat := Obj_sockaddr_un (mkSockaddrUn 1 [])]> ∅))))
    0 ∅ [].

(** The text "a.b.c.d". *)
Definition dotted (a b c d : Z) : string :=
  string_of_list_ascii (libc.inet_ntop4 [a; b; c; d]).

Arguments group_hi : simpl never.
Arguments group_lo : simpl never.

(** * Properties *)

(** ** Range matching, IPv4 *)

Section range4.
Context `{Platform}.

Lemma rangeSockAddrAF_INET_bool (addr netaddr netmask : SockAddr) :
  rangeSockAddrAF_INET addr netaddr netmask = 0
  ∨ rangeSockAddrAF_INET addr netaddr netmask = 1.
Proof.
  unfold rangeSockAddrAF_INET.
  repeat match goal with |- context [if ?b then _ else _] => destruct b end; auto.
Qed.

Lemma rangeSockAddrAF_INET_families (addr netaddr netmask : SockAddr) :
  rangeSockAddrAF_INET addr netaddr netmask = 1 →
  sa_family addr = AF_INET ∧ sa_family netaddr = AF_INET ∧ sa_family netmask = AF_INET.
Proof.
  unfold rangeSockAddrAF_INET.
  destruct (sa_family addr =? AF_INET) eqn:Ea; [|discriminate].
  destruct (sa_family netaddr =? AF_INET) eqn:En; [|discriminate].
  destruct (sa_family netmask =? AF_INET) eqn:Em; [|discriminate].
  intros _. repeat split; by apply Z.eqb_eq.
Qed.

Lemma rangeSockAddrAF_INET_inet (addr netaddr netmask : SockAddr) :
  sa_family addr = AF_INET → sa_family netaddr = AF_INET → sa_family netmask = AF_INET →
  rangeSockAddrAF_INET addr netaddr netmask =
  if Z.land (Z.lxor (s_addr addr) (s_addr netaddr)) (s_addr netmask) =? 0 then 1 else 0.
Proof.
  intros Ha Hn Hm. unfold rangeSockAddrAF_INET.
  by rewrite Ha, Hn, Hm, Z.eqb_refl.
Qed.

End range4.

(** C1. When the three family tags are AF_INET, [rangeSockAddrAF_INET]
    (and [rangeSockAddr], which dispatches to it) returns 1 exactly when
    [(addr ^ network) & mask] is 0 on the 32-bit values [s_addr], and 0
    otherwise; when one of the tags is not AF_INET it returns 0. On Linux
    hosts of either byte order 10.1.2.3 is inside 10.0.0.0/255.0.0.0 and
    11.1.2.3 is not. *)
Theorem rangeSockAddrAF_INET_spec `{Platform} (addr4 addr netaddr netmask : SockAddr) :
  (sa_family addr = AF_INET ∧ sa_family netaddr = AF_INET ∧ sa_family netmask = AF_INET →
     (rangeSockAddrAF_INET addr netaddr netmask = 1
      ↔ Z.land (Z.lxor (s_addr addr) (s_addr netaddr)) (s_addr netmask) = 0)
     ∧ (rangeSockAddrAF_INET addr netaddr netmask = 0
        ↔ Z.land (Z.lxor (s_addr addr) (s_addr netaddr)) (s_addr netmask) ≠ 0)
     ∧ rangeSockAddr addr4 addr netaddr netmask
       = rangeSockAddrAF_INET addr netaddr netmask)
  ∧ (sa_family addr ≠ AF_INET ∨ sa_family netaddr ≠ AF_INET ∨ sa_family netmask ≠ AF_INET →
     rangeSockAddrAF_INET addr netaddr netmask = 0)
  ∧ (∀ bo : byte_order,
       range_of_text (linux bo) "10.1.2.3" "10.0.0.0" "255.0.0.0" = 1
       ∧ range_of_text (linux bo) "11.1.2.3" "10.0.0.0" "255.0.0.0" = 0).
Proof.
  split; [|split].
  - intros (Ha & Hn & Hm).
    rewrite (rangeSockAddrAF_INET_inet _ _ _ Ha Hn Hm).
    split; [|split].
    + destruct (Z.eqb_spec (Z.land (Z.lxor (s_addr addr) (s_addr netaddr)) (s_addr netmask)) 0);
        split; intros; congruence.
    + destruct (Z.eqb_spec (Z.land (Z.lxor (s_addr addr) (s_addr netaddr)) (s_addr netmask)) 0);
        split; intros; congruence.
    + unfold rangeSockAddr. rewrite Ha, Z.eqb_refl.
      by rewrite (rangeSockAddrAF_INET_inet _ _ _ Ha Hn Hm).
  - unfold rangeSockAddrAF_INET. intros [Hne | [Hne | Hne]];
      apply Z.eqb_neq in Hne; rewrite Hne; simpl;
      rewrite ?orb_true_r; reflexivity.
  - intros []; split; vm_compute; reflexivity.
Qed.

Lemma rangeSockAddrAF_INET_spec_witness :
  let P := linux LittleEndian in
  let addr := @ipv4 P (in_addr_of LittleEndian 10 1 2 3) in
  let netaddr := @ipv4 P (in_addr_of LittleEndian 10 0 0 0) in
  let netmask := @ipv4 P (in_addr_of LittleEndian 255 0 0 0) in
  (sa_family addr = @AF_INET P ∧ sa_family netaddr = @AF_INET P
   ∧ sa_family netmask = @AF_INET P)
  ∧ Z.land (Z.lxor (s_addr addr) (s_addr netaddr)) (s_addr netmask) = 0
  ∧ @rangeSockAddr P blank addr netaddr netmask = 1.
Proof.
  intros P addr netaddr netmask.
  assert (Hf : sa_family addr = @AF_INET P ∧ sa_family netaddr = @AF_INET P
               ∧ sa_family netmask = @AF_INET P) by (repeat split; reflexivity).
  destruct (@rangeSockAddrAF_INET_spec P blank addr netaddr netmask) as (Hspec & _ & _).
  destruct (Hspec Hf) as (H1 & _ & Hd).
  split; [exact Hf|]. split; [reflexivity|].
  rewrite Hd. apply H1. reflexivity.
Defined.

(** ** Range matching, IPv6 *)

Lemma range6_loop_Some (k i : nat) (a n m : list Z) (j : nat) :
  range6_loop k i a n m = Some j
  ↔ (i ≤ j < i + k)%nat ∧ ¬ octet_match a n m j
    ∧ ∀ i', (i ≤ i' < j)%nat → octet_match a n m i'.
Proof.
  unfold octet_match. revert i. induction k as [|k IH]; intros i; simpl.
  - split; [discriminate | lia].
  - destruct (Z.eqb_spec (Z.land (Z.lxor (octet a i) (octet n i)) (octet m i)) 0)
      as [E|E]; simpl.
    + rewrite IH. split.
      * intros (Hj & Hm & Hlt). split; [lia|]. split; [done|].
        intros i' Hi'. destruct (decide (i' = i)) as [->|]; [done|]. apply Hlt. lia.
      * intros (Hj & Hm & Hlt).
        assert (j ≠ i) by (intros ->; contradiction).
        split; [lia|]. split; [done|]. intros i' Hi'. apply Hlt. lia.
    + split.
      * intros [= <-]. split; [lia|]. split; [done|]. intros; lia.
      * intros (Hj & Hm & Hlt). f_equal.
        destruct (decide (i = j)) as [|Hne]; [done|].
        exfalso. apply E, Hlt. lia.
Qed.

Lemma range6_loop_None (k i : nat) (a n m : list Z) :
  range6_loop k i a n m = None
  ↔ ∀ i', (i ≤ i' < i + k)%nat → octet_match a n m i'.
Proof.
  unfold octet_match. revert i. induction k as [|k IH]; intros i; simpl.
  - split; [intros; lia | done].
  - destruct (Z.eqb_spec (Z.land (Z.lxor (octet a i) (octet n i)) (octet m i)) 0)
      as [E|E]; simpl.
    + rewrite IH. split.
      * intros Hall i' Hi'. destruct (decide (i' = i)) as [->|]; [done|]. apply Hall. lia.
      * intros Hall i' Hi'. apply Hall. lia.
    + split; [discriminate|]. intros Hall. exfalso. apply E, Hall. lia.
Qed.

(** C3. When the IPv4-mapped sub-match does not decide the call,
    [rangeSockAddrAF_INET6] returns 1 exactly when network and mask are
    tagged AF_INET6 and all sixteen octets satisfy
    [(addr[i] ^ network[i]) & mask[i] = 0], and 0 otherwise; its loop
    leaves at the first octet that does not. [rangeSockAddr] dispatches an
    AF_INET6 address to it and returns 0 for an address whose tag is
    neither AF_INET nor AF_INET6. *)
Theorem rangeSockAddrAF_INET6_spec `{Platform} (addr4 addr netaddr netmask : SockAddr) :
  (IN6_IS_ADDR_V4MAPPED (s6_addr addr)
   && negb (rangeSockAddrAF_INET (convSockAddr6to4 addr addr4) netaddr netmask =? 0)
   = false →
     (rangeSockAddrAF_INET6 addr4 addr netaddr netmask = 1
      ↔ sa_family netaddr = AF_INET6 ∧ sa_family netmask = AF_INET6
        ∧ ∀ i, (i < 16)%nat → octet_match (s6_addr addr) (s6_addr netaddr) (s6_addr netmask) i)
     ∧ (rangeSockAddrAF_INET6 addr4 addr netaddr netmask = 0
        ∨ rangeSockAddrAF_INET6 addr4 addr netaddr netmask = 1)
     ∧ (sa_family netaddr ≠ AF_INET6 ∨ sa_family netmask ≠ AF_INET6 →
        rangeSockAddrAF_INET6 addr4 addr netaddr netmask = 0))
  ∧ (∀ j, range6_loop 16 0 (s6_addr addr) (s6_addr netaddr) (s6_addr netmask) = Some j
          ↔ (j < 16)%nat
            ∧ ¬ octet_match (s6_addr addr) (s6_addr netaddr) (s6_addr netmask) j
            ∧ ∀ i, (i < j)%nat →
                   octet_match (s6_addr addr) (s6_addr netaddr) (s6_addr netmask) i)
  ∧ (AF_INET ≠ AF_INET6 → sa_family addr = AF_INET6 →
     rangeSockAddr addr4 addr netaddr netmask
     = rangeSockAddrAF_INET6 addr4 addr netaddr netmask)
  ∧ (sa_family addr ≠ AF_INET → sa_family addr ≠ AF_INET6 →
     rangeSockAddr addr4 addr netaddr netmask = 0).
Proof.
  split; [|split; [|split]].
  - intros Hsub. unfold rangeSockAddrAF_INET6. rewrite Hsub.
    destruct (Z.eqb_spec (sa_family netaddr) AF_INET6) as [En|En]; cbn [negb orb].
    + destruct (Z.eqb_spec (sa_family netmask) AF_INET6) as [Em|Em]; cbn [negb orb].
      * destruct (range6_loop 16 0 (s6_addr addr) (s6_addr netaddr) (s6_addr netmask))
          as [j|] eqn:Eloop.
        -- apply range6_loop_Some in Eloop as (Hj & Hmis & _).
           split; [|split]; [|by left|intros [|]; contradiction].
           split; [discriminate|]. intros (_ & _ & Hall).
           exfalso. apply Hmis, Hall. lia.
        -- split; [|split]; [|by right|intros [|]; contradiction].
           split; [|done]. intros _. split; [done|]. split; [done|].
           intros i Hi. eapply range6_loop_None; [exact Eloop|lia].
      * split; [|split]; [|by left|done].
        split; [discriminate|]. intros (_ & ? & _). contradiction.
    + split; [|split]; [|by left|done].
      split; [discriminate|]. intros (? & _). contradiction.
  - intros j. rewrite range6_loop_Some. split.
    + intros (Hj & Hmis & Hall). split; [lia|]. split; [done|]. intros i Hi. apply Hall. lia.
    + intros (Hj & Hmis & Hall). split; [lia|]. split; [done|]. intros i Hi. apply Hall. lia.
  - intros Hne Ha. unfold rangeSockAddr. rewrite Ha.
    destruct (Z.eqb_spec AF_INET6 AF_INET); [congruence|]. by rewrite Z.eqb_refl.
  - intros H4 H6. unfold rangeSockAddr.
    apply Z.eqb_neq in H4, H6. by rewrite H4, H6.
Qed.

Lemma rangeSockAddrAF_INET6_spec_witness :
  let P := linux LittleEndian in
  let addr := @pton_ok P "fe80::1" in
  let netaddr := @pton_ok P "fe80::" in
  let netmask := @pton_ok P "ffff:ffff:ffff:ffff::" in
  IN6_IS_ADDR_V4MAPPED (s6_addr addr)
    && negb (@rangeSockAddrAF_INET P (@convSockAddr6to4 P addr blank) netaddr netmask =? 0)
    = false
  ∧ sa_family netaddr = @AF_INET6 P ∧ sa_family netmask = @AF_INET6 P
  ∧ @rangeSockAddrAF_INET6 P blank addr netaddr netmask = 1
  ∧ @rangeSockAddr P blank addr netaddr netmask = 1
  ∧ @rangeSockAddr P blank blank netaddr netmask = 0.
Proof.
  intros P addr netaddr netmask.
  destruct (@rangeSockAddrAF_INET6_spec P blank addr netaddr netmask)
    as (Hsub & _ & Hdisp & _).
  destruct (@rangeSockAddrAF_INET6_spec P blank blank netaddr netmask)
    as (_ & _ & _ & Hother).
  assert (Hnot : IN6_IS_ADDR_V4MAPPED (s6_addr addr)
    && negb (@rangeSockAddrAF_INET P (@convSockAddr6to4 P addr blank) netaddr netmask =? 0)
    = false) by reflexivity.
  destruct (Hsub Hnot) as (Hiff & _ & _).
  assert (H1 : @rangeSockAddrAF_INET6 P blank addr netaddr netmask = 1).
  { apply Hiff. split; [reflexivity|]. split; [reflexivity|].
    intros i Hi. do 16 (destruct i as [|i]; [reflexivity|]). lia. }
  split; [exact Hnot|]. split; [reflexivity|]. split; [reflexivity|].
  split; [exact H1|]. split.
  - rewrite Hdisp; [exact H1|discriminate|reflexivity].
  - apply Hother; discriminate.
Defined.

(** ** IPv4-mapped addresses *)

Lemma wrap_int_congr (z : Z) : ∃ k, wrap_int z = z + k * 2^32.
Proof.
  exists (- ((z + 2^31) / 2^32)). unfold wrap_int.
  pose proof (Z.div_mod (z + 2^31) (2^32)). lia.
Qed.

(** The sum that [convSockAddr6to4] stores is the value of the last four
    octets read as a big-endian number, for any octets. *)
Lemma convSockAddr6to4_value `{Platform} (src dst : SockAddr) :
  let a := s6_addr src in
  (∀ i, 0 <= octet a i < 256) →
  s_addr (convSockAddr6to4 src dst)
  = octet a 12 * 2^24 + octet a 13 * 2^16 + octet a 14 * 2^8 + octet a 15.
Proof.
  intros a Hoct. unfold convSockAddr6to4. simpl. fold a.
  unfold int_add, int_shl. rewrite !Z.shiftl_mul_pow2 by lia.
  destruct (wrap_int_congr (octet a 14 * 2^8)) as [k1 ->].
  destruct (wrap_int_congr (octet a 13 * 2^16)) as [k2 ->].
  destruct (wrap_int_congr (octet a 12 * 2^24)) as [k3 ->].
  destruct (wrap_int_congr (octet a 15 + (octet a 14 * 2^8 + k1 * 2^32))) as [k4 ->].
  destruct (wrap_int_congr
    (octet a 15 + (octet a 14 * 2^8 + k1 * 2^32) + k4 * 2^32
     + (octet a 13 * 2^16 + k2 * 2^32))) as [k5 ->].
  destruct (wrap_int_congr
    (octet a 15 + (octet a 14 * 2^8 + k1 * 2^32) + k4 * 2^32
     + (octet a 13 * 2^16 + k2 * 2^32) + k5 * 2^32
     + (octet a 12 * 2^24 + k3 * 2^32))) as [k6 ->].
  unfold to_uint32.
  pose proof (Hoct 12%nat). pose proof (Hoct 13%nat).
  pose proof (Hoct 14%nat). pose proof (Hoct 15%nat).
  symmetry. apply (Z.mod_unique_pos _ _ (k1 + k2 + k3 + k4 + k5 + k6)); lia.
Qed.

Lemma octet_range (a : list Z) (i : nat) : wf_in6 a → 0 <= octet a i < 256.
Proof.
  intros [_ Hall]. unfold octet.
  destruct (nth_in_or_default i a 0) as [Hin | ->]; [|lia].
  rewrite Forall_forall in Hall. apply Hall. by apply list_elem_of_In.
Qed.

(** On a big-endian host the converted address is the [s_addr] of the
    embedded IPv4 address; on a little-endian host it is the [s_addr] of
    that address with its octets reversed. *)
Lemma convSockAddr6to4_in_addr `{Platform} (src dst : SockAddr) :
  let a := s6_addr src in
  wf_in6 a →
  sa_family (convSockAddr6to4 src dst) = AF_INET
  ∧ sin_port (convSockAddr6to4 src dst) = sin6_port src
  ∧ s_addr (convSockAddr6to4 src dst)
    = in_addr_of BigEndian (octet a 12) (octet a 13) (octet a 14) (octet a 15)
  ∧ s_addr (convSockAddr6to4 src dst)
    = in_addr_of LittleEndian (octet a 15) (octet a 14) (octet a 13) (octet a 12).
Proof.
  intros a Hwf. split; [done|]. split; [done|].
  rewrite convSockAddr6to4_value by (intros i; by apply octet_range).
  split; reflexivity.
Qed.

(** What [addr4] holds before the call does not matter. *)
Lemma rangeSockAddrAF_INET6_addr4 `{Platform} (x y addr netaddr netmask : SockAddr) :
  rangeSockAddrAF_INET6 x addr netaddr netmask = rangeSockAddrAF_INET6 y addr netaddr netmask.
Proof.
  unfold rangeSockAddrAF_INET6, rangeSockAddrAF_INET, convSockAddr6to4.
  unfold set_s_addr, set_sin_port, set_sa_family. cbn [sa_family s_addr]. reflexivity.
Qed.

(** A successful sub-match on the converted address decides the call,
    whatever the comparison of the IPv6 octets would give. *)
Lemma rangeSockAddrAF_INET6_mapped `{Platform} (addr4 addr netaddr netmask : SockAddr) :
  IN6_IS_ADDR_V4MAPPED (s6_addr addr) = true →
  rangeSockAddrAF_INET (convSockAddr6to4 addr addr4) netaddr netmask = 1 →
  rangeSockAddrAF_INET6 addr4 addr netaddr netmask = 1.
Proof.
  intros Hmapped Hsub. unfold rangeSockAddrAF_INET6. by rewrite Hmapped, Hsub.
Qed.

(** C2. On a little-endian Linux host [rangeSockAddr] answers 0 for the
    address ::ffff:10.1.2.3 and the IPv4 rule 10.0.0.0/255.0.0.0, because
    the sub-match on the converted address fails there; on a big-endian
    host it answers 1. *)
Theorem rangeSockAddr_mapped_little_endian :
  range_of_text (linux LittleEndian) "::ffff:10.1.2.3" "10.0.0.0" "255.0.0.0" = 0
  ∧ IN6_IS_ADDR_V4MAPPED (s6_addr (@pton_ok (linux LittleEndian) "::ffff:10.1.2.3")) = true
  ∧ @rangeSockAddrAF_INET (linux LittleEndian)
      (@convSockAddr6to4 (linux LittleEndian)
         (@pton_ok (linux LittleEndian) "::ffff:10.1.2.3") blank)
      (@pton_ok (linux LittleEndian) "10.0.0.0")
      (@pton_ok (linux LittleEndian) "255.0.0.0") = 0
  ∧ range_of_text (linux BigEndian) "::ffff:10.1.2.3" "10.0.0.0" "255.0.0.0" = 1.
Proof. repeat split; vm_compute; reflexivity. Qed.

(** C4. On a little-endian Linux host [convSockAddr6to4] turns
    ::ffff:10.1.2.3 into the [s_addr] 0x0A010203, which is the address
    3.2.1.10 there and not 10.1.2.3, whose [s_addr] is 0x0302010A; the
    port is carried over. On a big-endian host the two agree. *)
Theorem convSockAddr6to4_little_endian :
  let P := linux LittleEndian in
  let dst := @convSockAddr6to4 P mapped_10_1_2_3 blank in
  s_addr dst = 167838211
  ∧ s_addr (@pton_ok P "10.1.2.3") = 50462986
  ∧ @inet_ntop4_text P (s_addr dst) = "3.2.1.10"
  ∧ sin_port dst = 5432
  ∧ @rangeSockAddrAF_INET P dst (@pton_ok P "10.1.2.3") (@pton_ok P "255.255.255.255") = 0
  ∧ s_addr (@convSockAddr6to4 (linux BigEndian) mapped_10_1_2_3 blank)
    = s_addr (@pton_ok (linux BigEndian) "10.1.2.3").
Proof. repeat split; vm_compute; reflexivity. Qed.

(** ** SockAddr_pton *)

Lemma has_colon_In (src : string) :
  has_colon src = true ↔ In ":"%char (list_ascii_of_string src).
Proof.
  induction src as [|ch rest IH]; simpl.
  - split; [discriminate | tauto].
  - destruct (decide (ch = ":"%char)) as [->|Hne].
    + split; auto.
    + rewrite IH. split; [auto|]. intros [|]; [congruence | done].
Qed.

Lemma SockAddr_pton_unfold `{Platform} (sa : SockAddr) (src : string) :
  AF_INET ≠ AF_INET6 →
  SockAddr_pton sa src =
  if has_colon src then
    match inet_pton6_addr src with
    | Some a => (1, set_s6_addr a (set_sa_family AF_INET6 sa))
    | None => (0, set_sa_family AF_INET6 sa)
    end
  else
    match inet_pton4_addr src with
    | Some a => (1, set_s_addr a (set_sa_family AF_INET sa))
    | None => (0, set_sa_family AF_INET sa)
    end.
Proof.
  intros Hne. unfold SockAddr_pton. destruct (has_colon src).
  - destruct (Z.eqb_spec AF_INET6 AF_INET); [congruence|]. by rewrite Z.eqb_refl.
  - by rewrite Z.eqb_refl.
Qed.

(** C9. [SockAddr_pton] takes the text for IPv6 when a colon occurs in it
    and for IPv4 otherwise, whatever else the text holds; it stores that
    family, returns 1 when [inet_pton] reads the text as an address of that
    family and 0 when it does not, and returns nothing else. *)
Theorem SockAddr_pton_family `{Platform} (sa : SockAddr) (src : string) :
  AF_INET ≠ AF_INET6 →
  (In ":"%char (list_ascii_of_string src) →
     sa_family (snd (SockAddr_pton sa src)) = AF_INET6
     ∧ (fst (SockAddr_pton sa src) = 1 ↔ is_Some (inet_pton6_addr src))
     ∧ (fst (SockAddr_pton sa src) = 0 ↔ inet_pton6_addr src = None))
  ∧ (¬ In ":"%char (list_ascii_of_string src) →
     sa_family (snd (SockAddr_pton sa src)) = AF_INET
     ∧ (fst (SockAddr_pton sa src) = 1 ↔ is_Some (inet_pton4_addr src))
     ∧ (fst (SockAddr_pton sa src) = 0 ↔ inet_pton4_addr src = None))
  ∧ (fst (SockAddr_pton sa src) = 0 ∨ fst (SockAddr_pton sa src) = 1).
Proof.
  intros Hne. rewrite (SockAddr_pton_unfold _ _ Hne). split; [|split].
  - intros Hin. apply has_colon_In in Hin. rewrite Hin.
    destruct (inet_pton6_addr src) as [a|]; simpl;
      (split; [done|]); split; split; intros Hx;
      try done; try (by destruct Hx as [? [=]]); eauto.
  - intros Hnin. destruct (has_colon src) eqn:Ec.
    { exfalso. apply Hnin. by apply has_colon_In. }
    destruct (inet_pton4_addr src) as [a|]; simpl;
      (split; [done|]); split; split; intros Hx;
      try done; try (by destruct Hx as [? [=]]); eauto.
  - destruct (has_colon src).
    + destruct (inet_pton6_addr src); simpl; auto.
    + destruct (inet_pton4_addr src); simpl; auto.
Qed.

Lemma SockAddr_pton_family_witness :
  let P := linux LittleEndian in
  @AF_INET P ≠ @AF_INET6 P
  ∧ In ":"%char (list_ascii_of_string "fe80::1")
  ∧ sa_family (snd (@SockAddr_pton P blank "fe80::1")) = @AF_INET6 P
  ∧ fst (@SockAddr_pton P blank "fe80::1") = 1
  ∧ fst (@SockAddr_pton P blank "10.1:2.3") = 0
  ∧ sa_family (snd (@SockAddr_pton P blank "10.1.2.3")) = @AF_INET P.
Proof.
  intros P.
  assert (Hne : @AF_INET P ≠ @AF_INET6 P) by discriminate.
  assert (Hin : In ":"%char (list_ascii_of_string "fe80::1")) by (simpl; tauto).
  assert (Hin' : In ":"%char (list_ascii_of_string "10.1:2.3")) by (simpl; tauto).
  assert (Hnin : ¬ In ":"%char (list_ascii_of_string "10.1.2.3")).
  { simpl. intros H. repeat (destruct H as [H|H]; [discriminate H|]). exact H. }
  destruct (@SockAddr_pton_family P blank "fe80::1" Hne) as (H6 & _ & _).
  destruct (@SockAddr_pton_family P blank "10.1:2.3" Hne) as (H6' & _ & _).
  destruct (@SockAddr_pton_family P blank "10.1.2.3" Hne) as (_ & H4 & _).
  destruct (H6 Hin) as (Hf & Hone & _).
  destruct (H6' Hin') as (_ & _ & Hzero).
  destruct (H4 Hnin) as (Hf4 & _ & _).
  split; [exact Hne|]. split; [exact Hin|]. split; [exact Hf|].
  split; [apply Hone; vm_compute; eauto|].
  split; [apply Hzero; vm_compute; reflexivity|exact Hf4].
Defined.

(** C10, as the claim states it, fails: parsing the malformed text "10.1.2"
    into a variable that holds the IPv6 address ::1 returns 0 and leaves
    the variable tagged AF_INET, with the [s_addr] and the sixteen octets
    it had before. *)
Lemma SockAddr_pton_failure_sets_family :
  let P := linux LittleEndian in
  let sa := @ipv6 P [0; 0; 0; 0; 0; 0; 0; 0; 0; 0; 0; 0; 0; 0; 0; 1] in
  fst (@SockAddr_pton P sa "10.1.2") = 0
  ∧ sa_family sa = @AF_INET6 P
  ∧ sa_family (snd (@SockAddr_pton P sa "10.1.2")) = @AF_INET P
  ∧ s_addr (snd (@SockAddr_pton P sa "10.1.2")) = s_addr sa
  ∧ s6_addr (snd (@SockAddr_pton P sa "10.1.2")) = s6_addr sa
  ∧ @inet_pton4_addr P "10.1.2" = None.
Proof. repeat split. Qed.

(** C10, amended. [SockAddr_pton] stores the inferred family in every
    call. When it returns 1 the address that [inet_pton] read is stored in
    the member of that family; when it returns anything else both address
    members are as they were. The ports are never written. *)
Theorem SockAddr_pton_payload `{Platform} (sa : SockAddr) (src : string) :
  AF_INET ≠ AF_INET6 →
  let r := SockAddr_pton sa src in
  sa_family (snd r) = inferred_family src
  ∧ sin_port (snd r) = sin_port sa ∧ sin6_port (snd r) = sin6_port sa
  ∧ (fst r = 1 →
       (sa_family (snd r) = AF_INET ∧ inet_pton4_addr src = Some (s_addr (snd r))
        ∧ s6_addr (snd r) = s6_addr sa)
       ∨ (sa_family (snd r) = AF_INET6 ∧ inet_pton6_addr src = Some (s6_addr (snd r))
          ∧ s_addr (snd r) = s_addr sa))
  ∧ (fst r ≠ 1 →
       parses src = false
       ∧ s_addr (snd r) = s_addr sa ∧ s6_addr (snd r) = s6_addr sa).
Proof.
  intros Hne r. subst r. rewrite (SockAddr_pton_unfold _ _ Hne).
  unfold inferred_family, parses.
  destruct (has_colon src).
  - destruct (inet_pton6_addr src) as [a|] eqn:E; simpl;
      (split; [done|]); (split; [done|]); (split; [done|]); split; intros Hx;
      first [ done | by right
            | split; [|done]; apply bool_decide_eq_false; by intros [? [=]] ].
  - destruct (inet_pton4_addr src) as [a|] eqn:E; simpl;
      (split; [done|]); (split; [done|]); (split; [done|]); split; intros Hx;
      first [ done | by left
            | split; [|done]; apply bool_decide_eq_false; by intros [? [=]] ].
Qed.

Lemma SockAddr_pton_payload_witness :
  let P := linux LittleEndian in
  let r := @SockAddr_pton P blank "192.0.2.1" in
  @AF_INET P ≠ @AF_INET6 P
  ∧ fst r = 1
  ∧ sa_family (snd r) = @AF_INET P
  ∧ @inet_pton4_addr P "192.0.2.1" = Some (s_addr (snd r)).
Proof.
  intros P r.
  assert (Hne : @AF_INET P ≠ @AF_INET6 P) by discriminate.
  destruct (@SockAddr_pton_payload P blank "192.0.2.1" Hne) as (_ & _ & _ & Hok & _).
  assert (H1 : fst r = 1) by reflexivity.
  split; [exact Hne|]. split; [exact H1|].
  destruct (Hok H1) as [(Hf & Hp & _) | (Hf & _ & _)].
  - split; [exact Hf | exact Hp].
  - discriminate Hf.
Defined.

(** ** getaddrinfo_unix *)

Section unix.
Context `{Platform} `{Resolver}.

Lemma bind_Done {A B} (m : M A) (k : A → M B) (w w' : world) (a : A) :
  m w = Done a w' → bind m k w = k a w'.
Proof. unfold bind. by intros ->. Qed.

Lemma calloc_Some (zero : object) (w : world) (n : nat) :
  avail w = S n →
  calloc zero w
  = Done (Some (fresh (dom (heap w))))
         (mkWorld (<[fresh (dom (heap w)) := zero]> (heap w)) n (files w) (log w)).
Proof. unfold calloc. by intros ->. Qed.

Lemma calloc_None (zero : object) (w : world) :
  avail w = O → calloc zero w = Done None w.
Proof. unfold calloc. by intros ->. Qed.

Lemma fresh_heap (h : gmap ptr object) : h !! fresh (dom h) = None.
Proof. apply not_elem_of_dom, is_fresh. Qed.

Lemma update_addrinfo_Done (p : ptr) (a : addrinfo) (f : addrinfo → addrinfo) (w : world) :
  heap w !! p = Some (Obj_addrinfo a) →
  update_addrinfo (Some p) f w
  = Done tt (mkWorld (<[p := Obj_addrinfo (f a)]> (heap w)) (avail w) (files w) (log w)).
Proof. unfold update_addrinfo. by intros ->. Qed.

Lemma update_sockaddr_un_Done (p : ptr) (u : sockaddr_un) (f : sockaddr_un → sockaddr_un)
    (w : world) :
  heap w !! p = Some (Obj_sockaddr_un u) →
  update_sockaddr_un (Some p) f w
  = Done tt (mkWorld (<[p := Obj_sockaddr_un (f u)]> (heap w)) (avail w) (files w) (log w)).
Proof. unfold update_sockaddr_un. by intros ->. Qed.

Lemma load_addrinfo_Done (p : ptr) (a : addrinfo) (w : world) :
  heap w !! p = Some (Obj_addrinfo a) → load_addrinfo (Some p) w = Done a w.
Proof. unfold load_addrinfo. by intros ->. Qed.

Lemma free_Done (p : ptr) (o : object) (w : world) :
  heap w !! p = Some o →
  free (Some p) w = Done tt (mkWorld (delete p (heap w)) (S (avail w)) (files w) (log w)).
Proof. unfold free. by intros ->. Qed.

Lemma getaddrinfo_unix_hints_family (hintsp : option addrinfo) :
  ai_family (getaddrinfo_unix_hints hintsp)
  = match hintsp with Some h => ai_family h | None => AF_UNIX end.
Proof.
  unfold getaddrinfo_unix_hints. destruct hintsp as [h|]; simpl.
  - by destruct (ai_socktype h =? 0).
  - by destruct (SOCK_STREAM =? 0).
Qed.

Ltac step lem :=
  erewrite bind_Done by (eapply lem; cbn [heap avail files log];
                         rewrite ?lookup_insert_eq; try reflexivity; eauto);
  cbv beta iota; cbn [heap avail files log].

(** First allocation fails: EAI_MEMORY, and the world is as before. *)
Lemma getaddrinfo_unix_no_memory (path : option string) (hintsp : option addrinfo)
    (result : option ptr) (w : world) :
  ai_family (getaddrinfo_unix_hints hintsp) = AF_UNIX →
  avail w = O →
  getaddrinfo_unix path hintsp result w = Done (EAI_MEMORY, result) w.
Proof.
  intros Hfam Hav. unfold getaddrinfo_unix. cbv zeta.
  rewrite Hfam, Z.eqb_refl. cbn [negb].
  step calloc_None. reflexivity.
Qed.

(** Second allocation fails: the test that follows looks at [aip], so the
    call goes on and writes through the NULL [unp]. *)
Lemma getaddrinfo_unix_second_calloc (path : option string) (hintsp : option addrinfo)
    (result : option ptr) (w : world) :
  ai_family (getaddrinfo_unix_hints hintsp) = AF_UNIX →
  avail w = 1%nat →
  getaddrinfo_unix path hintsp result w = Crash.
Proof.
  intros Hfam Hav. unfold getaddrinfo_unix. cbv zeta.
  rewrite Hfam, Z.eqb_refl. cbn [negb].
  step calloc_Some. step update_addrinfo_Done. step calloc_None.
  reflexivity.
Qed.

Lemma getaddrinfo_unix_too_long (path : string) (hintsp : option addrinfo)
    (result : option ptr) (w : world) (n : nat) :
  ai_family (getaddrinfo_unix_hints hintsp) = AF_UNIX →
  sizeof_sun_path <= Z.of_nat (String.length path) →
  avail w = S (S n) →
  ∃ aip unp : ptr,
    heap w !! aip = None ∧ heap w !! unp = None ∧ aip ≠ unp
    ∧ getaddrinfo_unix (Some path) hintsp result w
      = Done (EAI_SERVICE, Some aip)
          (mkWorld
             (<[aip := Obj_addrinfo (unix_node hintsp (Some unp))]>
                (<[unp := Obj_sockaddr_un
                            (unix_addr (repeat NUL (Z.to_nat sizeof_sun_path)))]>
                   (heap w)))
             n (files w) (log w)).
Proof.
  intros Hfam Hlen Hav.
  set (p1 := fresh (dom (heap w))).
  set (h1 := <[p1 := Obj_addrinfo
                 (mkAddrinfo 0 AF_UNIX (ai_socktype (getaddrinfo_unix_hints hintsp))
                    (ai_protocol (getaddrinfo_unix_hints hintsp)) 0 None None None)]> (heap w)).
  set (p2 := fresh (dom h1)).
  assert (Hp1 : heap w !! p1 = None) by apply fresh_heap.
  assert (Hp2 : h1 !! p2 = None) by apply fresh_heap.
  assert (Hne : p1 ≠ p2).
  { intros E. rewrite <- E in Hp2. unfold h1 in Hp2. by rewrite lookup_insert_eq in Hp2. }
  exists p1, p2. split; [done|]. split.
  { unfold h1 in Hp2. by rewrite lookup_insert_ne in Hp2. }
  split; [done|].
  unfold getaddrinfo_unix. cbv zeta.
  rewrite Hfam, Z.eqb_refl. cbn [negb].
  step calloc_Some. fold p1.
  step update_addrinfo_Done. rewrite insert_insert_eq. cbn [zero_addrinfo ai_flags ai_addrlen ai_addr]. fold h1.
  step calloc_Some. fold p2.
  step update_sockaddr_un_Done. rewrite insert_insert_eq.
  erewrite bind_Done by
    (eapply update_addrinfo_Done; cbn [heap];
     rewrite lookup_insert_ne by done; unfold h1; apply lookup_insert_eq).
  cbv beta iota; cbn [heap avail files log].
  unfold strlen. erewrite bind_Done by reflexivity. cbv beta.
  replace (Z.of_nat (String.length path) >=? sizeof_sun_path) with true
    by (symmetry; apply Z.geb_le; lia).
  unfold ret. f_equal. f_equal.
  unfold h1, unix_node, unix_addr, zero_sockaddr_un. cbn [ai_flags ai_family ai_socktype ai_protocol ai_canonname ai_next sun_path].
  rewrite (insert_insert_ne _ p2 p1) by done.
  by rewrite insert_insert_eq.
Qed.

Lemma freeaddrinfo2_single (aip unp : ptr) (node : addrinfo) (u : sockaddr_un) (w : world) :
  heap w !! aip = None → heap w !! unp = None → aip ≠ unp →
  ai_addr node = Some unp → ai_next node = None →
  freeaddrinfo2 AF_UNIX (Some aip)
    (mkWorld (<[aip := Obj_addrinfo node]> (<[unp := Obj_sockaddr_un u]> (heap w)))
       (avail w) (files w) (log w))
  = Done tt (mkWorld (heap w) (S (S (avail w))) (files w) (log w)).
Proof.
  intros Ha Hu Hne Haddr Hnext.
  unfold freeaddrinfo2. rewrite Z.eqb_refl. cbn [heap].
  rewrite map_size_insert_None by (by rewrite lookup_insert_ne).
  cbn [freeaddrinfo2_loop].
  step load_addrinfo_Done.
  rewrite Haddr, Hnext.
  erewrite bind_Done by
    (eapply free_Done; cbn [heap]; rewrite lookup_insert_ne by done; apply lookup_insert_eq).
  cbv beta iota; cbn [heap avail files log].
  erewrite bind_Done by
    (eapply free_Done; cbn [heap]; rewrite lookup_delete_ne by done; apply lookup_insert_eq).
  cbv beta iota; cbn [heap avail files log].
  assert (Hloop : ∀ k w', freeaddrinfo2_loop k None w' = Done tt w') by (by intros [|]).
  rewrite Hloop. f_equal. f_equal.
  rewrite delete_insert_ne by done. rewrite delete_insert_eq.
  rewrite delete_insert_eq. rewrite (delete_id _ unp) by done. by apply delete_id.
Qed.

End unix.

(** A request in passive mode that succeeds: one node, the path stored in
    [sun_path], the file at the path unlinked. *)
Example getaddrinfo_unix_passive :
  match @getaddrinfo_unix (linux LittleEndian) (Some "/tmp/.s.PGSQL.5432"%string)
          (Some (unix_hints 1)) None
          (mkWorld ∅ 2 {["/tmp/.s.PGSQL.5432"%string]} []) with
  | Done (rc, result) w =>
      rc = 0 ∧ result = Some 0%nat ∧ size (heap w) = 2%nat ∧ files w = ∅
      ∧ (u ← heap w !! 1%nat;
         match u with
         | Obj_sockaddr_un u => string_of_list_ascii <$> cstring (sun_path u)
         | Obj_addrinfo _ => None
         end) = Some "/tmp/.s.PGSQL.5432"%string
  | Crash => False
  end.
Proof. vm_compute. repeat split. Qed.

(** C5, as the claim states it, fails: on Linux a path of 108 characters
    makes [getaddrinfo_unix] return EAI_SERVICE with the node and the
    address buffer allocated, [*result] pointing at the node, and no
    allocation left of the two the process could obtain. *)
Lemma getaddrinfo_unix_long_path_allocates :
  match @getaddrinfo_unix (linux LittleEndian) (Some long_path) (Some (unix_hints 0))
          None (mkWorld ∅ 2 ∅ []) with
  | Done (rc, result) w =>
      String.length long_path = 108%nat
      ∧ rc = @EAI_SERVICE (linux LittleEndian) ∧ result = Some 0%nat
      ∧ size (heap w) = 2%nat ∧ avail w = 0%nat
      ∧ is_Some (heap w !! 0%nat) ∧ is_Some (heap w !! 1%nat)
  | Crash => False
  end.
Proof. vm_compute. repeat split; eauto. Qed.

(** C5, amended. For a request with hints of family AF_UNIX and a path
    whose length is at least the size of [sun_path], made while two
    allocations are available, [getaddrinfo2] returns EAI_SERVICE; the
    length is tested before [strcpy], so [sun_path] holds no character of
    the path and no file is unlinked; the node and the address buffer the
    call has allocated stay allocated, [*result] points at the node, and
    [freeaddrinfo2] with AF_UNIX releases both and restores the heap. *)
Theorem getaddrinfo2_path_too_long `{Platform} `{Resolver}
    (hostname : option string) (path : string) (hints : addrinfo)
    (result : option ptr) (w : world) (n : nat) :
  ai_family hints = AF_UNIX →
  sizeof_sun_path <= Z.of_nat (String.length path) →
  avail w = S (S n) →
  ∃ (aip unp : ptr) (w' : world),
    heap w !! aip = None ∧ heap w !! unp = None ∧ aip ≠ unp
    ∧ getaddrinfo2 hostname (Some path) (Some hints) result w
      = Done (EAI_SERVICE, Some aip) w'
    ∧ heap w'
      = <[aip := Obj_addrinfo (unix_node (Some hints) (Some unp))]>
          (<[unp := Obj_sockaddr_un (unix_addr (repeat NUL (Z.to_nat sizeof_sun_path)))]>
             (heap w))
    ∧ avail w' = n ∧ files w' = files w ∧ log w' = log w
    ∧ freeaddrinfo2 AF_UNIX (Some aip) w' = Done tt w.
Proof.
  intros Hfam Hlen Hav.
  assert (Hfam' : ai_family (getaddrinfo_unix_hints (Some hints)) = AF_UNIX)
    by (by rewrite getaddrinfo_unix_hints_family).
  destruct (getaddrinfo_unix_too_long path (Some hints) result w n Hfam' Hlen Hav)
    as (aip & unp & Ha & Hu & Hne & Hrun).
  eexists aip, unp, _. split; [done|]. split; [done|]. split; [done|].
  split.
  { unfold getaddrinfo2. rewrite Hfam, Z.eqb_refl. exact Hrun. }
  cbn [heap avail files log]. repeat (split; [reflexivity|]).
  pose proof (freeaddrinfo2_single aip unp (unix_node (Some hints) (Some unp))
    (unix_addr (repeat NUL (Z.to_nat sizeof_sun_path)))
    (mkWorld (heap w) n (files w) (log w)) Ha Hu Hne eq_refl eq_refl) as Hfree.
  cbn [heap avail files log] in Hfree. rewrite Hfree.
  destruct w as [h a f l]. cbn in Hav |- *. by rewrite Hav.
Qed.

Lemma getaddrinfo2_path_too_long_witness :
  let P := linux LittleEndian in
  ai_family (unix_hints 1) = @AF_UNIX P
  ∧ @sizeof_sun_path P <= Z.of_nat (String.length long_path)
  ∧ ∃ (aip unp : ptr) (w' : world),
      @getaddrinfo2 P no_resolver None (Some long_path) (Some (unix_hints 1)) None
        (mkWorld ∅ 2 {["/tmp/.s.PGSQL.5432"%string]} [])
      = Done (@EAI_SERVICE P, Some aip) w'
      ∧ files w' = {["/tmp/.s.PGSQL.5432"%string]}
      ∧ heap w' !! unp
        = Some (Obj_sockaddr_un (@unix_addr P (repeat NUL 108))).
Proof.
  intros P.
  assert (Hfam : ai_family (unix_hints 1) = @AF_UNIX P) by reflexivity.
  assert (Hlen : @sizeof_sun_path P <= Z.of_nat (String.length long_path))
    by (vm_compute; discriminate).
  split; [exact Hfam|]. split; [exact Hlen|].
  destruct (@getaddrinfo2_path_too_long P no_resolver None long_path (unix_hints 1) None
    (mkWorld ∅ 2 {["/tmp/.s.PGSQL.5432"%string]} []) 0 Hfam Hlen eq_refl)
    as (aip & unp & w' & _ & _ & Hne & Hrun & Hheap & _ & Hfiles & _).
  exists aip, unp, w'. split; [exact Hrun|]. split; [exact Hfiles|].
  rewrite Hheap. rewrite lookup_insert_ne by exact Hne. apply lookup_insert_eq.
Defined.

(** C6. On Linux, with one allocation available, [getaddrinfo_unix] for
    "/tmp/.s.PGSQL.5432" obtains the node, fails to obtain the address
    buffer and ends on an invalid access instead of returning EAI_MEMORY;
    with no allocation available it returns EAI_MEMORY. *)
Theorem getaddrinfo_unix_second_allocation_fails :
  @getaddrinfo_unix (linux LittleEndian) (Some "/tmp/.s.PGSQL.5432"%string)
    (Some (unix_hints 0)) None (mkWorld ∅ 1 ∅ []) = Crash
  ∧ @getaddrinfo_unix (linux LittleEndian) (Some "/tmp/.s.PGSQL.5432"%string)
      (Some (unix_hints 0)) None (mkWorld ∅ 0 ∅ [])
    = Done (@EAI_MEMORY (linux LittleEndian), None) (mkWorld ∅ 0 ∅ []).
Proof.
  split.
  - by apply (@getaddrinfo_unix_second_calloc (linux LittleEndian)).
  - by apply (@getaddrinfo_unix_no_memory (linux LittleEndian)).
Qed.

(** ** SockAddr_ntop *)

Lemma poke_Some (m : list ascii) (i : nat) (c : ascii) :
  (i < List.length m)%nat → poke m i c = Some (<[i:=c]> m).
Proof. intros Hi. unfold poke. by rewrite decide_True. Qed.

Lemma store_Some (cs m : list ascii) (off : nat) :
  (off + List.length cs ≤ List.length m)%nat →
  store m off cs = Some (take off m ++ cs ++ drop (off + List.length cs) m).
Proof.
  revert m off. induction cs as [|c cs IH]; intros m off Hlen; simpl in *.
  - by rewrite Nat.add_0_r, take_drop.
  - rewrite poke_Some by lia. simpl.
    rewrite IH by (rewrite length_insert; lia). f_equal.
    rewrite drop_insert_lt by lia.
    replace (S off + List.length cs)%nat with (off + S (List.length cs))%nat by lia.
    rewrite (take_S_r _ _ c) by (apply list_lookup_insert_eq; lia).
    rewrite take_insert_ge by lia. by rewrite <- app_assoc.
Qed.

Lemma cstring_app (cs rest : list ascii) :
  ∃ s, cstring (cs ++ NUL :: rest) = Some s
       ∧ (List.length s ≤ List.length cs)%nat
       ∧ (NUL ∉ cs → s = cs).
Proof.
  induction cs as [|c cs (s & Hs & Hlen & Hid)]; simpl.
  - exists []. split; [done|]. split; [simpl; lia|done].
  - destruct (decide (c = NUL)) as [->|Hc].
    + exists []. split; [done|]. split; [simpl; lia|].
      intros Hn. exfalso. apply Hn. left.
    + exists (c :: s). rewrite Hs. split; [done|]. split; [simpl; lia|].
      intros Hn. f_equal. apply Hid. intros Hin. apply Hn. by right.
Qed.

Lemma length_list_ascii_of_string (s : string) :
  List.length (list_ascii_of_string s) = String.length s.
Proof. induction s; simpl; congruence. Qed.

Lemma within_capacity_prefix (dst : list ascii) (cs : list ascii) (cnt : Z) :
  Z.of_nat (List.length cs) < cnt <= Z.of_nat (List.length dst) →
  within_capacity dst (cs ++ NUL :: drop (S (List.length cs)) dst) cnt.
Proof.
  intros Hlen. unfold within_capacity. split; [|split].
  - rewrite length_app. simpl. rewrite length_drop. lia.
  - replace (cs ++ NUL :: drop (S (List.length cs)) dst)
      with ((cs ++ [NUL]) ++ drop (S (List.length cs)) dst)
      by (by rewrite <- app_assoc).
    rewrite drop_app_ge by (rewrite length_app; simpl; lia).
    rewrite drop_drop, length_app. simpl. f_equal. lia.
  - exists (List.length cs). split; [lia|].
    by rewrite lookup_app_r, Nat.sub_diag by lia.
Qed.

Lemma within_capacity_text (dst : list ascii) (text : string) (cnt : Z) :
  Z.of_nat (String.length text) < cnt <= Z.of_nat (List.length dst) →
  within_capacity dst
    (list_ascii_of_string text ++ NUL :: drop (S (String.length text)) dst) cnt.
Proof.
  intros Hlen. rewrite <- (length_list_ascii_of_string text) in *.
  by apply within_capacity_prefix.
Qed.

Lemma inet_ntop_fits (text : string) (dst : list ascii) (cnt : Z) :
  Z.of_nat (String.length text) < cnt <= Z.of_nat (List.length dst) →
  inet_ntop text dst cnt
  = Some (true, list_ascii_of_string text
                ++ NUL :: drop (S (String.length text)) dst).
Proof.
  intros Hlen. unfold inet_ntop.
  assert (Hl : List.length (list_ascii_of_string text) = String.length text).
  { clear. induction text; simpl; congruence. }
  rewrite Hl. replace (Z.of_nat (String.length text) <? cnt) with true
    by (symmetry; apply Z.ltb_lt; lia).
  rewrite store_Some. 2:{ rewrite length_app, Hl; simpl. lia. }
  simpl. rewrite length_app, Hl. simpl.
  rewrite <- app_assoc. simpl. by rewrite Nat.add_1_r.
Qed.

Lemma inet_ntop_too_small (text : string) (dst : list ascii) (cnt : Z) :
  cnt <= Z.of_nat (String.length text) →
  inet_ntop text dst cnt = Some (false, dst).
Proof.
  intros Hlen. unfold inet_ntop.
  assert (Hl : List.length (list_ascii_of_string text) = String.length text).
  { clear. induction text; simpl; congruence. }
  rewrite Hl. by replace (Z.of_nat (String.length text) <? cnt) with false
    by (symmetry; apply Z.ltb_ge; lia).
Qed.

(** What [to_socklen_t] leaves of a capacity is a 32-bit number that is
    not larger, and the capacity itself when that is a 32-bit number. *)
Lemma to_socklen_t_bounds (cnt : Z) :
  0 <= to_socklen_t cnt <= Z.max 0 cnt ∧ to_socklen_t cnt < 2^32.
Proof.
  unfold to_socklen_t.
  pose proof (Z.mod_pos_bound (Z.max 0 cnt) (2^32) ltac:(lia)).
  pose proof (Z.mod_le (Z.max 0 cnt) (2^32) ltac:(lia) ltac:(lia)). lia.
Qed.

Lemma to_socklen_t_small (cnt : Z) : 0 <= cnt < 2^32 → to_socklen_t cnt = cnt.
Proof. intros Hc. unfold to_socklen_t. rewrite Z.max_r by lia. by apply Z.mod_small. Qed.

Lemma within_capacity_mono (dst m : list ascii) (c cnt : Z) :
  c <= cnt → within_capacity dst m c → within_capacity dst m cnt.
Proof.
  intros Hle (Hlen & Hdrop & k & Hk & Hnul). split; [done|]. split.
  - replace (Z.to_nat cnt) with (Z.to_nat c + (Z.to_nat cnt - Z.to_nat c))%nat by lia.
    by rewrite <- !drop_drop, Hdrop.
  - exists k. split; [lia|done].
Qed.

(** Whether the text fits or not, [inet_ntop] changes nothing at or beyond
    the size it is given. *)
Lemma inet_ntop_below (text : string) (dst : list ascii) (c : Z) :
  c <= Z.of_nat (List.length dst) →
  ∃ r m, inet_ntop text dst c = Some (r, m)
         ∧ List.length m = List.length dst
         ∧ drop (Z.to_nat c) m = drop (Z.to_nat c) dst.
Proof.
  intros Hc. destruct (Z.lt_ge_cases (Z.of_nat (String.length text)) c).
  - rewrite inet_ntop_fits by lia. eexists _, _. split; [done|].
    by destruct (within_capacity_text dst text c) as (L & D & _); [lia|].
  - rewrite inet_ntop_too_small by lia. by eexists _, _.
Qed.

Section ntop.
Context `{Platform}.

Lemma SockAddr_ntop_other (sa : SockAddr) (dst : list ascii) (cnt v4conv : Z) :
  sa_family sa ≠ AF_INET → sa_family sa ≠ AF_INET6 →
  0 < cnt <= Z.of_nat (List.length dst) →
  SockAddr_ntop sa dst cnt v4conv = Some (NUL :: drop 1 dst).
Proof.
  intros H4 H6 Hcnt. unfold SockAddr_ntop.
  apply Z.eqb_neq in H4, H6. rewrite H4, H6.
  rewrite poke_Some by lia.
  destruct dst as [|c dst]; [simpl in Hcnt; lia|]. reflexivity.
Qed.

Lemma SockAddr_ntop_inet (sa : SockAddr) (dst : list ascii) (cnt v4conv : Z) :
  sa_family sa = AF_INET →
  Z.of_nat (String.length (inet_ntop4_text (s_addr sa))) < to_socklen_t cnt →
  cnt <= Z.of_nat (List.length dst) →
  SockAddr_ntop sa dst cnt v4conv
  = Some (list_ascii_of_string (inet_ntop4_text (s_addr sa))
          ++ NUL :: drop (S (String.length (inet_ntop4_text (s_addr sa)))) dst).
Proof.
  intros H4 Hlen Hcnt. unfold SockAddr_ntop. rewrite H4, Z.eqb_refl.
  pose proof (to_socklen_t_bounds cnt).
  by rewrite inet_ntop_fits by lia.
Qed.

Lemma SockAddr_ntop_inet6 (sa : SockAddr) (dst : list ascii) (cnt v4conv : Z) :
  AF_INET ≠ AF_INET6 → sa_family sa = AF_INET6 →
  negb (v4conv =? 0) && IN6_IS_ADDR_V4MAPPED (s6_addr sa) = false →
  Z.of_nat (String.length (inet_ntop6_text (s6_addr sa))) < to_socklen_t cnt →
  cnt <= Z.of_nat (List.length dst) →
  SockAddr_ntop sa dst cnt v4conv
  = Some (list_ascii_of_string (inet_ntop6_text (s6_addr sa))
          ++ NUL :: drop (S (String.length (inet_ntop6_text (s6_addr sa)))) dst).
Proof.
  intros Hne H6 Hconv Hlen Hcnt. unfold SockAddr_ntop. rewrite H6.
  destruct (Z.eqb_spec AF_INET6 AF_INET); [congruence|]. rewrite Z.eqb_refl.
  pose proof (to_socklen_t_bounds cnt).
  rewrite inet_ntop_fits by lia. simpl. by rewrite Hconv.
Qed.

Lemma SockAddr_ntop_inet6_unmap (sa : SockAddr) (dst : list ascii) (cnt v4conv : Z) :
  AF_INET ≠ AF_INET6 → sa_family sa = AF_INET6 →
  negb (v4conv =? 0) && IN6_IS_ADDR_V4MAPPED (s6_addr sa) = true →
  Z.of_nat (String.length (inet_ntop6_text (s6_addr sa))) < to_socklen_t cnt →
  cnt <= Z.of_nat (List.length dst) →
  (7 ≤ String.length (inet_ntop6_text (s6_addr sa)))%nat →
  ∃ s, (List.length s + 7 ≤ String.length (inet_ntop6_text (s6_addr sa)))%nat
       ∧ (NUL ∉ list_ascii_of_string (inet_ntop6_text (s6_addr sa)) →
          s = drop 7 (list_ascii_of_string (inet_ntop6_text (s6_addr sa))))
       ∧ SockAddr_ntop sa dst cnt v4conv
         = Some (s ++ NUL :: drop (S (List.length s))
                         (list_ascii_of_string (inet_ntop6_text (s6_addr sa))
                          ++ NUL :: drop (S (String.length (inet_ntop6_text (s6_addr sa)))) dst)).
Proof.
  intros Hne H6 Hconv Hlen Hcnt H7. unfold SockAddr_ntop. rewrite H6.
  destruct (Z.eqb_spec AF_INET6 AF_INET); [congruence|]. rewrite Z.eqb_refl.
  pose proof (to_socklen_t_bounds cnt) as Hb.
  rewrite inet_ntop_fits by lia. simpl. rewrite Hconv.
  set (text := list_ascii_of_string (inet_ntop6_text (s6_addr sa))).
  set (rest := drop (S (String.length (inet_ntop6_text (s6_addr sa)))) dst).
  assert (Hl : List.length text = String.length (inet_ntop6_text (s6_addr sa)))
    by apply length_list_ascii_of_string.
  unfold strcpy_within.
  rewrite drop_app_le by lia.
  destruct (cstring_app (drop 7 text) rest) as (s & Hs & Hlens & Hid).
  rewrite length_drop in Hlens.
  exists s. split; [lia|]. split.
  { intros Hn. apply Hid. intros Hin. apply Hn.
    apply list_elem_of_lookup in Hin as [i Hi]. rewrite lookup_drop in Hi.
    apply list_elem_of_lookup. eauto. }
  rewrite Hs. simpl.
  rewrite store_Some.
  - simpl. rewrite <- app_assoc. simpl. rewrite length_app. simpl.
    by rewrite Nat.add_1_r.
  - rewrite !length_app. simpl. unfold rest. rewrite length_drop. lia.
Qed.

(** A capacity that the text does not fit: nothing is stored, and nothing
    tells the caller. *)
Lemma SockAddr_ntop_inet_too_small (sa : SockAddr) (dst : list ascii) (cnt v4conv : Z) :
  sa_family sa = AF_INET →
  cnt <= Z.of_nat (String.length (inet_ntop4_text (s_addr sa))) →
  SockAddr_ntop sa dst cnt v4conv = Some dst.
Proof.
  intros H4 Hcnt. unfold SockAddr_ntop. rewrite H4, Z.eqb_refl.
  pose proof (to_socklen_t_bounds cnt).
  by rewrite inet_ntop_too_small by lia.
Qed.

(** Outside the unmapping of an IPv4-mapped address, and whether the text
    fits or not, nothing changes at or beyond the capacity. *)
Lemma SockAddr_ntop_below (sa : SockAddr) (dst : list ascii) (cnt v4conv : Z) :
  cnt <= Z.of_nat (List.length dst) →
  (sa_family sa ≠ AF_INET → sa_family sa ≠ AF_INET6 → 0 < cnt) →
  (sa_family sa ≠ AF_INET → sa_family sa = AF_INET6 →
   negb (v4conv =? 0) && IN6_IS_ADDR_V4MAPPED (s6_addr sa) = false) →
  ∃ m, SockAddr_ntop sa dst cnt v4conv = Some m
       ∧ List.length m = List.length dst
       ∧ drop (Z.to_nat cnt) m = drop (Z.to_nat cnt) dst.
Proof.
  intros Hcnt Hother Hconv.
  pose proof (to_socklen_t_bounds cnt) as Hb.
  assert (Hmore : ∀ m : list ascii,
            drop (Z.to_nat (to_socklen_t cnt)) m = drop (Z.to_nat (to_socklen_t cnt)) dst →
            drop (Z.to_nat cnt) m = drop (Z.to_nat cnt) dst).
  { intros m Hd.
    replace (Z.to_nat cnt)
      with (Z.to_nat (to_socklen_t cnt) + (Z.to_nat cnt - Z.to_nat (to_socklen_t cnt)))%nat
      by lia.
    by rewrite <- !drop_drop, Hd. }
  unfold SockAddr_ntop.
  destruct (Z.eqb_spec (sa_family sa) AF_INET) as [E4|N4].
  - destruct (inet_ntop_below (inet_ntop4_text (s_addr sa)) dst (to_socklen_t cnt))
      as (r & m & -> & Hl & Hd); [lia|].
    exists m. simpl. auto.
  - destruct (Z.eqb_spec (sa_family sa) AF_INET6) as [E6|N6].
    + destruct (inet_ntop_below (inet_ntop6_text (s6_addr sa)) dst (to_socklen_t cnt))
        as (r & m & -> & Hl & Hd); [lia|].
      simpl. rewrite (Hconv N4 E6). exists m. auto.
    + specialize (Hother N4 N6). rewrite poke_Some by lia.
      eexists. split; [done|]. split; [by rewrite length_insert|].
      destruct dst as [|c dst]; [simpl in Hcnt; lia|].
      destruct (Z.to_nat cnt) as [|k] eqn:Ek; [lia|]. reflexivity.
Qed.

End ntop.

(** The display of an IPv4-mapped address, with and without unmapping. *)
Example SockAddr_ntop_mapped_display :
  @ntop_text (linux LittleEndian) (@pton_ok (linux LittleEndian) "::ffff:192.0.2.1") 1
  = Some "192.0.2.1"
  ∧ @ntop_text (linux LittleEndian) (@pton_ok (linux LittleEndian) "::ffff:192.0.2.1") 0
    = Some "::ffff:192.0.2.1".
Proof. split; reflexivity. Qed.

(** C7, as the claim states it, fails. With capacity 0 and an unrecognized
    family the terminator is stored in the first character, which lies
    past the capacity. With capacity 4 and the address 10.1.2.3 the text
    does not fit, [inet_ntop] stores nothing, its result is not looked at,
    and the four characters are left without a terminator. With capacity
    8, [v4conv] set and the address ::ffff:192.0.2.1 the text does not fit
    either, and [strcpy(dst, dst + 7)] copies what the destination held
    from its eighth character on: thirteen characters and a terminator,
    which is stored in character 13, past the capacity. *)
Lemma SockAddr_ntop_small_capacity :
  @SockAddr_ntop (linux LittleEndian) blank ["X"%char] 0 0 = Some [NUL]
  ∧ @SockAddr_ntop (linux LittleEndian) (@pton_ok (linux LittleEndian) "10.1.2.3")
      (list_ascii_of_string "XXXXXXXX") 4 0
    = Some (list_ascii_of_string "XXXXXXXX")
  ∧ @SockAddr_ntop (linux LittleEndian) (@pton_ok (linux LittleEndian) "::ffff:192.0.2.1")
      (list_ascii_of_string "XXXXXXXXXXXXXXXXXXXX" ++ [NUL]) 8 1
    = Some (list_ascii_of_string "XXXXXXXXXXXXX" ++ NUL
            :: list_ascii_of_string "XXXXXX" ++ [NUL]).
Proof. repeat split; reflexivity. Qed.

(** A capacity of at least one character that is within the destination
    and, converted to [socklen_t], larger than the length of the text: no
    character at or beyond the capacity changes, a terminator lies within
    it, and an unrecognized family leaves the empty string. *)
Lemma SockAddr_ntop_within `{Platform} (sa : SockAddr) (dst : list ascii)
    (cnt v4conv : Z) :
  AF_INET ≠ AF_INET6 →
  0 < cnt <= Z.of_nat (List.length dst) →
  (sa_family sa = AF_INET →
     Z.of_nat (String.length (inet_ntop4_text (s_addr sa))) < to_socklen_t cnt) →
  (sa_family sa = AF_INET6 →
     Z.of_nat (String.length (inet_ntop6_text (s6_addr sa))) < to_socklen_t cnt
     ∧ (negb (v4conv =? 0) && IN6_IS_ADDR_V4MAPPED (s6_addr sa) = true →
        (7 ≤ String.length (inet_ntop6_text (s6_addr sa)))%nat)) →
  ∃ m, SockAddr_ntop sa dst cnt v4conv = Some m
       ∧ within_capacity dst m cnt
       ∧ (sa_family sa ≠ AF_INET → sa_family sa ≠ AF_INET6 → cstring m = Some []).
Proof.
  intros Hne Hcnt Hlen4 Hlen6.
  pose proof (to_socklen_t_bounds cnt) as Hb.
  destruct (decide (sa_family sa = AF_INET)) as [E4|N4].
  { specialize (Hlen4 E4). eexists. split; [by apply SockAddr_ntop_inet; [| |lia]|].
    split; [apply within_capacity_text; lia|].
    intros; contradiction. }
  destruct (decide (sa_family sa = AF_INET6)) as [E6|N6].
  { destruct (Hlen6 E6) as [Hlen H7].
    destruct (negb (v4conv =? 0) && IN6_IS_ADDR_V4MAPPED (s6_addr sa)) eqn:Hconv.
    - destruct (SockAddr_ntop_inet6_unmap sa dst cnt v4conv Hne E6 Hconv
                  Hlen ltac:(lia) (H7 eq_refl)) as (s & Hs & _ & Hrun).
      eexists. split; [exact Hrun|]. split; [|intros; contradiction].
      destruct (within_capacity_text dst (inet_ntop6_text (s6_addr sa)) cnt)
        as (L1 & D1 & _); [lia|].
      destruct (within_capacity_prefix
        (list_ascii_of_string (inet_ntop6_text (s6_addr sa))
         ++ NUL :: drop (S (String.length (inet_ntop6_text (s6_addr sa)))) dst) s cnt)
        as (L2 & D2 & T2); [rewrite L1; lia|].
      split; [congruence|]. split; [congruence|exact T2].
    - eexists. split; [by apply SockAddr_ntop_inet6; [| | | |lia]|].
      split; [apply within_capacity_text; lia|].
      intros; contradiction. }
  eexists. split; [by apply SockAddr_ntop_other|].
  split; [|done].
  pose proof (within_capacity_prefix dst [] cnt) as Hw. simpl in Hw.
  apply Hw. lia.
Qed.


(** ** Text conversions of libc: IPv4 *)

Lemma gtb_false (a b : Z) : a <= b → (a >? b) = false.
Proof. intros. rewrite Z.gtb_ltb. apply Z.ltb_ge. lia. Qed.

Lemma eqb_false (a b : Z) : a ≠ b → (a =? b) = false.
Proof. apply Z.eqb_neq. Qed.

Lemma code_char (x : Z) : 0 <= x < 256 → libc.code (libc.char x) = x.
Proof.
  intros Hx. unfold libc.code, libc.char.
  rewrite N_ascii_embedding by lia. lia.
Qed.

Lemma inet_pton4_loop_digit (d : Z) (rest : list ascii) (done : list Z) (cur : Z)
    (saw_digit : bool) (octets : Z) :
  0 <= d <= 9 →
  libc.inet_pton4_loop (libc.char (48 + d) :: rest) done cur saw_digit octets
  = if saw_digit && (cur =? 0) then None
    else if cur * 10 + d >? 255 then None
    else if negb saw_digit then
      if octets + 1 >? 4 then None
      else libc.inet_pton4_loop rest done (cur * 10 + d) true (octets + 1)
    else libc.inet_pton4_loop rest done (cur * 10 + d) saw_digit octets.
Proof.
  intros Hd. cbn [libc.inet_pton4_loop]. rewrite code_char by lia.
  replace (48 <=? 48 + d) with true by (symmetry; apply Z.leb_le; lia).
  replace (48 + d <=? 57) with true by (symmetry; apply Z.leb_le; lia).
  cbn [andb]. by replace (48 + d - 48) with d by lia.
Qed.

Lemma inet_pton4_loop_print_u (n : Z) (rest : list ascii) (done : list Z) (octets : Z) :
  0 <= n < 256 → octets < 4 →
  libc.inet_pton4_loop (libc.print_u n ++ rest) done 0 false octets
  = libc.inet_pton4_loop rest done n true (octets + 1).
Proof.
  intros Hn Hk. unfold libc.print_u.
  assert (Hgt : (octets + 1 >? 4) = false) by (apply gtb_false; lia).
  destruct (Z.ltb_spec n 10); [|destruct (Z.ltb_spec n 100)]; cbn [app].
  - rewrite inet_pton4_loop_digit by lia. cbn [andb negb]. rewrite Hgt.
    rewrite (gtb_false (0 * 10 + n) 255) by lia.
    by replace (0 * 10 + n) with n by lia.
  - pose proof (Z.mod_pos_bound n 10 ltac:(lia)).
    pose proof (Z.div_mod n 10 ltac:(lia)).
    assert (1 <= n / 10 <= 9) by lia.
    rewrite !inet_pton4_loop_digit by lia. cbn [andb negb]. rewrite Hgt.
    rewrite (gtb_false (0 * 10 + n / 10) 255) by lia.
    rewrite (eqb_false (0 * 10 + n / 10) 0) by lia.
    replace ((0 * 10 + n / 10) * 10 + n mod 10) with n by lia.
    by rewrite (gtb_false n 255) by lia.
  - pose proof (Z.mod_pos_bound n 10 ltac:(lia)).
    pose proof (Z.mod_pos_bound (n / 10) 10 ltac:(lia)).
    pose proof (Z.div_mod n 10 ltac:(lia)).
    pose proof (Z.div_mod (n / 10) 10 ltac:(lia)).
    assert (n / 10 / 10 = n / 100) by (rewrite Z.div_div by lia; reflexivity).
    assert (1 <= n / 100 <= 2) by lia.
    rewrite !inet_pton4_loop_digit by lia. cbn [andb negb]. rewrite Hgt.
    rewrite (gtb_false (0 * 10 + n / 100) 255) by lia.
    rewrite (eqb_false (0 * 10 + n / 100) 0) by lia.
    replace ((0 * 10 + n / 100) * 10 + n / 10 mod 10) with (n / 10) by lia.
    rewrite (gtb_false (n / 10) 255) by lia.
    rewrite (eqb_false (n / 10) 0) by lia.
    replace (n / 10 * 10 + n mod 10) with n by lia.
    by rewrite (gtb_false n 255) by lia.
Qed.

Lemma inet_pton4_loop_dot (rest : list ascii) (done : list Z) (cur octets : Z) :
  octets < 4 →
  libc.inet_pton4_loop ("."%char :: rest) done cur true octets
  = libc.inet_pton4_loop rest (done ++ [cur]) 0 false octets.
Proof.
  intros Hk. cbn. by rewrite (eqb_false octets 4) by lia.
Qed.

(** [inet_pton4] reads back what [inet_ntop4] prints. *)
Lemma inet_pton4_ntop4 (a b c d : Z) :
  0 <= a < 256 → 0 <= b < 256 → 0 <= c < 256 → 0 <= d < 256 →
  libc.inet_pton4 (libc.inet_ntop4 [a; b; c; d]) = Some [a; b; c; d].
Proof.
  intros Ha Hb Hc Hd. unfold libc.inet_pton4, libc.inet_ntop4. cbn [octet nth].
  rewrite inet_pton4_loop_print_u, inet_pton4_loop_dot by lia.
  rewrite inet_pton4_loop_print_u, inet_pton4_loop_dot by lia.
  rewrite inet_pton4_loop_print_u, inet_pton4_loop_dot by lia.
  rewrite <- (app_nil_r (libc.print_u d)).
  rewrite inet_pton4_loop_print_u by lia. reflexivity.
Qed.

Lemma print_u_chars (n : Z) :
  0 <= n < 256 →
  Forall (fun c => 48 <= libc.code c <= 57) (libc.print_u n)
  ∧ (1 ≤ List.length (libc.print_u n) ≤ 3)%nat.
Proof.
  intros Hn. unfold libc.print_u.
  pose proof (Z.mod_pos_bound n 10 ltac:(lia)).
  pose proof (Z.mod_pos_bound (n / 10) 10 ltac:(lia)).
  pose proof (Z.div_mod n 10 ltac:(lia)).
  pose proof (Z.div_mod (n / 10) 10 ltac:(lia)).
  assert (n / 10 / 10 = n / 100) by (rewrite Z.div_div by lia; reflexivity).
  destruct (Z.ltb_spec n 10); [|destruct (Z.ltb_spec n 100)];
    (split; [repeat constructor; rewrite code_char; lia | simpl; lia]).
Qed.

(** The text of an IPv4 address: digits and dots, at most fifteen. *)
Lemma inet_ntop4_chars (a b c d : Z) :
  0 <= a < 256 → 0 <= b < 256 → 0 <= c < 256 → 0 <= d < 256 →
  Forall (fun ch => 46 <= libc.code ch <= 57) (libc.inet_ntop4 [a; b; c; d])
  ∧ (7 ≤ List.length (libc.inet_ntop4 [a; b; c; d]) ≤ 15)%nat.
Proof.
  intros Ha Hb Hc Hd. unfold libc.inet_ntop4. cbn [octet nth].
  destruct (print_u_chars a Ha) as [Fa La]. destruct (print_u_chars b Hb) as [Fb Lb].
  destruct (print_u_chars c Hc) as [Fc Lc]. destruct (print_u_chars d Hd) as [Fd Ld].
  assert (Hw : ∀ l, Forall (fun c => 48 <= libc.code c <= 57) l →
               Forall (fun ch => 46 <= libc.code ch <= 57) l).
  { intros l Hl. eapply Forall_impl; [exact Hl|]. intros; simpl in *; lia. }
  assert (Hdot : 46 <= libc.code "."%char <= 57) by (vm_compute; split; congruence).
  split.
  - repeat (apply Forall_app; split; [by apply Hw|]; apply Forall_cons; split; [exact Hdot|]).
    by apply Hw.
  - rewrite !length_app. cbn [List.length]. rewrite !length_app. cbn [List.length].
    rewrite !length_app. cbn [List.length]. lia.
Qed.

Lemma store32_octets (bo : byte_order) (v : Z) :
  0 <= v < 2^32 →
  ∃ o0 o1 o2 o3,
    store32 bo v = [o0; o1; o2; o3]
    ∧ 0 <= o0 < 256 ∧ 0 <= o1 < 256 ∧ 0 <= o2 < 256 ∧ 0 <= o3 < 256
    ∧ load32 bo o0 o1 o2 o3 = v.
Proof.
  intros Hv. unfold store32, load32.
  change 255 with (Z.ones 8). rewrite !Z.land_ones, !Z.shiftr_div_pow2 by lia.
  change (2^32) with 4294967296 in Hv.
  change (2^24) with 16777216. change (2^16) with 65536. change (2^8) with 256.
  change (2^0) with 1.
  destruct bo; eexists _, _, _, _; (split; [reflexivity|]);
    repeat split; try (apply Z.mod_pos_bound; lia); Z.div_mod_to_equations; lia.
Qed.

Lemma has_colon_false (cs : list ascii) :
  Forall (fun ch => ch ≠ ":"%char) cs → has_colon (string_of_list_ascii cs) = false.
Proof.
  induction 1 as [|c cs Hc _ IH]; simpl; [done|]. by rewrite decide_False.
Qed.

Lemma has_colon_true (cs : list ascii) :
  In ":"%char cs → has_colon (string_of_list_ascii cs) = true.
Proof.
  intros Hin. apply has_colon_In. by rewrite list_ascii_of_string_of_list_ascii.
Qed.

(** On Linux, of either byte order, [inet_pton] reads back the text that
    [inet_ntop] gives for an IPv4 address; the text has no colon and no
    NUL and fits INET_ADDRSTRLEN. *)
Lemma linux_inet4 (bo : byte_order) (v : Z) :
  0 <= v < 2^32 →
  let text := @inet_ntop4_text (linux bo) v in
  (@inet_pton4_addr (linux bo) text) = Some v
  ∧ has_colon text = false
  ∧ (NUL ∉ list_ascii_of_string text)
  ∧ Z.of_nat (String.length text) < INET_ADDRSTRLEN.
Proof.
  intros Hv text. subst text. cbn [inet_ntop4_text inet_pton4_addr linux].
  destruct (store32_octets bo v Hv) as (a & b & c & d & -> & Ha & Hb & Hc & Hd & Hload).
  destruct (inet_ntop4_chars a b c d Ha Hb Hc Hd) as [Hch Hlen].
  rewrite list_ascii_of_string_of_list_ascii.
  split; [|split; [|split]].
  - rewrite inet_pton4_ntop4 by done. simpl. unfold octet. simpl. by rewrite Hload.
  - apply has_colon_false. eapply Forall_impl; [exact Hch|].
    intros ch Hr ->. vm_compute in Hr. destruct Hr as [_ Hr]. by apply Hr.
  - rewrite list_elem_of_In. intros Hin. rewrite Forall_forall in Hch.
    apply list_elem_of_In, Hch in Hin. vm_compute in Hin. destruct Hin as [Hin _]. by apply Hin.
  - rewrite <- length_list_ascii_of_string, list_ascii_of_string_of_list_ascii.
    unfold INET_ADDRSTRLEN. lia.
Qed.

(** ** Text conversions of libc: IPv6 *)

Lemma forallb_below (f : Z → bool) (n : nat) :
  forallb f (below n) = true → ∀ z, 0 <= z < Z.of_nat n → f z = true.
Proof.
  intros Hall z Hz. rewrite forallb_forall in Hall. apply Hall.
  unfold below. apply in_map_iff. exists (Z.to_nat z). split; [lia|].
  apply in_seq. lia.
Qed.

Lemma inet_pton6_loop_xdigits (cs rest curtok : list ascii) (out : list Z)
    (colonp : option nat) (saw_xdigit : bool) (val v : Z) :
  run_xdigits cs val = Some v →
  libc.inet_pton6_loop (cs ++ rest) curtok out colonp saw_xdigit val
  = libc.inet_pton6_loop rest curtok out colonp
      (match cs with [] => saw_xdigit | _ => true end) v.
Proof.
  revert saw_xdigit val. induction cs as [|c cs IH]; intros saw val Hrun.
  - simpl in *. by injection Hrun as ->.
  - cbn [run_xdigits] in Hrun. cbn [app libc.inet_pton6_loop].
    destruct (libc.index_of (libc.tolower c) libc.xdigits 0) as [d|]; [|done].
    destruct (Z.lor (Z.shiftl val 4) d >? 65535); [done|].
    rewrite (IH _ _ Hrun). by destruct cs.
Qed.

Lemma lor_shiftl (v d k : Z) :
  0 <= k → 0 <= d < 2^k → Z.lor (Z.shiftl v k) d = v * 2^k + d.
Proof.
  intros Hk Hd. rewrite <- Z.shiftl_mul_pow2 by done.
  rewrite <- Z.add_lor_land.
  assert (Hland : Z.land (Z.shiftl v k) d = 0); [|lia].
  apply Z.bits_inj'. intros n Hn. rewrite Z.land_spec, Z.bits_0.
  destruct (Z.lt_ge_cases n k).
  - by rewrite Z.shiftl_spec_low.
  - rewrite <- (Z.mod_small d (2^k)) by done.
    rewrite Z.mod_pow2_bits_high by lia. apply andb_false_r.
Qed.

Lemma index_of_xdigit (d : Z) :
  0 <= d < 16 → libc.index_of (libc.tolower (libc.xdigit d)) libc.xdigits 0 = Some d.
Proof.
  intros Hd.
  assert (Hall : forallb (fun d => bool_decide
                   (libc.index_of (libc.tolower (libc.xdigit d)) libc.xdigits 0 = Some d))
                   (below 16) = true) by (vm_compute; reflexivity).
  eapply bool_decide_eq_true, (forallb_below _ _ Hall). simpl. lia.
Qed.

Lemma run_xdigits_xdigit (d : Z) (cs : list ascii) (val : Z) :
  0 <= d < 16 → 0 <= val → val * 16 + d <= 65535 →
  run_xdigits (libc.xdigit d :: cs) val = run_xdigits cs (val * 16 + d).
Proof.
  intros Hd Hval Hle. cbn [run_xdigits]. rewrite index_of_xdigit by done.
  rewrite (lor_shiftl val d 4) by (simpl; lia). change (2^4) with 16.
  by rewrite gtb_false by lia.
Qed.

Lemma run_xdigits_print_x (w : Z) :
  0 <= w < 65536 → run_xdigits (libc.print_x w) 0 = Some w.
Proof.
  intros Hw. unfold libc.print_x.
  pose proof (Z.mod_pos_bound w 16 ltac:(lia)).
  pose proof (Z.mod_pos_bound (w / 16) 16 ltac:(lia)).
  pose proof (Z.mod_pos_bound (w / 256) 16 ltac:(lia)).
  pose proof (Z.div_mod w 16 ltac:(lia)).
  pose proof (Z.div_mod (w / 16) 16 ltac:(lia)).
  pose proof (Z.div_mod (w / 256) 16 ltac:(lia)).
  assert (w / 16 / 16 = w / 256) by (rewrite Z.div_div by lia; reflexivity).
  assert (w / 256 / 16 = w / 4096) by (rewrite Z.div_div by lia; reflexivity).
  destruct (Z.ltb_spec w 16); [|destruct (Z.ltb_spec w 256); [|destruct (Z.ltb_spec w 4096)]].
  - rewrite run_xdigits_xdigit by lia. simpl; f_equal; lia.
  - rewrite !run_xdigits_xdigit by lia. simpl; f_equal; lia.
  - rewrite !run_xdigits_xdigit by lia. simpl; f_equal; lia.
  - rewrite !run_xdigits_xdigit by lia. simpl; f_equal; lia.
Qed.

Lemma run_xdigits_print_u (n : Z) :
  0 <= n < 256 → is_Some (run_xdigits (libc.print_u n) 0).
Proof.
  intros Hn.
  assert (Hall : forallb (fun n => bool_decide (is_Some (run_xdigits (libc.print_u n) 0)))
                   (below 256) = true) by (vm_compute; reflexivity).
  eapply bool_decide_eq_true, (forallb_below _ _ Hall). lia.
Qed.

Lemma word_octets (x y : Z) :
  0 <= x < 256 → 0 <= y < 256 →
  let w := Z.lor (Z.shiftl x 8) y in
  0 <= w < 65536 ∧ group_hi w = x ∧ group_lo w = y
  ∧ (w = 0 → x = 0 ∧ y = 0) ∧ (w = 65535 → x = 255 ∧ y = 255).
Proof.
  intros Hx Hy w. subst w. unfold group_hi, group_lo.
  rewrite (lor_shiftl x y 8) by (simpl; lia). change (2^8) with 256.
  change 255 with (Z.ones 8). rewrite !Z.land_ones, Z.shiftr_div_pow2 by lia.
  change (2^8) with 256. change (Z.ones 8) with 255.
  repeat split; intros; Z.div_mod_to_equations; lia.
Qed.

Lemma print_x_head (w : Z) :
  0 <= w < 65536 →
  ∃ c cs, libc.print_x w = c :: cs ∧ c ≠ ":"%char.
Proof.
  intros Hw. pose proof (run_xdigits_print_x w Hw) as Hrun.
  destruct (libc.print_x w) as [|c cs] eqn:E.
  - unfold libc.print_x in E. by repeat destruct (_ <? _).
  - exists c, cs. split; [done|]. intros ->. discriminate Hrun.
Qed.

Lemma print_x_chars (w : Z) :
  0 <= w < 65536 →
  Forall (fun c => c ≠ NUL) (libc.print_x w)
  ∧ (1 ≤ List.length (libc.print_x w) ≤ 4)%nat.
Proof.
  intros Hw. split.
  - pose proof (run_xdigits_print_x w Hw) as Hrun. revert Hrun.
    generalize 0 at 1. induction (libc.print_x w) as [|c cs IH]; intros v Hrun; [done|].
    cbn [run_xdigits] in Hrun.
    destruct (libc.index_of (libc.tolower c) libc.xdigits 0) as [d|] eqn:Ed; [|done].
    destruct (_ >? _); [done|]. apply Forall_cons. split; [|by eapply IH].
    intros ->. discriminate Ed.
  - unfold libc.print_x. repeat destruct (_ <? _); simpl; lia.
Qed.

(** A group that a colon follows. *)
Lemma inet_pton6_loop_group_colon (w : Z) (rest curtok : list ascii) (out : list Z)
    (colonp : option nat) :
  0 <= w < 65536 → rest ≠ [] → (List.length out + 2 ≤ 16)%nat →
  libc.inet_pton6_loop (libc.print_x w ++ ":"%char :: rest) curtok out colonp false 0
  = libc.inet_pton6_loop rest rest (out ++ [group_hi w; group_lo w]) colonp false 0.
Proof.
  intros Hw Hrest Hlen.
  rewrite (inet_pton6_loop_xdigits _ _ _ _ _ _ _ w) by (by apply run_xdigits_print_x).
  destruct (print_x_head w Hw) as (c & cs & -> & _).
  cbn [libc.inet_pton6_loop].
  change (libc.index_of (libc.tolower ":") libc.xdigits 0) with (@None Z).
  change (bool_decide (libc.tolower ":" = ":"%char)) with true. cbn [negb].
  rewrite bool_decide_eq_false_2 by done.
  by rewrite gtb_false by lia.
Qed.

(** The second colon of "::". *)
Lemma inet_pton6_loop_colon (rest curtok : list ascii) (out : list Z) (val : Z) :
  libc.inet_pton6_loop (":"%char :: rest) curtok out None false val
  = libc.inet_pton6_loop rest rest out (Some (List.length out)) false val.
Proof. reflexivity. Qed.

(** The last group. *)
Lemma inet_pton6_loop_group_end (w : Z) (curtok : list ascii) (out : list Z)
    (colonp : option nat) :
  0 <= w < 65536 →
  libc.inet_pton6_loop (libc.print_x w) curtok out colonp false 0
  = libc.inet_pton6_end out colonp true w.
Proof.
  intros Hw. rewrite <- (app_nil_r (libc.print_x w)).
  rewrite (inet_pton6_loop_xdigits _ _ _ _ _ _ _ w) by (by apply run_xdigits_print_x).
  by destruct (print_x_head w Hw) as (c & cs & -> & _).
Qed.

(** An embedded IPv4 address: its first number is read as hexadecimal
    digits until the dot hands the token to [inet_pton4]. *)
Lemma inet_pton6_loop_dot (n : Z) (rest curtok : list ascii) (out o4 : list Z)
    (colonp : option nat) :
  0 <= n < 256 → (List.length out + 4 ≤ 16)%nat →
  libc.inet_pton4 curtok = Some o4 →
  libc.inet_pton6_loop (libc.print_u n ++ "."%char :: rest) curtok out colonp false 0
  = libc.inet_pton6_end (out ++ o4) colonp false 0.
Proof.
  intros Hn Hlen Hparse.
  destruct (run_xdigits_print_u n Hn) as [v Hv].
  rewrite (inet_pton6_loop_xdigits _ _ _ _ _ _ _ v Hv).
  cbn [libc.inet_pton6_loop].
  change (libc.index_of (libc.tolower ".") libc.xdigits 0) with (@None Z).
  change (bool_decide (libc.tolower "." = ":"%char)) with false.
  change (bool_decide (libc.tolower "." = "."%char)) with true.
  replace (Z.of_nat (List.length out) + 4 <=? 16) with true
    by (symmetry; apply Z.leb_le; lia).
  cbn [andb]. by rewrite Hparse.
Qed.

Lemma inet_pton6_loop_dotted (a b c d : Z) (out : list Z) (colonp : option nat) :
  0 <= a < 256 → 0 <= b < 256 → 0 <= c < 256 → 0 <= d < 256 →
  (List.length out + 4 ≤ 16)%nat →
  libc.inet_pton6_loop (libc.inet_ntop4 [a; b; c; d]) (libc.inet_ntop4 [a; b; c; d])
    out colonp false 0
  = libc.inet_pton6_end (out ++ [a; b; c; d]) colonp false 0.
Proof.
  intros Ha Hb Hc Hd Hlen.
  pose proof (inet_pton4_ntop4 a b c d Ha Hb Hc Hd) as H4.
  unfold libc.inet_ntop4 at 1. cbn [octet nth].
  by apply inet_pton6_loop_dot.
Qed.

(** *** The run of zero words that [inet_ntop6] abbreviates *)

Lemma best_run_loop_zero_or_one (ws : list Z) (i : Z) (best cur : libc.run) :
  libc.best_run_loop (map zero_or_one ws) i best cur = libc.best_run_loop ws i best cur.
Proof.
  revert i best cur. induction ws as [|w ws IH]; intros i best cur; [done|].
  cbn [map libc.best_run_loop].
  replace (zero_or_one w =? 0) with (w =? 0)
    by (unfold zero_or_one; by destruct (Z.eqb_spec w 0)).
  by rewrite !IH.
Qed.

Lemma best_run_zero_or_one (ws : list Z) :
  libc.best_run (map zero_or_one ws) = libc.best_run ws.
Proof. unfold libc.best_run. by rewrite best_run_loop_zero_or_one. Qed.

Lemma zeros_and_ones_In (ws : list Z) :
  In (map zero_or_one ws) (zeros_and_ones (List.length ws)).
Proof.
  induction ws as [|w ws IH]; [by left|].
  cbn [map List.length zeros_and_ones]. apply in_flat_map.
  exists (map zero_or_one ws). split; [done|].
  unfold zero_or_one at 1. destruct (w =? 0); simpl; auto.
Qed.

Lemma best_run_cases (ws : list Z) :
  List.length ws = 8%nat →
  ∃ b l, libc.best_run ws = (b, l)
         ∧ (b = -1
            ∨ (0 <= b ∧ 2 <= l ∧ b + l <= 8
               ∧ ∀ i : nat, b <= Z.of_nat i < b + l → octet ws i = 0)).
Proof.
  intros Hlen.
  assert (Hall : forallb best_run_ok (zeros_and_ones 8) = true) by (vm_compute; reflexivity).
  rewrite forallb_forall in Hall.
  pose proof (Hall _ (eq_rect _ (fun n => In _ (zeros_and_ones n))
                        (zeros_and_ones_In ws) _ Hlen)) as Hok.
  unfold best_run_ok in Hok. rewrite best_run_zero_or_one in Hok.
  destruct (libc.best_run ws) as [b l]. exists b, l. split; [done|].
  apply orb_true_iff in Hok as [Hb | Hok]; [left; lia|right].
  apply andb_true_iff in Hok as [Hok Hz]. apply andb_true_iff in Hok as [Hok H8].
  apply andb_true_iff in Hok as [H0 H2].
  split; [lia|]. split; [lia|]. split; [lia|].
  intros i Hi. pose proof (forallb_below _ _ Hz (Z.of_nat i) ltac:(simpl; lia)) as Hi0.
  cbv beta in Hi0.
  replace ((b <=? Z.of_nat i) && (Z.of_nat i <? b + l)) with true in Hi0
    by (symmetry; apply andb_true_iff; split; [apply Z.leb_le | apply Z.ltb_lt]; lia).
  rewrite Nat2Z.id in Hi0. apply Z.eqb_eq in Hi0.
  assert (Hin : (i < List.length ws)%nat) by lia.
  unfold octet in *. revert Hi0.
  rewrite <- (nth_indep (map zero_or_one ws) (zero_or_one 0) 0)
    by (rewrite length_map; lia).
  rewrite map_nth. unfold zero_or_one. destruct (Z.eqb_spec (nth i ws 0) 0); [done|discriminate].
Qed.

Lemma inet_pton6_start_group (w : Z) (rest : list ascii) :
  0 <= w < 65536 →
  libc.inet_pton6 (libc.print_x w ++ rest)
  = libc.inet_pton6_loop (libc.print_x w ++ rest) (libc.print_x w ++ rest) [] None false 0.
Proof.
  intros Hw. destruct (print_x_head w Hw) as (c & cs & -> & Hc).
  cbn [app libc.inet_pton6]. by rewrite bool_decide_eq_false_2.
Qed.

Lemma inet_pton6_start_colons (rest : list ascii) :
  libc.inet_pton6 (":"%char :: ":"%char :: rest)
  = libc.inet_pton6_loop rest rest [] (Some 0%nat) false 0.
Proof. reflexivity. Qed.

Lemma print_x_app_nonempty (w : Z) (rest : list ascii) :
  0 <= w < 65536 → libc.print_x w ++ rest ≠ [].
Proof. intros Hw. by destruct (print_x_head w Hw) as (c & cs & -> & _). Qed.

Lemma in6_addr_octets (a : list Z) :
  wf_in6 a →
  ∃ a0 a1 a2 a3 a4 a5 a6 a7 a8 a9 a10 a11 a12 a13 a14 a15,
    a = [a0; a1; a2; a3; a4; a5; a6; a7; a8; a9; a10; a11; a12; a13; a14; a15]
    ∧ Forall (fun b => 0 <= b < 256) a.
Proof.
  intros [Hlen Hall].
  do 16 (destruct a as [|? a]; [discriminate Hlen|]).
  destruct a; [|discriminate Hlen]. repeat eexists. exact Hall.
Qed.

Lemma print_x_nonempty (w : Z) : 0 <= w < 65536 → libc.print_x w ≠ [].
Proof. intros Hw. by destruct (print_x_head w Hw) as (c & cs & -> & _). Qed.

Ltac side6 :=
  first [ assumption
        | discriminate
        | by apply print_x_app_nonempty
        | by apply print_x_nonempty
        | by (let E := fresh in
              intros E; apply (f_equal (@List.length ascii)) in E;
              cbn [List.length] in E; lia)
        | (cbn [List.length app]; lia) ].

Lemma inet_pton6_end_group (w : Z) (out : list Z) (colonp : option nat) :
  (List.length out + 2 ≤ 16)%nat →
  libc.inet_pton6_end out colonp true w
  = libc.inet_pton6_end (out ++ [group_hi w; group_lo w]) colonp false 0.
Proof.
  intros Hlen. unfold libc.inet_pton6_end at 1. by rewrite gtb_false by lia.
Qed.

Lemma inet_pton6_loop_nil (curtok : list ascii) (out : list Z) (colonp : option nat)
    (saw_xdigit : bool) (val : Z) :
  libc.inet_pton6_loop [] curtok out colonp saw_xdigit val
  = libc.inet_pton6_end out colonp saw_xdigit val.
Proof. reflexivity. Qed.

Ltac parse6 :=
  repeat first
    [ rewrite inet_pton6_loop_group_colon by side6; cbn [app]
    | rewrite inet_pton6_loop_colon; cbn [app List.length]
    | rewrite inet_pton6_loop_nil
    | rewrite inet_pton6_loop_group_end by side6
    | rewrite inet_pton6_end_group by side6; cbn [app]
    | rewrite inet_pton6_loop_dotted by side6 ].

Lemma inet_ntop6_loop_with_eq (k i : nat) (src ws : list Z) (best : libc.run) :
  libc.inet_ntop6_loop k i src ws best
  = inet_ntop6_loop_with (octet ws 5 =? 65535) k i src ws best.
Proof.
  revert i. induction k as [|k IH]; intros i; [done|].
  cbn [libc.inet_ntop6_loop inet_ntop6_loop_with]. by rewrite !IH.
Qed.

Ltac zero_words Hrun :=
  repeat match goal with
  | HZ : ?w = 0 → ?x = 0 ∧ ?y = 0 |- _ =>
      first [ let Hw := fresh in
              assert (w = 0) as Hw
                by (first [ apply (Hrun 0%nat) | apply (Hrun 1%nat) | apply (Hrun 2%nat)
                          | apply (Hrun 3%nat) | apply (Hrun 4%nat) | apply (Hrun 5%nat)
                          | apply (Hrun 6%nat) | apply (Hrun 7%nat) ]; simpl; lia);
              let Hx := fresh in let Hy := fresh in
              destruct (HZ Hw) as [Hx Hy]; clear HZ Hw; rewrite Hx, Hy in *; clear Hx Hy
            | clear HZ ]
  end.

Ltac text_chars :=
  repeat first
    [ apply Forall_nil_2
    | apply Forall_cons; split; [discriminate|]
    | apply Forall_app; split; [assumption|]
    | assumption ].

Ltac text_length :=
  cbn [List.length]; repeat (rewrite length_app; cbn [List.length]); lia.

Ltac in_colon :=
  repeat first [ by left | (apply in_or_app; right) | by (right; left) ].

Lemma inet_ntop6_cases (a0 a1 a2 a3 a4 a5 a6 a7 a8 a9 a10 a11 a12 a13 a14 a15 : Z)
    (w0 w1 w2 w3 w4 w5 w6 w7 : Z) (b l : Z) (mapped : bool) :
  word_of a0 a1 w0 → word_of a2 a3 w1 → word_of a4 a5 w2 → word_of a6 a7 w3 →
  word_of a8 a9 w4 → word_of a10 a11 w5 → word_of a12 a13 w6 → word_of a14 a15 w7 →
  0 <= a12 < 256 → 0 <= a13 < 256 → 0 <= a14 < 256 → 0 <= a15 < 256 →
  b = -1
  ∨ (0 <= b ∧ 2 <= l ∧ b + l <= 8
     ∧ ∀ i : nat, b <= Z.of_nat i < b + l → octet [w0; w1; w2; w3; w4; w5; w6; w7] i = 0) →
  let src := [a0; a1; a2; a3; a4; a5; a6; a7; a8; a9; a10; a11; a12; a13; a14; a15] in
  good_text
    (inet_ntop6_loop_with mapped 8 0 src [w0; w1; w2; w3; w4; w5; w6; w7] (b, l)
     ++ (if negb (b =? -1) && (b + l =? 8) then [":"%char] else []))
    src.
Proof.
  intros (R0 & Hh0 & Hl0 & Z0 & _) (R1 & Hh1 & Hl1 & Z1 & _) (R2 & Hh2 & Hl2 & Z2 & _)
    (R3 & Hh3 & Hl3 & Z3 & _) (R4 & Hh4 & Hl4 & Z4 & _) (R5 & Hh5 & Hl5 & Z5 & _)
    (R6 & Hh6 & Hl6 & Z6 & _) (R7 & Hh7 & Hl7 & Z7 & _) H12 H13 H14 H15 Hcase src.
  subst src.
  destruct (print_x_chars w0 R0) as [C0 L0]. destruct (print_x_chars w1 R1) as [C1 L1].
  destruct (print_x_chars w2 R2) as [C2 L2]. destruct (print_x_chars w3 R3) as [C3 L3].
  destruct (print_x_chars w4 R4) as [C4 L4]. destruct (print_x_chars w5 R5) as [C5 L5].
  destruct (print_x_chars w6 R6) as [C6 L6]. destruct (print_x_chars w7 R7) as [C7 L7].
  destruct (inet_ntop4_chars a12 a13 a14 a15 H12 H13 H14 H15) as [C4' L4'].
  assert (C44 : Forall (fun c => c ≠ NUL) (libc.inet_ntop4 [a12; a13; a14; a15])).
  { eapply Forall_impl; [exact C4'|]. intros c Hc ->. vm_compute in Hc.
    destruct Hc as [Hc _]. by apply Hc. }
  clear C4'.
  assert (Hgo : ∀ text,
    libc.inet_pton6 text
    = Some [a0; a1; a2; a3; a4; a5; a6; a7; a8; a9; a10; a11; a12; a13; a14; a15] →
    In ":"%char text → Forall (fun c => c ≠ NUL) text → (List.length text < 46)%nat →
    good_text text [a0; a1; a2; a3; a4; a5; a6; a7; a8; a9; a10; a11; a12; a13; a14; a15])
    by (intros; by repeat split).
  destruct Hcase as [-> | (Hlo & Hmin & Hmax & Hrun)].
  - lazy -[libc.print_x libc.inet_ntop4 libc.inet_pton6 app good_text].
    rewrite <- ?app_assoc, ?app_nil_r. cbn [app].
    apply Hgo.
    + rewrite inet_pton6_start_group by side6. parse6.
      unfold libc.inet_pton6_end. lazy -[group_hi group_lo].
      by rewrite Hh0, Hl0, Hh1, Hl1, Hh2, Hl2, Hh3, Hl3, Hh4, Hl4, Hh5, Hl5, Hh6, Hl6, Hh7, Hl7.
    + in_colon.
    + text_chars.
    + text_length.
  - assert (Hb : b = 0 ∨ b = 1 ∨ b = 2 ∨ b = 3 ∨ b = 4 ∨ b = 5 ∨ b = 6) by lia.
    assert (Hl : l = 2 ∨ l = 3 ∨ l = 4 ∨ l = 5 ∨ l = 6 ∨ l = 7 ∨ l = 8) by lia.
    destruct Hb as [->|[->|[->|[->|[->|[->| ->]]]]]];
      destruct Hl as [->|[->|[->|[->|[->|[->| ->]]]]]];
      try (exfalso; lia);
      zero_words Hrun; destruct mapped;
      lazy -[libc.print_x libc.inet_ntop4 libc.inet_pton6 app good_text];
      rewrite <- ?app_assoc, ?app_nil_r; cbn [app];
      (apply Hgo;
       [ first [ rewrite inet_pton6_start_colons
               | rewrite inet_pton6_start_group by side6 ];
         parse6;
         lazymatch goal with |- libc.inet_pton6_end _ _ false _ = _ => idtac end;
         lazy -[group_hi group_lo];
         by rewrite ?Hh0, ?Hl0, ?Hh1, ?Hl1, ?Hh2, ?Hl2, ?Hh3, ?Hl3, ?Hh4, ?Hl4,
                    ?Hh5, ?Hl5, ?Hh6, ?Hl6, ?Hh7, ?Hl7
       | in_colon | text_chars | text_length ]).
Qed.

Lemma word_of_octets (x y : Z) :
  0 <= x < 256 → 0 <= y < 256 → word_of x y (Z.lor (Z.shiftl x 8) y).
Proof. intros Hx Hy. exact (word_octets x y Hx Hy). Qed.

(** [inet_pton6] reads back what [inet_ntop6] prints; the text has a
    colon, has no NUL and fits INET6_ADDRSTRLEN. *)
Lemma inet_ntop6_good (a : list Z) : wf_in6 a → good_text (libc.inet_ntop6 a) a.
Proof.
  intros Hwf.
  destruct (in6_addr_octets a Hwf)
    as (a0 & a1 & a2 & a3 & a4 & a5 & a6 & a7 & a8 & a9 & a10 & a11 & a12 & a13 & a14 & a15
        & -> & Hall).
  repeat (apply Forall_cons in Hall as [? Hall]).
  unfold libc.inet_ntop6.
  change (libc.words [a0; a1; a2; a3; a4; a5; a6; a7; a8; a9; a10; a11; a12; a13; a14; a15])
    with [Z.lor (Z.shiftl a0 8) a1; Z.lor (Z.shiftl a2 8) a3; Z.lor (Z.shiftl a4 8) a5;
          Z.lor (Z.shiftl a6 8) a7; Z.lor (Z.shiftl a8 8) a9; Z.lor (Z.shiftl a10 8) a11;
          Z.lor (Z.shiftl a12 8) a13; Z.lor (Z.shiftl a14 8) a15].
  cbv zeta.
  destruct (best_run_cases
    [Z.lor (Z.shiftl a0 8) a1; Z.lor (Z.shiftl a2 8) a3; Z.lor (Z.shiftl a4 8) a5;
     Z.lor (Z.shiftl a6 8) a7; Z.lor (Z.shiftl a8 8) a9; Z.lor (Z.shiftl a10 8) a11;
     Z.lor (Z.shiftl a12 8) a13; Z.lor (Z.shiftl a14 8) a15] eq_refl)
    as (b & l & -> & Hcase).
  cbn [fst snd]. rewrite inet_ntop6_loop_with_eq.
  apply inet_ntop6_cases; try done; by apply word_of_octets.
Qed.

Lemma linux_inet6 (bo : byte_order) (a : list Z) :
  wf_in6 a →
  let text := @inet_ntop6_text (linux bo) a in
  (@inet_pton6_addr (linux bo) text) = Some a
  ∧ has_colon text = true
  ∧ (NUL ∉ list_ascii_of_string text)
  ∧ Z.of_nat (String.length text) < INET6_ADDRSTRLEN.
Proof.
  intros Hwf text. subst text. cbn [inet_ntop6_text inet_pton6_addr linux].
  destruct (inet_ntop6_good a Hwf) as (Hparse & Hcolon & Hnul & Hlen).
  rewrite list_ascii_of_string_of_list_ascii.
  split; [done|]. split; [by apply has_colon_true|]. split.
  - rewrite list_elem_of_In. intros Hin. rewrite Forall_forall in Hnul.
    by apply list_elem_of_In, Hnul in Hin.
  - rewrite <- length_list_ascii_of_string, list_ascii_of_string_of_list_ascii.
    unfold INET6_ADDRSTRLEN. lia.
Qed.

(** An IPv4-mapped address is printed as "::ffff:" and the dotted form of
    its last four octets. *)
Lemma inet_ntop6_mapped (a : list Z) :
  wf_in6 a → IN6_IS_ADDR_V4MAPPED a = true →
  libc.inet_ntop6 a = list_ascii_of_string "::ffff:" ++ libc.inet_ntop4 (drop 12 a).
Proof.
  intros Hwf Hmapped.
  destruct (in6_addr_octets a Hwf)
    as (a0 & a1 & a2 & a3 & a4 & a5 & a6 & a7 & a8 & a9 & a10 & a11 & a12 & a13 & a14 & a15
        & -> & _).
  unfold IN6_IS_ADDR_V4MAPPED in Hmapped. cbn [forallb seq octet nth] in Hmapped.
  repeat match goal with H : _ && _ = true |- _ => apply andb_true_iff in H as [? ?] end.
  repeat match goal with H : (_ =? _) = true |- _ => apply Z.eqb_eq in H; subst end.
  unfold libc.inet_ntop6.
  change (libc.words [0; 0; 0; 0; 0; 0; 0; 0; 0; 0; 255; 255; a12; a13; a14; a15])
    with [0; 0; 0; 0; 0; 65535; Z.lor (Z.shiftl a12 8) a13; Z.lor (Z.shiftl a14 8) a15].
  generalize (Z.lor (Z.shiftl a12 8) a13) (Z.lor (Z.shiftl a14 8) a15). intros w6 w7.
  assert (Hbest : libc.best_run [0; 0; 0; 0; 0; 65535; w6; w7] = (0, 5)).
  { rewrite <- best_run_zero_or_one. cbn [map]. unfold zero_or_one at 7 8.
    by destruct (w6 =? 0), (w7 =? 0); vm_compute. }
  cbv zeta. rewrite Hbest.
  lazy -[libc.inet_ntop4 app]. cbn [app]. by rewrite ?app_nil_r.
Qed.

(** ** Round trip *)

Lemma cstring_text (text : string) (rest : list ascii) :
  NUL ∉ list_ascii_of_string text →
  cstring (list_ascii_of_string text ++ NUL :: rest) = Some (list_ascii_of_string text).
Proof.
  intros Hnul. destruct (cstring_app (list_ascii_of_string text) rest) as (s & -> & _ & Hs).
  by rewrite Hs.
Qed.

Section round_trip.
Context `{Platform}.

(** On any platform: where [inet_pton] reads back the text of an address,
    and the text tells the family by its colons, so does [SockAddr_pton]
    after [SockAddr_ntop]. *)
Lemma pton_of_ntop_inet (sa out : SockAddr) (dst : list ascii) (cnt : Z) :
  AF_INET ≠ AF_INET6 → sa_family sa = AF_INET →
  let text := inet_ntop4_text (s_addr sa) in
  Z.of_nat (String.length text) < to_socklen_t cnt →
  cnt <= Z.of_nat (List.length dst) →
  NUL ∉ list_ascii_of_string text →
  has_colon text = false →
  inet_pton4_addr text = Some (s_addr sa) →
  pton_of_ntop sa out dst cnt
  = Some (1, set_s_addr (s_addr sa) (set_sa_family AF_INET out)).
Proof.
  intros Hne Hfam text Hlen Hcnt Hnul Hcolon Hparse. unfold pton_of_ntop.
  rewrite SockAddr_ntop_inet by done. fold text. simpl.
  rewrite cstring_text by done. simpl.
  rewrite string_of_list_ascii_of_string, SockAddr_pton_unfold by done.
  by rewrite Hcolon, Hparse.
Qed.

Lemma pton_of_ntop_inet6 (sa out : SockAddr) (dst : list ascii) (cnt : Z) :
  AF_INET ≠ AF_INET6 → sa_family sa = AF_INET6 →
  let text := inet_ntop6_text (s6_addr sa) in
  Z.of_nat (String.length text) < to_socklen_t cnt →
  cnt <= Z.of_nat (List.length dst) →
  NUL ∉ list_ascii_of_string text →
  has_colon text = true →
  inet_pton6_addr text = Some (s6_addr sa) →
  pton_of_ntop sa out dst cnt
  = Some (1, set_s6_addr (s6_addr sa) (set_sa_family AF_INET6 out)).
Proof.
  intros Hne Hfam text Hlen Hcnt Hnul Hcolon Hparse. unfold pton_of_ntop.
  rewrite SockAddr_ntop_inet6 by done. fold text. simpl.
  rewrite cstring_text by done. simpl.
  rewrite string_of_list_ascii_of_string, SockAddr_pton_unfold by done.
  by rewrite Hcolon, Hparse.
Qed.

End round_trip.

(** C8. On Linux, of either byte order, for every IPv4 address (a 32-bit
    [s_addr]) and every IPv6 address (sixteen octets), [SockAddr_pton] of
    the text that [SockAddr_ntop] writes with [v4conv = 0] into a buffer
    returns 1 and stores the family and the binary address of the
    original, when the capacity [cnt] lies within the buffer and is, as
    the [socklen_t] that [inet_ntop] receives, INET_ADDRSTRLEN,
    respectively INET6_ADDRSTRLEN, or more; every capacity from these
    lengths up to 2^32 - 1 is. *)
Theorem SockAddr_pton_ntop_round_trip (bo : byte_order) (sa out : SockAddr)
    (dst : list ascii) (cnt : Z) :
  cnt <= Z.of_nat (List.length dst) →
  (sa_family sa = @AF_INET (linux bo) → 0 <= s_addr sa < 2^32 →
   INET_ADDRSTRLEN <= to_socklen_t cnt →
   @pton_of_ntop (linux bo) sa out dst cnt
   = Some (1, set_s_addr (s_addr sa) (set_sa_family (@AF_INET (linux bo)) out)))
  ∧ (sa_family sa = @AF_INET6 (linux bo) → wf_in6 (s6_addr sa) →
     INET6_ADDRSTRLEN <= to_socklen_t cnt →
     @pton_of_ntop (linux bo) sa out dst cnt
     = Some (1, set_s6_addr (s6_addr sa) (set_sa_family (@AF_INET6 (linux bo)) out)))
  ∧ (0 <= cnt < 2^32 → to_socklen_t cnt = cnt).
Proof.
  intros Hdst. split; [|split].
  - intros Hfam Hv Hcnt.
    destruct (linux_inet4 bo (s_addr sa) Hv) as (Hparse & Hcolon & Hnul & Hlen).
    apply (@pton_of_ntop_inet (linux bo)); try done. lia.
  - intros Hfam Hwf Hcnt.
    destruct (linux_inet6 bo (s6_addr sa) Hwf) as (Hparse & Hcolon & Hnul & Hlen).
    apply (@pton_of_ntop_inet6 (linux bo)); try done. lia.
  - apply to_socklen_t_small.
Qed.

Lemma SockAddr_pton_ntop_round_trip_witness :
  let P := linux LittleEndian in
  let sa4 := @pton_ok P "192.0.2.1" in
  let sa6 := @pton_ok P "2001:db8::1" in
  let dst := repeat "X"%char 46 in
  46 <= Z.of_nat (List.length dst)
  ∧ INET6_ADDRSTRLEN <= to_socklen_t 46
  ∧ (sa_family sa4 = @AF_INET P ∧ 0 <= s_addr sa4 < 2^32)
  ∧ (sa_family sa6 = @AF_INET6 P ∧ wf_in6 (s6_addr sa6))
  ∧ @pton_of_ntop P sa4 blank dst 46 = Some (1, sa4)
  ∧ @pton_of_ntop P sa6 blank dst 46 = Some (1, sa6).
Proof.
  intros P sa4 sa6 dst.
  assert (Hdst : 46 <= Z.of_nat (List.length dst)) by (vm_compute; congruence).
  assert (Hcap : INET6_ADDRSTRLEN <= to_socklen_t 46) by (vm_compute; congruence).
  assert (H4 : sa_family sa4 = @AF_INET P ∧ 0 <= s_addr sa4 < 2^32)
    by (vm_compute; repeat split; congruence).
  assert (H6 : sa_family sa6 = @AF_INET6 P ∧ wf_in6 (s6_addr sa6)).
  { split; [reflexivity|]. split; [reflexivity|].
    repeat constructor; vm_compute; congruence. }
  destruct (SockAddr_pton_ntop_round_trip LittleEndian sa4 blank dst 46 Hdst) as (R4 & _ & _).
  destruct (SockAddr_pton_ntop_round_trip LittleEndian sa6 blank dst 46 Hdst) as (_ & R6 & _).
  split; [exact Hdst|]. split; [exact Hcap|]. split; [exact H4|]. split; [exact H6|]. split.
  - etransitivity; [apply (R4 (proj1 H4) (proj2 H4)); vm_compute; congruence|reflexivity].
  - etransitivity; [apply (R6 (proj1 H6) (proj2 H6)); exact Hcap|reflexivity].
Defined.

(** ** Capacity of the destination of SockAddr_ntop *)

(** C7, amended. [cnt] is a capacity that lies within the destination.
    First: outside the unmapping of an IPv4-mapped address, and for an
    unrecognized family with a capacity of at least one character,
    [SockAddr_ntop] changes no character at or beyond the capacity,
    whether the text of the address fits or not. Second: when the
    capacity is at least one character and, as the [socklen_t] that
    [inet_ntop] receives, larger than the length of the text, a terminator
    lies within the capacity as well, for every family tag and with
    unmapping, provided the text of an IPv4-mapped address that is
    unmapped has the seven characters that [strcpy] skips; for a tag that
    is neither AF_INET nor AF_INET6 the destination then holds the empty
    string. Third: on Linux the second part holds for every valid address
    and every capacity that is, as a [socklen_t], INET6_ADDRSTRLEN or
    more, as every capacity from there up to 2^32 - 1 is. *)
Theorem SockAddr_ntop_capacity `{Platform} (sa : SockAddr) (dst : list ascii)
    (cnt v4conv : Z) :
  (AF_INET ≠ AF_INET6 →
   cnt <= Z.of_nat (List.length dst) →
   (sa_family sa ≠ AF_INET → sa_family sa ≠ AF_INET6 → 0 < cnt) →
   (sa_family sa = AF_INET6 →
      negb (v4conv =? 0) && IN6_IS_ADDR_V4MAPPED (s6_addr sa) = false) →
   ∃ m, SockAddr_ntop sa dst cnt v4conv = Some m
        ∧ List.length m = List.length dst
        ∧ drop (Z.to_nat cnt) m = drop (Z.to_nat cnt) dst)
  ∧ (AF_INET ≠ AF_INET6 →
     0 < cnt <= Z.of_nat (List.length dst) →
     (sa_family sa = AF_INET →
        Z.of_nat (String.length (inet_ntop4_text (s_addr sa))) < to_socklen_t cnt) →
     (sa_family sa = AF_INET6 →
        Z.of_nat (String.length (inet_ntop6_text (s6_addr sa))) < to_socklen_t cnt
        ∧ (negb (v4conv =? 0) && IN6_IS_ADDR_V4MAPPED (s6_addr sa) = true →
           (7 ≤ String.length (inet_ntop6_text (s6_addr sa)))%nat)) →
     ∃ m, SockAddr_ntop sa dst cnt v4conv = Some m
          ∧ within_capacity dst m cnt
          ∧ (sa_family sa ≠ AF_INET → sa_family sa ≠ AF_INET6 → cstring m = Some []))
  ∧ (∀ bo : byte_order,
       cnt <= Z.of_nat (List.length dst) →
       INET6_ADDRSTRLEN <= to_socklen_t cnt →
       (sa_family sa = @AF_INET (linux bo) → 0 <= s_addr sa < 2^32) →
       (sa_family sa = @AF_INET6 (linux bo) → wf_in6 (s6_addr sa)) →
       ∃ m, @SockAddr_ntop (linux bo) sa dst cnt v4conv = Some m
            ∧ within_capacity dst m cnt)
  ∧ (0 <= cnt < 2^32 → to_socklen_t cnt = cnt).
Proof.
  split; [|split; [apply SockAddr_ntop_within|split; [|apply to_socklen_t_small]]].
  { intros Hne Hcnt Hother Hconv. apply SockAddr_ntop_below; auto. }
  intros bo Hcnt Hcap H4 H6. unfold INET6_ADDRSTRLEN in Hcap.
  pose proof (to_socklen_t_bounds cnt) as Hb.
  destruct (@SockAddr_ntop_within (linux bo) sa dst cnt v4conv) as (m & Hm & Hwithin & _).
  - discriminate.
  - lia.
  - intros Hf. destruct (linux_inet4 bo (s_addr sa) (H4 Hf)) as (_ & _ & _ & Hlen).
    unfold INET_ADDRSTRLEN in Hlen. lia.
  - intros Hf. destruct (linux_inet6 bo (s6_addr sa) (H6 Hf)) as (_ & _ & _ & Hlen).
    unfold INET6_ADDRSTRLEN in Hlen. split; [lia|].
    intros Hconv. apply andb_true_iff in Hconv as [_ Hmapped].
    cbn [inet_ntop6_text linux].
    rewrite <- length_list_ascii_of_string, list_ascii_of_string_of_list_ascii.
    rewrite inet_ntop6_mapped by auto. rewrite length_app. simpl. lia.
  - by exists m.
Qed.

Lemma SockAddr_ntop_capacity_witness :
  let P := linux LittleEndian in
  let sa := @pton_ok P "::ffff:192.0.2.1" in
  let dst := repeat "X"%char 64 in
  46 <= Z.of_nat (List.length dst)
  ∧ INET6_ADDRSTRLEN <= to_socklen_t 46
  ∧ sa_family sa = @AF_INET6 P ∧ wf_in6 (s6_addr sa)
  ∧ (∃ m, @SockAddr_ntop P sa dst 46 1 = Some m
          ∧ within_capacity dst m 46
          ∧ string_of_list_ascii <$> cstring m = Some "192.0.2.1")
  ∧ (∃ m, @SockAddr_ntop P sa dst 4 0 = Some m
          ∧ drop 4 m = drop 4 dst).
Proof.
  intros P sa dst.
  assert (Hcnt : 46 <= Z.of_nat (List.length dst)) by (vm_compute; congruence).
  assert (Hcap : INET6_ADDRSTRLEN <= to_socklen_t 46) by (vm_compute; congruence).
  assert (Hwf : wf_in6 (s6_addr sa)).
  { split; [reflexivity|]. repeat constructor; vm_compute; congruence. }
  destruct (@SockAddr_ntop_capacity P sa dst 46 1) as (_ & _ & Hlinux & _).
  destruct (@SockAddr_ntop_capacity P sa dst 4 0) as (Hbelow & _).
  destruct (Hlinux LittleEndian Hcnt Hcap) as (m & Hrun & Hwithin).
  { intros Hf. discriminate Hf. }
  { intros _. exact Hwf. }
  destruct Hbelow as (m' & Hrun' & _ & Hdrop').
  { discriminate. }
  { vm_compute. congruence. }
  { intros _ _. reflexivity. }
  { intros _. reflexivity. }
  split; [exact Hcnt|]. split; [exact Hcap|]. split; [reflexivity|]. split; [exact Hwf|].
  split.
  - exists m. split; [exact Hrun|]. split; [exact Hwithin|].
    assert (Hm : @SockAddr_ntop P sa dst 46 1
                 = Some (list_ascii_of_string "192.0.2.1" ++ NUL
                         :: drop 10 (list_ascii_of_string "::ffff:192.0.2.1" ++ NUL
                                     :: repeat "X"%char 47)))
      by reflexivity.
    pose proof (eq_trans (eq_sym Hm) Hrun) as E. injection E as <-. reflexivity.
  - exists m'. split; [exact Hrun'|exact Hdrop'].
Defined.

(** * Further properties *)

(** ** Range matching: families *)

(** X1. A match of [rangeSockAddr] is the value 1, and it tells the
    families: the address is tagged AF_INET or AF_INET6, network and mask
    carry one and the same of these two tags, and an AF_INET address
    matches AF_INET rules only. *)
Theorem rangeSockAddr_match_families `{Platform} (addr4 addr netaddr netmask : SockAddr) :
  rangeSockAddr addr4 addr netaddr netmask ≠ 0 →
  rangeSockAddr addr4 addr netaddr netmask = 1
  ∧ isAF_INETx (sa_family addr) = 1
  ∧ sa_family netaddr = sa_family netmask
  ∧ isAF_INETx (sa_family netaddr) = 1
  ∧ (sa_family addr = AF_INET → sa_family netaddr = AF_INET).
Proof.
  unfold rangeSockAddr, isAF_INETx.
  destruct (Z.eqb_spec (sa_family addr) AF_INET) as [Ea|Na].
  - intros Hm.
    destruct (rangeSockAddrAF_INET_bool addr netaddr netmask) as [E|E]; [done|].
    destruct (rangeSockAddrAF_INET_families _ _ _ E) as (_ & En & Em).
    rewrite E, En, Em, Z.eqb_refl. done.
  - destruct (Z.eqb_spec (sa_family addr) AF_INET6) as [Ea|Na6]; [|done].
    unfold rangeSockAddrAF_INET6.
    destruct (IN6_IS_ADDR_V4MAPPED (s6_addr addr)
              && negb (rangeSockAddrAF_INET (convSockAddr6to4 addr addr4) netaddr netmask =? 0))
      eqn:Hsub.
    + intros _. apply andb_true_iff in Hsub as [_ Hsub].
      apply negb_true_iff, Z.eqb_neq in Hsub.
      destruct (rangeSockAddrAF_INET_bool (convSockAddr6to4 addr addr4) netaddr netmask)
        as [E|E]; [done|].
      destruct (rangeSockAddrAF_INET_families _ _ _ E) as (_ & En & Em).
      rewrite En, Em, Z.eqb_refl. done.
    + destruct (Z.eqb_spec (sa_family netaddr) AF_INET6) as [En|]; [|done].
      destruct (Z.eqb_spec (sa_family netmask) AF_INET6) as [Em|]; [|done].
      cbn [negb orb].
      destruct (range6_loop 16 0 (s6_addr addr) (s6_addr netaddr) (s6_addr netmask));
        [done|].
      intros _. rewrite ?orb_true_r.
      repeat split; try done; congruence.
Qed.

Lemma rangeSockAddr_match_families_witness :
  let P := linux LittleEndian in
  let addr := @pton_ok P "fe80::1" in
  let netaddr := @pton_ok P "fe80::" in
  let netmask := @pton_ok P "ffff:ffff:ffff:ffff::" in
  @rangeSockAddr P blank addr netaddr netmask = 1
  ∧ @isAF_INETx P (sa_family addr) = 1
  ∧ sa_family netaddr = sa_family netmask.
Proof.
  intros P addr netaddr netmask.
  assert (Hm : @rangeSockAddr P blank addr netaddr netmask ≠ 0)
    by (vm_compute; discriminate).
  destruct (@rangeSockAddr_match_families P blank addr netaddr netmask Hm)
    as (H1 & Ha & Hn & _).
  split; [exact H1|]. split; [exact Ha|exact Hn].
Defined.

(** X2. The local [addr4] of [rangeSockAddrAF_INET6] is declared without
    a value; [convSockAddr6to4] writes its family, port and [s_addr], and
    [rangeSockAddrAF_INET] reads its family and [s_addr] only, so what the
    variable holds at entry has no part in the value of [rangeSockAddr]. *)
Theorem rangeSockAddr_addr4_unread `{Platform} (x y addr netaddr netmask : SockAddr) :
  rangeSockAddr x addr netaddr netmask = rangeSockAddr y addr netaddr netmask
  ∧ sa_family (convSockAddr6to4 addr x) = sa_family (convSockAddr6to4 addr y)
  ∧ sin_port (convSockAddr6to4 addr x) = sin_port (convSockAddr6to4 addr y)
  ∧ s_addr (convSockAddr6to4 addr x) = s_addr (convSockAddr6to4 addr y).
Proof.
  split.
  - unfold rangeSockAddr. by rewrite (rangeSockAddrAF_INET6_addr4 x y).
  - unfold convSockAddr6to4, set_s_addr, set_sin_port, set_sa_family.
    cbn [sa_family sin_port s_addr]. repeat split; reflexivity.
Qed.

(** ** Range matching, IPv4: masks *)

(** X3. A match under a mask is a match under every mask that keeps a
    part of its bits: an address inside a network is inside every network
    that contains it. *)
Theorem rangeSockAddrAF_INET_wider_mask `{Platform} (addr netaddr netmask netmask' : SockAddr) :
  sa_family netmask' = AF_INET →
  Z.land (s_addr netmask') (s_addr netmask) = s_addr netmask' →
  rangeSockAddrAF_INET addr netaddr netmask = 1 →
  rangeSockAddrAF_INET addr netaddr netmask' = 1.
Proof.
  intros Hf Hsub Hm.
  destruct (rangeSockAddrAF_INET_families _ _ _ Hm) as (Ea & En & Em).
  rewrite rangeSockAddrAF_INET_inet in Hm |- * by done.
  destruct (Z.eqb_spec (Z.land (Z.lxor (s_addr addr) (s_addr netaddr)) (s_addr netmask)) 0)
    as [E|]; [|done].
  rewrite <- Hsub, (Z.land_comm (s_addr netmask')), Z.land_assoc, E.
  by rewrite Z.land_0_l.
Qed.

Lemma rangeSockAddrAF_INET_wider_mask_witness :
  let P := linux LittleEndian in
  let addr := @pton_ok P "10.1.2.3" in
  let netaddr := @pton_ok P "10.1.0.0" in
  let netmask := @pton_ok P "255.255.0.0" in
  let netmask' := @pton_ok P "255.0.0.0" in
  sa_family netmask' = @AF_INET P
  ∧ Z.land (s_addr netmask') (s_addr netmask) = s_addr netmask'
  ∧ @rangeSockAddrAF_INET P addr netaddr netmask = 1
  ∧ @rangeSockAddrAF_INET P addr netaddr netmask' = 1.
Proof.
  intros P addr netaddr netmask netmask'.
  assert (Hf : sa_family netmask' = @AF_INET P) by reflexivity.
  assert (Hsub : Z.land (s_addr netmask') (s_addr netmask) = s_addr netmask')
    by reflexivity.
  assert (Hm : @rangeSockAddrAF_INET P addr netaddr netmask = 1) by reflexivity.
  split; [exact Hf|]. split; [exact Hsub|]. split; [exact Hm|].
  exact (@rangeSockAddrAF_INET_wider_mask P addr netaddr netmask netmask' Hf Hsub Hm).
Defined.

(** X4. With the three tags AF_INET, the mask 0.0.0.0 lets every address
    match, every address matches itself under any mask, and under the mask
    255.255.255.255 two 32-bit addresses match exactly when they are
    equal. *)
Theorem rangeSockAddrAF_INET_extreme_masks `{Platform} (addr netaddr netmask : SockAddr) :
  sa_family addr = AF_INET → sa_family netaddr = AF_INET → sa_family netmask = AF_INET →
  (s_addr netmask = 0 → rangeSockAddrAF_INET addr netaddr netmask = 1)
  ∧ (s_addr addr = s_addr netaddr → rangeSockAddrAF_INET addr netaddr netmask = 1)
  ∧ (0 <= s_addr addr < 2^32 → 0 <= s_addr netaddr < 2^32 →
     s_addr netmask = 2^32 - 1 →
     (rangeSockAddrAF_INET addr netaddr netmask = 1 ↔ s_addr addr = s_addr netaddr)).
Proof.
  intros Ea En Em. rewrite rangeSockAddrAF_INET_inet by done.
  split; [|split].
  - intros ->. by rewrite Z.land_0_r.
  - intros ->. by rewrite Z.lxor_nilpotent.
  - intros Ha Hn ->.
    change (2^32 - 1) with (Z.ones 32). rewrite Z.land_ones by lia.
    destruct (Z.eqb_spec (Z.lxor (s_addr addr) (s_addr netaddr) mod 2^32) 0) as [E|E].
    + split; [intros _|done].
      apply Z.bits_inj'. intros i Hi.
      destruct (Z.lt_ge_cases i 32) as [Hlt|Hge].
      * assert (Hb : Z.testbit (Z.lxor (s_addr addr) (s_addr netaddr) mod 2^32) i = false)
          by (by rewrite E, Z.bits_0).
        rewrite Z.mod_pow2_bits_low, Z.lxor_spec in Hb by lia.
        by destruct (Z.testbit (s_addr addr) i), (Z.testbit (s_addr netaddr) i).
      * rewrite <- (Z.mod_small (s_addr addr) (2^32)) by done.
        rewrite <- (Z.mod_small (s_addr netaddr) (2^32)) by done.
        by rewrite !Z.mod_pow2_bits_high by lia.
    + split; [done|]. intros Heq. exfalso. apply E.
      by rewrite Heq, Z.lxor_nilpotent.
Qed.

Lemma rangeSockAddrAF_INET_extreme_masks_witness :
  let P := linux LittleEndian in
  let addr := @pton_ok P "10.1.2.3" in
  let netaddr := @pton_ok P "10.1.2.4" in
  let netmask := @pton_ok P "255.255.255.255" in
  (sa_family addr = @AF_INET P ∧ sa_family netaddr = @AF_INET P
   ∧ sa_family netmask = @AF_INET P)
  ∧ s_addr netmask = 2^32 - 1
  ∧ @rangeSockAddrAF_INET P addr addr netmask = 1
  ∧ @rangeSockAddrAF_INET P addr netaddr (@pton_ok P "0.0.0.0") = 1
  ∧ @rangeSockAddrAF_INET P addr netaddr netmask = 0.
Proof.
  intros P addr netaddr netmask.
  assert (Ea : sa_family addr = @AF_INET P) by reflexivity.
  assert (En : sa_family netaddr = @AF_INET P) by reflexivity.
  assert (Em : sa_family netmask = @AF_INET P) by reflexivity.
  assert (Hfull : s_addr netmask = 2^32 - 1) by reflexivity.
  destruct (@rangeSockAddrAF_INET_extreme_masks P addr addr netmask Ea Ea Em)
    as (_ & Hself & _).
  destruct (@rangeSockAddrAF_INET_extreme_masks P addr netaddr (@pton_ok P "0.0.0.0")
              Ea En eq_refl) as (Hzero & _ & _).
  split; [done|]. split; [exact Hfull|].
  split; [exact (Hself eq_refl)|]. split; [exact (Hzero eq_refl)|reflexivity].
Defined.

(** ** Range matching, IPv4: byte order *)

Lemma testbit_octets (hi lo i : Z) :
  0 <= lo < 256 → 0 <= i →
  Z.testbit (hi * 256 + lo) i = if i <? 8 then Z.testbit lo i else Z.testbit hi (i - 8).
Proof.
  intros Hlo Hi. change 256 with (2^8) in *. rewrite <- lor_shiftl by lia.
  rewrite Z.lor_spec. destruct (Z.ltb_spec i 8).
  - by rewrite Z.shiftl_spec_low by lia.
  - rewrite Z.shiftl_spec by lia.
    rewrite <- (Z.mod_small lo (2^8)) by done.
    rewrite Z.mod_pow2_bits_high by lia. apply orb_false_r.
Qed.

(** The test of a match splits at an octet boundary. *)
Lemma match_octets (a n m a' n' m' : Z) :
  0 <= a' < 256 → 0 <= n' < 256 → 0 <= m' < 256 →
  Z.land (Z.lxor (a * 256 + a') (n * 256 + n')) (m * 256 + m') = 0
  ↔ Z.land (Z.lxor a n) m = 0 ∧ Z.land (Z.lxor a' n') m' = 0.
Proof.
  intros Ha Hn Hm. split.
  - intros E.
    assert (Hbit : ∀ i, 0 <= i →
      Z.testbit (Z.land (Z.lxor (a * 256 + a') (n * 256 + n')) (m * 256 + m')) i = false)
      by (intros i _; by rewrite E, Z.bits_0).
    split; apply Z.bits_inj'; intros i Hi; rewrite Z.bits_0.
    + specialize (Hbit (i + 8) ltac:(lia)).
      rewrite Z.land_spec, Z.lxor_spec, !testbit_octets in Hbit by lia.
      replace (i + 8 <? 8) with false in Hbit by (symmetry; apply Z.ltb_ge; lia).
      replace (i + 8 - 8) with i in Hbit by lia.
      by rewrite Z.land_spec, Z.lxor_spec.
    + specialize (Hbit i Hi).
      rewrite Z.land_spec, Z.lxor_spec, !testbit_octets in Hbit by lia.
      rewrite Z.land_spec, Z.lxor_spec.
      destruct (Z.ltb_spec i 8); [done|].
      rewrite <- (Z.mod_small m' (2^8)) by done.
      rewrite Z.mod_pow2_bits_high by lia. apply andb_false_r.
  - intros [Ehi Elo]. apply Z.bits_inj'. intros i Hi.
    rewrite Z.bits_0, Z.land_spec, Z.lxor_spec, !testbit_octets by lia.
    destruct (Z.ltb_spec i 8).
    + by rewrite <- Z.lxor_spec, <- Z.land_spec, Elo, Z.bits_0.
    + by rewrite <- Z.lxor_spec, <- Z.land_spec, Ehi, Z.bits_0.
Qed.

(** The test on the integers that a host of either byte order loads is the
    test on the four octets. *)
Lemma load32_match (bo : byte_order) (a0 a1 a2 a3 n0 n1 n2 n3 m0 m1 m2 m3 : Z) :
  Forall (fun b => 0 <= b < 256) [a0; a1; a2; a3; n0; n1; n2; n3; m0; m1; m2; m3] →
  Z.land (Z.lxor (load32 bo a0 a1 a2 a3) (load32 bo n0 n1 n2 n3)) (load32 bo m0 m1 m2 m3) = 0
  ↔ ∀ i, (i < 4)%nat → octet_match [a0; a1; a2; a3] [n0; n1; n2; n3] [m0; m1; m2; m3] i.
Proof.
  intros Hall. repeat (apply Forall_cons in Hall as [? Hall]).
  assert (Hoct : (∀ i, (i < 4)%nat →
                    octet_match [a0; a1; a2; a3] [n0; n1; n2; n3] [m0; m1; m2; m3] i)
                 ↔ Z.land (Z.lxor a0 n0) m0 = 0 ∧ Z.land (Z.lxor a1 n1) m1 = 0
                   ∧ Z.land (Z.lxor a2 n2) m2 = 0 ∧ Z.land (Z.lxor a3 n3) m3 = 0).
  { unfold octet_match. split.
    - intros Hi. repeat split; [apply (Hi 0%nat)|apply (Hi 1%nat)|apply (Hi 2%nat)
                               |apply (Hi 3%nat)]; lia.
    - intros (E0 & E1 & E2 & E3) i Hi.
      do 4 (destruct i as [|i]; [done|]). lia. }
  rewrite Hoct.
  assert (Hpack : ∀ x y z t, x * 2^24 + y * 2^16 + z * 2^8 + t
                             = ((x * 256 + y) * 256 + z) * 256 + t) by (intros; lia).
  split.
  - intros E.
    destruct bo; unfold load32 in E; rewrite !Hpack in E;
      apply match_octets in E as [E ?]; try done;
      apply match_octets in E as [E ?]; try done;
      apply match_octets in E as [E ?]; done.
  - intros (E0 & E1 & E2 & E3).
    destruct bo; unfold load32; rewrite !Hpack;
      repeat (apply match_octets; [done..|split; [|done]]); done.
Qed.

(** X5. [rangeSockAddrAF_INET] compares the integers that the host loads
    from the octets of the three addresses, and its answer does not depend
    on the byte order of the host: on either, the address matches exactly
    when each of its four octets agrees with the octet of the network
    under the octet of the mask. *)
Theorem rangeSockAddrAF_INET_byte_order `{Platform} (bo : byte_order)
    (a0 a1 a2 a3 n0 n1 n2 n3 m0 m1 m2 m3 : Z) :
  Forall (fun b => 0 <= b < 256) [a0; a1; a2; a3; n0; n1; n2; n3; m0; m1; m2; m3] →
  rangeSockAddrAF_INET (ipv4 (in_addr_of bo a0 a1 a2 a3))
    (ipv4 (in_addr_of bo n0 n1 n2 n3)) (ipv4 (in_addr_of bo m0 m1 m2 m3)) = 1
  ↔ ∀ i, (i < 4)%nat → octet_match [a0; a1; a2; a3] [n0; n1; n2; n3] [m0; m1; m2; m3] i.
Proof.
  intros Hall. rewrite <- (load32_match bo) by done.
  rewrite rangeSockAddrAF_INET_inet by done.
  cbn [ipv4 s_addr]. unfold in_addr_of.
  by destruct (Z.eqb_spec
    (Z.land (Z.lxor (load32 bo a0 a1 a2 a3) (load32 bo n0 n1 n2 n3)) (load32 bo m0 m1 m2 m3))
    0).
Qed.

Lemma rangeSockAddrAF_INET_byte_order_witness :
  Forall (fun b => 0 <= b < 256) [10; 1; 2; 3; 10; 0; 0; 0; 255; 0; 0; 0]
  ∧ @rangeSockAddrAF_INET (linux LittleEndian)
      (@ipv4 (linux LittleEndian) (in_addr_of LittleEndian 10 1 2 3))
      (@ipv4 (linux LittleEndian) (in_addr_of LittleEndian 10 0 0 0))
      (@ipv4 (linux LittleEndian) (in_addr_of LittleEndian 255 0 0 0)) = 1
  ∧ @rangeSockAddrAF_INET (linux BigEndian)
      (@ipv4 (linux BigEndian) (in_addr_of BigEndian 10 1 2 3))
      (@ipv4 (linux BigEndian) (in_addr_of BigEndian 10 0 0 0))
      (@ipv4 (linux BigEndian) (in_addr_of BigEndian 255 0 0 0)) = 1.
Proof.
  assert (Hall : Forall (fun b => 0 <= b < 256) [10; 1; 2; 3; 10; 0; 0; 0; 255; 0; 0; 0])
    by (repeat constructor; lia).
  assert (Hoct : ∀ i, (i < 4)%nat →
                   octet_match [10; 1; 2; 3] [10; 0; 0; 0] [255; 0; 0; 0] i)
    by (intros i Hi; do 4 (destruct i as [|i]; [reflexivity|]); lia).
  split; [exact Hall|]. split.
  - exact (proj2 (@rangeSockAddrAF_INET_byte_order (linux LittleEndian) LittleEndian
                    10 1 2 3 10 0 0 0 255 0 0 0 Hall) Hoct).
  - exact (proj2 (@rangeSockAddrAF_INET_byte_order (linux BigEndian) BigEndian
                    10 1 2 3 10 0 0 0 255 0 0 0 Hall) Hoct).
Defined.

(** ** Range matching, IPv6: the family of the rule *)

(** X6. With a rule tagged AF_INET6 the sub-match on the converted
    address cannot succeed, so [rangeSockAddrAF_INET6] answers by the
    sixteen octets alone, for IPv4-mapped addresses as for all others, and
    whatever the tag of the address is, which it does not look at. *)
Theorem rangeSockAddrAF_INET6_ipv6_rule `{Platform} (addr4 addr netaddr netmask : SockAddr) :
  AF_INET ≠ AF_INET6 →
  sa_family netaddr = AF_INET6 → sa_family netmask = AF_INET6 →
  (rangeSockAddrAF_INET6 addr4 addr netaddr netmask = 1
   ↔ ∀ i, (i < 16)%nat → octet_match (s6_addr addr) (s6_addr netaddr) (s6_addr netmask) i)
  ∧ (rangeSockAddrAF_INET6 addr4 addr netaddr netmask = 0
     ↔ ∃ i, (i < 16)%nat
            ∧ ¬ octet_match (s6_addr addr) (s6_addr netaddr) (s6_addr netmask) i).
Proof.
  intros Hne En Em. unfold rangeSockAddrAF_INET6.
  assert (Hsub : rangeSockAddrAF_INET (convSockAddr6to4 addr addr4) netaddr netmask = 0).
  { unfold rangeSockAddrAF_INET. rewrite En.
    destruct (Z.eqb_spec AF_INET6 AF_INET); [congruence|].
    cbn [negb orb]. by rewrite orb_true_r. }
  rewrite Hsub, andb_false_r, En, Em, Z.eqb_refl. cbn [negb orb].
  destruct (range6_loop 16 0 (s6_addr addr) (s6_addr netaddr) (s6_addr netmask))
    as [j|] eqn:Eloop.
  - apply range6_loop_Some in Eloop as (Hj & Hmis & _). split.
    + split; [done|]. intros Hall. exfalso. apply Hmis, Hall. lia.
    + split; [|done]. intros _. exists j. split; [lia|done].
  - split; [split; [|done]|split; [done|]].
    + intros _ i Hi. eapply range6_loop_None; [exact Eloop|lia].
    + intros (i & Hi & Hmis). exfalso. apply Hmis.
      eapply range6_loop_None; [exact Eloop|lia].
Qed.

Lemma rangeSockAddrAF_INET6_ipv6_rule_witness :
  let P := linux LittleEndian in
  let addr := @pton_ok P "::ffff:10.1.2.3" in
  let netaddr := @pton_ok P "::ffff:10.0.0.0" in
  let netmask := @pton_ok P "ffff:ffff:ffff:ffff:ffff:ffff:ff00:0" in
  @AF_INET P = 2 ∧ @AF_INET6 P = 10
  ∧ sa_family netaddr = @AF_INET6 P ∧ sa_family netmask = @AF_INET6 P
  ∧ IN6_IS_ADDR_V4MAPPED (s6_addr addr) = true
  ∧ @rangeSockAddrAF_INET6 P blank addr netaddr netmask = 1.
Proof.
  intros P addr netaddr netmask.
  assert (Hne : @AF_INET P ≠ @AF_INET6 P) by discriminate.
  destruct (@rangeSockAddrAF_INET6_ipv6_rule P blank addr netaddr netmask Hne eq_refl eq_refl)
    as [Hiff _].
  repeat (split; [reflexivity|]).
  apply Hiff. intros i Hi. do 16 (destruct i as [|i]; [reflexivity|]). lia.
Defined.

(** X7. With a rule tagged AF_INET, an IPv6 address that is not
    IPv4-mapped never matches, and a mapped one matches as the IPv4
    address whose [s_addr] is the number that its last four octets make in
    big-endian order: the embedded address on a big-endian host. *)
Theorem rangeSockAddrAF_INET6_ipv4_rule `{Platform} (addr4 addr netaddr netmask : SockAddr) :
  AF_INET ≠ AF_INET6 →
  sa_family netaddr = AF_INET → sa_family netmask = AF_INET →
  wf_in6 (s6_addr addr) →
  rangeSockAddrAF_INET6 addr4 addr netaddr netmask
  = if IN6_IS_ADDR_V4MAPPED (s6_addr addr)
    then rangeSockAddrAF_INET
           (ipv4 (in_addr_of BigEndian (octet (s6_addr addr) 12) (octet (s6_addr addr) 13)
                    (octet (s6_addr addr) 14) (octet (s6_addr addr) 15)))
           netaddr netmask
    else 0.
Proof.
  intros Hne En Em Hwf. unfold rangeSockAddrAF_INET6.
  assert (Hrule : negb (sa_family netaddr =? AF_INET6) || negb (sa_family netmask =? AF_INET6)
                  = true).
  { rewrite En. by destruct (Z.eqb_spec AF_INET AF_INET6). }
  rewrite Hrule.
  destruct (IN6_IS_ADDR_V4MAPPED (s6_addr addr)); cbn [andb]; [|done].
  assert (Hconv : rangeSockAddrAF_INET (convSockAddr6to4 addr addr4) netaddr netmask
                  = rangeSockAddrAF_INET
                      (ipv4 (in_addr_of BigEndian (octet (s6_addr addr) 12)
                               (octet (s6_addr addr) 13) (octet (s6_addr addr) 14)
                               (octet (s6_addr addr) 15))) netaddr netmask).
  { rewrite !rangeSockAddrAF_INET_inet by done.
    rewrite convSockAddr6to4_value by (intros i; by apply octet_range). done. }
  rewrite Hconv.
  by destruct (rangeSockAddrAF_INET_bool
    (ipv4 (in_addr_of BigEndian (octet (s6_addr addr) 12) (octet (s6_addr addr) 13)
             (octet (s6_addr addr) 14) (octet (s6_addr addr) 15))) netaddr netmask)
    as [-> | ->].
Qed.

Lemma rangeSockAddrAF_INET6_ipv4_rule_witness :
  let P := linux BigEndian in
  let addr := @pton_ok P "::ffff:10.1.2.3" in
  let netaddr := @pton_ok P "10.0.0.0" in
  let netmask := @pton_ok P "255.0.0.0" in
  @AF_INET P = 2 ∧ @AF_INET6 P = 10
  ∧ sa_family netaddr = @AF_INET P ∧ sa_family netmask = @AF_INET P
  ∧ wf_in6 (s6_addr addr)
  ∧ @rangeSockAddrAF_INET6 P blank addr netaddr netmask = 1
  ∧ @rangeSockAddrAF_INET6 P blank (@pton_ok P "::1") netaddr netmask = 0.
Proof.
  intros P addr netaddr netmask.
  assert (Hne : @AF_INET P ≠ @AF_INET6 P) by discriminate.
  assert (Hwf : wf_in6 (s6_addr addr)).
  { split; [reflexivity|]. repeat constructor; vm_compute; congruence. }
  assert (Hwf' : wf_in6 (s6_addr (@pton_ok P "::1"))).
  { split; [reflexivity|]. repeat constructor; vm_compute; congruence. }
  repeat (split; [reflexivity|]). split; [exact Hwf|]. split.
  - etransitivity;
      [exact (@rangeSockAddrAF_INET6_ipv4_rule P blank addr netaddr netmask Hne
                eq_refl eq_refl Hwf)|reflexivity].
  - etransitivity;
      [exact (@rangeSockAddrAF_INET6_ipv4_rule P blank (@pton_ok P "::1") netaddr netmask
                Hne eq_refl eq_refl Hwf')|reflexivity].
Defined.

(** ** convSockAddr6to4 *)

(** X8. [convSockAddr6to4] adds the last four octets in the type [int],
    where the shift of an octet of 128 or more by 24 is negative; the
    conversion to the unsigned [s_addr] makes up for it, and the value
    stored is the 32-bit number of the four octets in big-endian order,
    for every address. The call also stores AF_INET and the port of the
    source; the port is the same two bytes in both views of the union, so
    [sin6_port] of the destination is the port of the source as well, and
    what the destination held there is lost. The sixteen octets of the
    IPv6 view lie beyond [s_addr] and are as they were. *)
Theorem convSockAddr6to4_no_overflow `{Platform} (src dst : SockAddr) :
  wf_in6 (s6_addr src) →
  s_addr (convSockAddr6to4 src dst)
  = octet (s6_addr src) 12 * 2^24 + octet (s6_addr src) 13 * 2^16
    + octet (s6_addr src) 14 * 2^8 + octet (s6_addr src) 15
  ∧ 0 <= s_addr (convSockAddr6to4 src dst) < 2^32
  ∧ (128 <= octet (s6_addr src) 12 → int_shl (octet (s6_addr src) 12) 24 < 0)
  ∧ sa_family (convSockAddr6to4 src dst) = AF_INET
  ∧ sin_port (convSockAddr6to4 src dst) = sin6_port src
  ∧ sin6_port (convSockAddr6to4 src dst) = sin6_port src
  ∧ s6_addr (convSockAddr6to4 src dst) = s6_addr dst.
Proof.
  intros Hwf.
  pose proof (octet_range (s6_addr src) 12 Hwf).
  pose proof (octet_range (s6_addr src) 13 Hwf).
  pose proof (octet_range (s6_addr src) 14 Hwf).
  pose proof (octet_range (s6_addr src) 15 Hwf).
  rewrite convSockAddr6to4_value by (intros i; by apply octet_range).
  split; [done|]. split; [lia|]. split; [|done].
  intros H128. unfold int_shl, wrap_int. rewrite Z.shiftl_mul_pow2 by lia.
  assert (E : (octet (s6_addr src) 12 * 2^24 + 2^31) mod 2^32
              = octet (s6_addr src) 12 * 2^24 - 2^31)
    by (symmetry; apply (Z.mod_unique_pos _ _ 1); lia).
  rewrite E. lia.
Qed.

Lemma convSockAddr6to4_no_overflow_witness :
  let P := linux BigEndian in
  let src := @pton_ok P "::ffff:192.0.2.1" in
  let dst := mkSockAddr 10 7777 0 [] in
  wf_in6 (s6_addr src)
  ∧ s_addr (@convSockAddr6to4 P src blank) = 3221225985
  ∧ int_shl (octet (s6_addr src) 12) 24 < 0
  ∧ s_addr (@convSockAddr6to4 P src blank) = s_addr (@pton_ok P "192.0.2.1")
  ∧ wf_in6 (s6_addr mapped_10_1_2_3)
  ∧ sin6_port dst = 7777
  ∧ sin_port (@convSockAddr6to4 P mapped_10_1_2_3 dst) = 5432
  ∧ sin6_port (@convSockAddr6to4 P mapped_10_1_2_3 dst) = 5432.
Proof.
  intros P src dst.
  assert (Hwf : wf_in6 (s6_addr src)).
  { split; [reflexivity|]. repeat constructor; vm_compute; congruence. }
  assert (Hwf' : wf_in6 (s6_addr mapped_10_1_2_3)).
  { split; [reflexivity|]. repeat constructor; vm_compute; congruence. }
  destruct (@convSockAddr6to4_no_overflow P src blank Hwf) as (Hv & _ & Hneg & _).
  destruct (@convSockAddr6to4_no_overflow P mapped_10_1_2_3 dst Hwf')
    as (_ & _ & _ & _ & Hp & Hp6 & _).
  split; [exact Hwf|]. split; [rewrite Hv; reflexivity|].
  split; [apply Hneg; vm_compute; congruence|].
  split; [rewrite Hv; reflexivity|].
  split; [exact Hwf'|]. split; [reflexivity|].
  split; [rewrite Hp; reflexivity|rewrite Hp6; reflexivity].
Defined.

(** ** SockAddr_ntop: the flag v4conv *)

(** X9. [v4conv] is looked at as a truth value, and only for an address
    tagged AF_INET6 that is IPv4-mapped: for every other address the
    destination is the same whatever the flag, and two flags other than 0
    give the same destination for every address. *)
Theorem SockAddr_ntop_v4conv_unused `{Platform} (sa : SockAddr) (dst : list ascii)
    (cnt v v' : Z) :
  sa_family sa = AF_INET ∨ sa_family sa ≠ AF_INET6
  ∨ IN6_IS_ADDR_V4MAPPED (s6_addr sa) = false ∨ (v ≠ 0 ∧ v' ≠ 0) →
  SockAddr_ntop sa dst cnt v = SockAddr_ntop sa dst cnt v'.
Proof.
  intros Hcase. unfold SockAddr_ntop.
  destruct (Z.eqb_spec (sa_family sa) AF_INET) as [E4|N4]; [done|].
  destruct (Z.eqb_spec (sa_family sa) AF_INET6) as [E6|N6]; [|done].
  destruct Hcase as [?|[?|[Hm|[Hv Hv']]]]; [done|done| |].
  - by rewrite Hm, !andb_false_r.
  - apply Z.eqb_neq in Hv, Hv'. by rewrite Hv, Hv'.
Qed.

Lemma SockAddr_ntop_v4conv_unused_witness :
  let P := linux LittleEndian in
  let sa := @pton_ok P "2001:db8::1" in
  IN6_IS_ADDR_V4MAPPED (s6_addr sa) = false
  ∧ @SockAddr_ntop P sa (repeat "X"%char 46) 46 1
    = @SockAddr_ntop P sa (repeat "X"%char 46) 46 0.
Proof.
  intros P sa.
  assert (Hm : IN6_IS_ADDR_V4MAPPED (s6_addr sa) = false) by reflexivity.
  split; [exact Hm|].
  apply (@SockAddr_ntop_v4conv_unused P). right. right. left. exact Hm.
Defined.

(** ** SockAddr_ntop: a text that does not fit *)

(** X10. When the text of an AF_INET6 address does not fit the capacity,
    [inet_ntop] stores nothing and returns NULL, which [SockAddr_ntop]
    does not test. Without unmapping the destination is left as it was;
    for an IPv4-mapped address with [v4conv] set, [strcpy(dst, dst + 7)]
    is still run, on what the destination held before the call, and reads
    past its end when no terminator follows the seventh character. *)
Theorem SockAddr_ntop_inet6_too_small `{Platform} (sa : SockAddr) (dst : list ascii)
    (cnt v4conv : Z) :
  AF_INET ≠ AF_INET6 → sa_family sa = AF_INET6 →
  cnt <= Z.of_nat (String.length (inet_ntop6_text (s6_addr sa))) →
  SockAddr_ntop sa dst cnt v4conv
  = (if negb (v4conv =? 0) && IN6_IS_ADDR_V4MAPPED (s6_addr sa)
     then strcpy_within dst 0 7 else Some dst)
  ∧ (negb (v4conv =? 0) && IN6_IS_ADDR_V4MAPPED (s6_addr sa) = true →
     cstring (drop 7 dst) = None →
     SockAddr_ntop sa dst cnt v4conv = None).
Proof.
  intros Hne H6 Hcnt.
  assert (Hrun : SockAddr_ntop sa dst cnt v4conv
                 = (if negb (v4conv =? 0) && IN6_IS_ADDR_V4MAPPED (s6_addr sa)
                    then strcpy_within dst 0 7 else Some dst)).
  { unfold SockAddr_ntop. rewrite H6.
    destruct (Z.eqb_spec AF_INET6 AF_INET); [congruence|]. rewrite Z.eqb_refl.
    pose proof (to_socklen_t_bounds cnt).
    by rewrite inet_ntop_too_small by lia. }
  split; [exact Hrun|].
  intros Hconv Hnul. rewrite Hrun, Hconv. unfold strcpy_within. by rewrite Hnul.
Qed.

Lemma SockAddr_ntop_inet6_too_small_witness :
  let P := linux LittleEndian in
  let sa := @pton_ok P "::ffff:192.0.2.1" in
  @AF_INET P = 2 ∧ sa_family sa = @AF_INET6 P
  ∧ 8 <= Z.of_nat (String.length (@inet_ntop6_text P (s6_addr sa)))
  ∧ @SockAddr_ntop P sa (list_ascii_of_string "XXXXXXXX") 8 1 = None
  ∧ @SockAddr_ntop P sa (list_ascii_of_string "XXXXXXXX") 8 0
    = Some (list_ascii_of_string "XXXXXXXX").
Proof.
  intros P sa.
  assert (Hne : @AF_INET P ≠ @AF_INET6 P) by discriminate.
  assert (Hlen : 8 <= Z.of_nat (String.length (@inet_ntop6_text P (s6_addr sa))))
    by (vm_compute; congruence).
  destruct (@SockAddr_ntop_inet6_too_small P sa (list_ascii_of_string "XXXXXXXX") 8 1
              Hne eq_refl Hlen) as [_ Hpast].
  destruct (@SockAddr_ntop_inet6_too_small P sa (list_ascii_of_string "XXXXXXXX") 8 0
              Hne eq_refl Hlen) as [Hkeep _].
  split; [reflexivity|]. split; [reflexivity|]. split; [exact Hlen|].
  split; [apply Hpast; reflexivity|exact Hkeep].
Defined.

(** ** SockAddr_ntop and SockAddr_pton: IPv4-mapped addresses *)

(** X11. On Linux, of either byte order, [SockAddr_ntop] with [v4conv]
    set and a capacity that lies within the destination and is, as the
    [socklen_t] that [inet_ntop] receives, INET6_ADDRSTRLEN or more
    leaves, for every IPv4-mapped address, the dotted text of its last
    four octets; and
    [SockAddr_pton] reads that text as the AF_INET address whose [s_addr]
    the host loads from these four octets. The way through the text gives
    the embedded address on either byte order. *)
Theorem SockAddr_ntop_unmapped_text (bo : byte_order) (sa out : SockAddr)
    (dst : list ascii) (cnt v4conv : Z) :
  sa_family sa = @AF_INET6 (linux bo) → wf_in6 (s6_addr sa) →
  IN6_IS_ADDR_V4MAPPED (s6_addr sa) = true → v4conv ≠ 0 →
  cnt <= Z.of_nat (List.length dst) →
  INET6_ADDRSTRLEN <= to_socklen_t cnt →
  ∃ m, @SockAddr_ntop (linux bo) sa dst cnt v4conv = Some m
       ∧ cstring m = Some (libc.inet_ntop4 (drop 12 (s6_addr sa)))
       ∧ @SockAddr_pton (linux bo) out
           (string_of_list_ascii (libc.inet_ntop4 (drop 12 (s6_addr sa))))
         = (1, set_s_addr
                 (in_addr_of bo (octet (s6_addr sa) 12) (octet (s6_addr sa) 13)
                    (octet (s6_addr sa) 14) (octet (s6_addr sa) 15))
                 (set_sa_family (@AF_INET (linux bo)) out)).
Proof.
  intros Hfam Hwf Hmapped Hv Hcnt Hcap. unfold INET6_ADDRSTRLEN in Hcap.
  assert (Hne : @AF_INET (linux bo) ≠ @AF_INET6 (linux bo)) by discriminate.
  destruct (linux_inet6 bo (s6_addr sa) Hwf) as (_ & _ & Hnul & Hlen).
  unfold INET6_ADDRSTRLEN in Hlen. cbv zeta in Hnul, Hlen.
  assert (Htext : list_ascii_of_string (@inet_ntop6_text (linux bo) (s6_addr sa))
                  = list_ascii_of_string "::ffff:" ++ libc.inet_ntop4 (drop 12 (s6_addr sa))).
  { cbn [inet_ntop6_text linux]. rewrite list_ascii_of_string_of_list_ascii.
    by apply inet_ntop6_mapped. }
  assert (Hconv : negb (v4conv =? 0) && IN6_IS_ADDR_V4MAPPED (s6_addr sa) = true).
  { rewrite Hmapped. by destruct (Z.eqb_spec v4conv 0). }
  destruct (@SockAddr_ntop_inet6_unmap (linux bo) sa dst cnt v4conv Hne Hfam Hconv)
    as (s & _ & Hs & Hrun).
  { lia. }
  { exact Hcnt. }
  { rewrite <- length_list_ascii_of_string, Htext, length_app. simpl. lia. }
  specialize (Hs Hnul). rewrite Htext in Hs. simpl in Hs. subst s.
  destruct (in6_addr_octets (s6_addr sa) Hwf)
    as (a0 & a1 & a2 & a3 & a4 & a5 & a6 & a7 & a8 & a9 & a10 & a11 & a12 & a13 & a14 & a15
        & Ea & Hall).
  rewrite Ea in Hall, Hrun |- *.
  change (drop 12 [a0; a1; a2; a3; a4; a5; a6; a7; a8; a9; a10; a11; a12; a13; a14; a15])
    with [a12; a13; a14; a15] in *.
  cbn [octet nth].
  do 12 (apply Forall_cons in Hall as [_ Hall]).
  repeat (apply Forall_cons in Hall as [? Hall]).
  destruct (inet_ntop4_chars a12 a13 a14 a15) as [Hch _]; [done..|].
  eexists. split; [exact Hrun|]. split.
  - match goal with
    | |- cstring (?cs ++ NUL :: ?rest) = _ =>
        destruct (cstring_app cs rest) as (s & Hs & _ & Hid)
    end.
    rewrite Hs. f_equal. apply Hid.
    rewrite list_elem_of_In. intros Hin. rewrite Forall_forall in Hch.
    apply list_elem_of_In, Hch in Hin. vm_compute in Hin. destruct Hin as [Hin _]. by apply Hin.
  - rewrite SockAddr_pton_unfold by done.
    rewrite has_colon_false.
    2:{ eapply Forall_impl; [exact Hch|].
        intros ch Hr ->. vm_compute in Hr. destruct Hr as [_ Hr]. by apply Hr. }
    cbn [inet_pton4_addr linux].
    rewrite list_ascii_of_string_of_list_ascii, inet_pton4_ntop4 by done.
    reflexivity.
Qed.

Lemma SockAddr_ntop_unmapped_text_witness :
  let P := linux LittleEndian in
  let sa := @pton_ok P "::ffff:192.0.2.1" in
  let dst := repeat "X"%char 46 in
  sa_family sa = @AF_INET6 P ∧ wf_in6 (s6_addr sa)
  ∧ IN6_IS_ADDR_V4MAPPED (s6_addr sa) = true
  ∧ 46 <= Z.of_nat (List.length dst)
  ∧ INET6_ADDRSTRLEN <= to_socklen_t 46
  ∧ ∃ m, @SockAddr_ntop P sa dst 46 1 = Some m
         ∧ string_of_list_ascii <$> cstring m = Some "192.0.2.1"
         ∧ snd (@SockAddr_pton P blank "192.0.2.1") = @pton_ok P "192.0.2.1".
Proof.
  intros P sa dst.
  assert (Hwf : wf_in6 (s6_addr sa)).
  { split; [reflexivity|]. repeat constructor; vm_compute; congruence. }
  assert (Hcnt : 46 <= Z.of_nat (List.length dst)) by (vm_compute; congruence).
  assert (Hcap : INET6_ADDRSTRLEN <= to_socklen_t 46) by (vm_compute; congruence).
  assert (Hv : 1 ≠ 0) by discriminate.
  destruct (SockAddr_ntop_unmapped_text LittleEndian sa blank dst 46 1
              eq_refl Hwf eq_refl Hv Hcnt Hcap) as (m & Hrun & Htext & Hparse).
  split; [reflexivity|]. split; [exact Hwf|]. split; [reflexivity|].
  split; [exact Hcnt|]. split; [exact Hcap|].
  exists m. split; [exact Hrun|]. split.
  - rewrite Htext. reflexivity.
  - reflexivity.
Defined.

(** ** SockAddr_pton and isAF_INETx *)

(** X12. On every platform, whatever the text, [SockAddr_pton] returns 0
    or 1, never the -1 of its last branch, and the family it stores is one
    that [isAF_INETx] accepts. *)
Theorem SockAddr_pton_isAF_INETx `{Platform} (sa : SockAddr) (src : string) :
  isAF_INETx (sa_family (snd (SockAddr_pton sa src))) = 1
  ∧ (fst (SockAddr_pton sa src) = 0 ∨ fst (SockAddr_pton sa src) = 1).
Proof.
  unfold SockAddr_pton, isAF_INETx. cbv zeta.
  destruct (has_colon src).
  - destruct (Z.eqb_spec AF_INET6 AF_INET) as [E|N].
    + destruct (inet_pton4_addr src); cbn [fst snd set_s_addr set_sa_family sa_family];
        rewrite E, Z.eqb_refl; auto.
    + rewrite Z.eqb_refl.
      destruct (inet_pton6_addr src); cbn [fst snd set_s6_addr set_sa_family sa_family];
        rewrite Z.eqb_refl, orb_true_r; auto.
  - rewrite Z.eqb_refl.
    destruct (inet_pton4_addr src); cbn [fst snd set_s_addr set_sa_family sa_family];
      rewrite Z.eqb_refl; auto.
Qed.

(** ** getaddrinfo_unix: the calls that return *)

Section unix_returns.
Context `{Platform} `{Resolver}.

Ltac run lem :=
  erewrite bind_Done by (eapply lem; cbn [heap avail files log];
                         rewrite ?lookup_insert_eq; try reflexivity; eauto);
  cbv beta iota; cbn [heap avail files log].

Lemma load_sockaddr_un_Done (p : ptr) (u : sockaddr_un) (w : world) :
  heap w !! p = Some (Obj_sockaddr_un u) → load_sockaddr_un (Some p) w = Done u w.
Proof. unfold load_sockaddr_un. by intros ->. Qed.

Lemma drop_repeat {A} (x : A) (n k : nat) : drop k (repeat x n) = repeat x (n - k).
Proof.
  revert k. induction n as [|n IH]; intros [|k]; simpl; auto.
Qed.

Lemma getaddrinfo_unix_hints_flags (hintsp : option addrinfo) :
  ai_flags (getaddrinfo_unix_hints hintsp)
  = match hintsp with Some h => ai_flags h | None => 0 end.
Proof.
  unfold getaddrinfo_unix_hints. destruct hintsp as [h|]; simpl.
  - by destruct (ai_socktype h =? 0).
  - by destruct (SOCK_STREAM =? 0).
Qed.

Lemma getaddrinfo_unix_hints_socktype (hintsp : option addrinfo) :
  ai_socktype (getaddrinfo_unix_hints hintsp)
  = match hintsp with
    | Some h => if ai_socktype h =? 0 then SOCK_STREAM else ai_socktype h
    | None => SOCK_STREAM
    end.
Proof.
  unfold getaddrinfo_unix_hints. destruct hintsp as [h|]; simpl.
  - by destruct (ai_socktype h =? 0).
  - by destruct (SOCK_STREAM =? 0).
Qed.

Lemma strcpy_sun_path_Done (p : ptr) (u : sockaddr_un) (path : string) (m : list ascii)
    (w : world) :
  heap w !! p = Some (Obj_sockaddr_un u) →
  store (sun_path u) 0 (list_ascii_of_string path ++ [NUL]) = Some m →
  strcpy_sun_path (Some p) (Some path) w
  = Done tt (mkWorld (<[p := Obj_sockaddr_un (mkSockaddrUn (sun_family u) m)]> (heap w))
               (avail w) (files w) (log w)).
Proof.
  intros Hp Hm. unfold strcpy_sun_path.
  erewrite bind_Done by (by apply load_sockaddr_un_Done).
  rewrite Hm. by rewrite (update_sockaddr_un_Done p u).
Qed.

Lemma unlink_sun_path_Done (p : ptr) (u : sockaddr_un) (name : list ascii) (w : world) :
  heap w !! p = Some (Obj_sockaddr_un u) →
  cstring (sun_path u) = Some name →
  unlink_sun_path (Some p) w
  = Done tt (mkWorld (heap w) (avail w) (files w ∖ {[string_of_list_ascii name]}) (log w)).
Proof.
  intros Hp Hname. unfold unlink_sun_path.
  erewrite bind_Done by (by apply load_sockaddr_un_Done).
  by rewrite Hname.
Qed.

(** [strcpy] into the zeroed [sun_path]. *)
Lemma store_path_buffer (path : string) :
  Z.of_nat (String.length path) < sizeof_sun_path →
  store (repeat NUL (Z.to_nat sizeof_sun_path)) 0 (list_ascii_of_string path ++ [NUL])
  = Some (path_buffer path).
Proof.
  intros Hlen.
  rewrite store_Some.
  2:{ rewrite length_app, length_list_ascii_of_string, repeat_length. simpl. lia. }
  cbn [take app Nat.add]. rewrite length_app, length_list_ascii_of_string.
  rewrite drop_repeat. unfold path_buffer. rewrite <- app_assoc. f_equal.
  cbn [List.length app].
  replace (Z.to_nat sizeof_sun_path - String.length path)%nat
    with (S (Z.to_nat sizeof_sun_path - (String.length path + 1)))%nat by lia.
  reflexivity.
Qed.

Lemma cstring_path_buffer (path : string) :
  Z.of_nat (String.length path) < sizeof_sun_path →
  ∃ name, cstring (path_buffer path) = Some name
          ∧ (NUL ∉ list_ascii_of_string path → name = list_ascii_of_string path).
Proof.
  intros Hlen. unfold path_buffer.
  replace (Z.to_nat sizeof_sun_path - String.length path)%nat
    with (S (Z.to_nat sizeof_sun_path - (String.length path + 1)))%nat by lia.
  cbn [repeat].
  destruct (cstring_app (list_ascii_of_string path)
              (repeat NUL (Z.to_nat sizeof_sun_path - (String.length path + 1))))
    as (name & Hname & _ & Hid).
  by exists name.
Qed.

(** The family of the hints is not AF_UNIX: a line in the log. *)
Lemma getaddrinfo_unix_mismatch (path : option string) (hintsp : option addrinfo)
    (result : option ptr) (w : world) :
  ai_family (getaddrinfo_unix_hints hintsp) ≠ AF_UNIX →
  getaddrinfo_unix path hintsp result w
  = Done (EAI_ADDRFAMILY, result)
      (mkWorld (heap w) (avail w) (files w)
         (String.append "hints.ai_family is invalid in getaddrinfo_unix()"
            (String LF EmptyString) :: log w)).
Proof.
  intros Hfam. unfold getaddrinfo_unix. cbv zeta.
  apply Z.eqb_neq in Hfam. rewrite Hfam. reflexivity.
Qed.

(** A NULL path with both allocations made: [strlen] reads through it. *)
Lemma getaddrinfo_unix_no_path (hintsp : option addrinfo) (result : option ptr)
    (w : world) (n : nat) :
  ai_family (getaddrinfo_unix_hints hintsp) = AF_UNIX →
  avail w = S (S n) →
  getaddrinfo_unix None hintsp result w = Crash.
Proof.
  intros Hfam Hav.
  set (p1 := fresh (dom (heap w))).
  set (h1 := <[p1 := Obj_addrinfo
                 (mkAddrinfo 0 AF_UNIX (ai_socktype (getaddrinfo_unix_hints hintsp))
                    (ai_protocol (getaddrinfo_unix_hints hintsp)) 0 None None None)]> (heap w)).
  set (p2 := fresh (dom h1)).
  assert (Hp2 : h1 !! p2 = None) by apply fresh_heap.
  assert (Hne : p1 ≠ p2).
  { intros E. rewrite <- E in Hp2. unfold h1 in Hp2. by rewrite lookup_insert_eq in Hp2. }
  unfold getaddrinfo_unix. cbv zeta.
  rewrite Hfam, Z.eqb_refl. cbn [negb].
  run calloc_Some. fold p1.
  run update_addrinfo_Done. rewrite insert_insert_eq.
  cbn [zero_addrinfo ai_flags ai_addrlen ai_addr]. fold h1.
  run calloc_Some. fold p2.
  run update_sockaddr_un_Done. rewrite insert_insert_eq.
  erewrite bind_Done by
    (eapply update_addrinfo_Done; cbn [heap];
     rewrite lookup_insert_ne by done; unfold h1; apply lookup_insert_eq).
  cbv beta iota; cbn [heap avail files log].
  reflexivity.
Qed.

(** A path that fits: the call returns 0. [name] is the C string that
    [sun_path] holds, which is the path when no NUL occurs in it. *)
Lemma getaddrinfo_unix_fits (path : string) (hintsp : option addrinfo)
    (result : option ptr) (w : world) (n : nat) :
  ai_family (getaddrinfo_unix_hints hintsp) = AF_UNIX →
  Z.of_nat (String.length path) < sizeof_sun_path →
  avail w = S (S n) →
  ∃ (aip unp : ptr) (name : list ascii),
    heap w !! aip = None ∧ heap w !! unp = None ∧ aip ≠ unp
    ∧ cstring (path_buffer path) = Some name
    ∧ (NUL ∉ list_ascii_of_string path → name = list_ascii_of_string path)
    ∧ getaddrinfo_unix (Some path) hintsp result w
      = Done (0, Some aip)
          (mkWorld
             (<[aip := Obj_addrinfo (unix_node hintsp (Some unp))]>
                (<[unp := Obj_sockaddr_un (unix_addr (path_buffer path))]> (heap w)))
             n
             (if Z.land (ai_flags (getaddrinfo_unix_hints hintsp)) AI_PASSIVE =? 0
              then files w
              else files w ∖ {[string_of_list_ascii name]})
             (log w)).
Proof.
  intros Hfam Hlen Hav.
  set (p1 := fresh (dom (heap w))).
  set (h1 := <[p1 := Obj_addrinfo
                 (mkAddrinfo 0 AF_UNIX (ai_socktype (getaddrinfo_unix_hints hintsp))
                    (ai_protocol (getaddrinfo_unix_hints hintsp)) 0 None None None)]> (heap w)).
  set (p2 := fresh (dom h1)).
  assert (Hp1 : heap w !! p1 = None) by apply fresh_heap.
  assert (Hp2 : h1 !! p2 = None) by apply fresh_heap.
  assert (Hne : p1 ≠ p2).
  { intros E. rewrite <- E in Hp2. unfold h1 in Hp2. by rewrite lookup_insert_eq in Hp2. }
  destruct (cstring_path_buffer path Hlen) as (name & Hname & Hid).
  exists p1, p2, name. split; [done|]. split.
  { unfold h1 in Hp2. by rewrite lookup_insert_ne in Hp2. }
  split; [done|]. split; [done|]. split; [done|].
  unfold getaddrinfo_unix. cbv zeta.
  rewrite Hfam, Z.eqb_refl. cbn [negb].
  run calloc_Some. fold p1.
  run update_addrinfo_Done. rewrite insert_insert_eq.
  cbn [zero_addrinfo ai_flags ai_addrlen ai_addr]. fold h1.
  run calloc_Some. fold p2.
  run update_sockaddr_un_Done. rewrite insert_insert_eq.
  erewrite bind_Done by
    (eapply update_addrinfo_Done; cbn [heap];
     rewrite lookup_insert_ne by done; unfold h1; apply lookup_insert_eq).
  cbv beta iota; cbn [heap avail files log].
  unfold strlen. erewrite bind_Done by reflexivity. cbv beta.
  replace (Z.of_nat (String.length path) >=? sizeof_sun_path) with false
    by (symmetry; rewrite Z.geb_leb; apply Z.leb_gt; lia).
  erewrite bind_Done by
    (eapply strcpy_sun_path_Done;
     [cbn [heap]; rewrite lookup_insert_ne by done; apply lookup_insert_eq
     |cbn [sun_path]; by apply store_path_buffer]).
  cbv beta iota; cbn [heap avail files log sun_family].
  assert (Hheap :
    <[p2 := Obj_sockaddr_un (mkSockaddrUn AF_UNIX (path_buffer path))]>
      (<[p1 := Obj_addrinfo
                 (mkAddrinfo 0 AF_UNIX (ai_socktype (getaddrinfo_unix_hints hintsp))
                    (ai_protocol (getaddrinfo_unix_hints hintsp)) sizeof_sockaddr_un
                    (Some p2) None None)]>
         (<[p2 := Obj_sockaddr_un
                    (mkSockaddrUn AF_UNIX (repeat NUL (Z.to_nat sizeof_sun_path)))]> h1))
    = <[p1 := Obj_addrinfo (unix_node hintsp (Some p2))]>
        (<[p2 := Obj_sockaddr_un (unix_addr (path_buffer path))]> (heap w))).
  { unfold h1, unix_node, unix_addr.
    rewrite (insert_insert_ne _ p2 p1) by done. rewrite insert_insert_eq.
    rewrite (insert_insert_ne _ p2 p1) by done. by rewrite insert_insert_eq. }
  change (sun_path zero_sockaddr_un) with (repeat NUL (Z.to_nat sizeof_sun_path)).
  destruct (Z.land (ai_flags (getaddrinfo_unix_hints hintsp)) AI_PASSIVE =? 0);
    cbn [negb].
  - unfold ret. erewrite bind_Done by reflexivity. cbv beta.
    cbn [ai_flags ai_family ai_socktype ai_protocol ai_canonname ai_next].
    by rewrite Hheap.
  - erewrite bind_Done by
      (eapply unlink_sun_path_Done; [cbn [heap]; apply lookup_insert_eq|exact Hname]).
    cbv beta. unfold ret. cbn [heap avail files log].
    cbn [ai_flags ai_family ai_socktype ai_protocol ai_canonname ai_next].
    by rewrite Hheap.
Qed.

(** Every call that returns is of one of four kinds. *)
Lemma getaddrinfo_unix_outcome (path : option string) (hintsp : option addrinfo)
    (result : option ptr) (w : world) (rc : Z) (r : option ptr) (w' : world) :
  getaddrinfo_unix path hintsp result w = Done (rc, r) w' →
  (ai_family (getaddrinfo_unix_hints hintsp) ≠ AF_UNIX
   ∧ rc = EAI_ADDRFAMILY ∧ r = result
   ∧ w' = mkWorld (heap w) (avail w) (files w)
            (String.append "hints.ai_family is invalid in getaddrinfo_unix()"
            (String LF EmptyString) :: log w))
  ∨ (avail w = 0%nat ∧ rc = EAI_MEMORY ∧ r = result ∧ w' = w)
  ∨ ∃ (t : string) (n : nat) (aip unp : ptr) (buf : list ascii) (fs : gset string),
      path = Some t ∧ avail w = S (S n)
      ∧ heap w !! aip = None ∧ heap w !! unp = None ∧ aip ≠ unp
      ∧ r = Some aip
      ∧ w' = mkWorld
               (<[aip := Obj_addrinfo (unix_node hintsp (Some unp))]>
                  (<[unp := Obj_sockaddr_un (unix_addr buf)]> (heap w)))
               n fs (log w)
      ∧ fs ⊆ files w
      ∧ (rc = EAI_SERVICE ∨ rc = 0).
Proof.
  intros Hrun.
  destruct (decide (ai_family (getaddrinfo_unix_hints hintsp) = AF_UNIX)) as [Hfam|Hfam].
  2:{ rewrite getaddrinfo_unix_mismatch in Hrun by done.
      injection Hrun as <- <- <-. by left. }
  destruct (avail w) as [|[|n]] eqn:Hav.
  { rewrite getaddrinfo_unix_no_memory in Hrun by done.
    injection Hrun as <- <- <-. right. by left. }
  { by rewrite getaddrinfo_unix_second_calloc in Hrun. }
  destruct path as [t|].
  2:{ by rewrite (getaddrinfo_unix_no_path hintsp result w n) in Hrun. }
  right. right.
  destruct (Z.le_gt_cases sizeof_sun_path (Z.of_nat (String.length t))) as [Hlen|Hlen].
  - destruct (getaddrinfo_unix_too_long t hintsp result w n Hfam Hlen Hav)
      as (aip & unp & Ha & Hu & Hne & E).
    rewrite E in Hrun. injection Hrun as <- <- <-.
    exists t, n, aip, unp, (repeat NUL (Z.to_nat sizeof_sun_path)), (files w).
    repeat (split; [done|]). by left.
  - destruct (getaddrinfo_unix_fits t hintsp result w n Hfam ltac:(lia) Hav)
      as (aip & unp & name & Ha & Hu & Hne & _ & _ & E).
    rewrite E in Hrun. injection Hrun as <- <- <-.
    eexists t, n, aip, unp, (path_buffer t), _.
    repeat (split; [done|]). split; [|by right].
    destruct (Z.land (ai_flags (getaddrinfo_unix_hints hintsp)) AI_PASSIVE =? 0);
      [done|by apply subseteq_difference_l].
Qed.

End unix_returns.

(** ** getaddrinfo2: the host name *)

(** X13. [getaddrinfo2] hands an empty host name to the resolver as NULL:
    the empty string and NULL give the same call, whatever the hints. *)
Theorem getaddrinfo2_empty_hostname `{Platform} `{Resolver}
    (servname : option string) (hintp : option addrinfo) (result : option ptr) (w : world) :
  getaddrinfo2 (Some "") servname hintp result w = getaddrinfo2 None servname hintp result w
  ∧ (match hintp with Some h => ai_family h ≠ AF_UNIX | None => True end →
     getaddrinfo2 (Some "") servname hintp result w
     = getaddrinfo None servname hintp result w).
Proof.
  unfold getaddrinfo2. destruct hintp as [h|]; [|done].
  destruct (Z.eqb_spec (ai_family h) AF_UNIX); done.
Qed.

(** X14. With hints of family AF_UNIX, [getaddrinfo2] does not look at the
    host name and does not call the resolver; the hints it passes on have
    the family that [getaddrinfo_unix] tests, so the call writes nothing
    to the log and returns EAI_MEMORY, EAI_SERVICE or 0, never
    EAI_ADDRFAMILY for a mismatch. *)
Theorem getaddrinfo2_unix `{Platform} (R R' : Resolver)
    (hostname hostname' servname : option string) (hints : addrinfo)
    (result : option ptr) (w : world) :
  ai_family hints = AF_UNIX →
  @getaddrinfo2 _ R hostname servname (Some hints) result w
  = @getaddrinfo2 _ R' hostname' servname (Some hints) result w
  ∧ ∀ rc r w',
      @getaddrinfo2 _ R hostname servname (Some hints) result w = Done (rc, r) w' →
      log w' = log w ∧ (rc = EAI_MEMORY ∨ rc = EAI_SERVICE ∨ rc = 0).
Proof.
  intros Hfam. unfold getaddrinfo2. rewrite Hfam, Z.eqb_refl. split; [done|].
  intros rc r w' Hrun.
  assert (Hfam' : ai_family (getaddrinfo_unix_hints (Some hints)) = AF_UNIX)
    by (by rewrite getaddrinfo_unix_hints_family).
  apply getaddrinfo_unix_outcome in Hrun
    as [(Hmis & _) | [(_ & -> & _ & ->) | (t & n & aip & unp & buf & fs & _ & _ & _ & _ & _ & _
                                            & -> & _ & Hrc)]].
  - done.
  - auto.
  - cbn [log]. destruct Hrc; auto.
Qed.

Lemma getaddrinfo2_unix_witness :
  let P := linux LittleEndian in
  let R' := {| getaddrinfo := fun _ _ _ _ => crash; freeaddrinfo := fun _ => crash |} in
  let w := mkWorld ∅ 2 ∅ [] in
  ai_family (unix_hints 0) = @AF_UNIX P
  ∧ @getaddrinfo2 P no_resolver (Some "localhost") (Some "/tmp/.s.PGSQL.5432")
      (Some (unix_hints 0)) None w
    = @getaddrinfo2 P R' None (Some "/tmp/.s.PGSQL.5432") (Some (unix_hints 0)) None w
  ∧ ∃ r w', @getaddrinfo2 P no_resolver (Some "localhost") (Some "/tmp/.s.PGSQL.5432")
              (Some (unix_hints 0)) None w = Done (0, r) w'
            ∧ log w' = [].
Proof.
  intros P R' w.
  assert (Hfam : ai_family (unix_hints 0) = @AF_UNIX P) by reflexivity.
  destruct (@getaddrinfo2_unix P no_resolver R' (Some "localhost") None
              (Some "/tmp/.s.PGSQL.5432") (unix_hints 0) None w Hfam) as [Hsame Hlog].
  split; [exact Hfam|]. split; [exact Hsame|].
  destruct (@getaddrinfo2 P no_resolver (Some "localhost") (Some "/tmp/.s.PGSQL.5432")
              (Some (unix_hints 0)) None w) as [[rc r] w'|] eqn:Hrun;
    [|vm_compute in Hrun; discriminate Hrun].
  assert (Hrc : rc = 0) by (vm_compute in Hrun; congruence).
  destruct (Hlog rc r w' eq_refl) as [Hl _].
  exists r, w'. rewrite Hrc. split; [reflexivity|exact Hl].
Defined.

(** ** getaddrinfo_unix: hints of another family *)

(** X15. Called with hints whose family is not AF_UNIX,
    [getaddrinfo_unix] hands [elog] its message, which ends in a newline,
    and returns EAI_ADDRFAMILY before it allocates or looks at the path:
    [*result], the heap, the allocations left and the files are as before,
    for every path, NULL included. *)
Theorem getaddrinfo_unix_family_mismatch `{Platform} (path : option string)
    (hints : addrinfo) (result : option ptr) (w : world) :
  ai_family hints ≠ AF_UNIX →
  getaddrinfo_unix path (Some hints) result w
  = Done (EAI_ADDRFAMILY, result)
      (mkWorld (heap w) (avail w) (files w)
         (String.append "hints.ai_family is invalid in getaddrinfo_unix()"
            (String LF EmptyString) :: log w)).
Proof.
  intros Hfam. apply getaddrinfo_unix_mismatch.
  by rewrite getaddrinfo_unix_hints_family.
Qed.

Lemma getaddrinfo_unix_family_mismatch_witness :
  let P := linux LittleEndian in
  ai_family (mkAddrinfo 0 2 1 0 0 None None None) = @AF_INET P
  ∧ @getaddrinfo_unix P None (Some (mkAddrinfo 0 2 1 0 0 None None None)) None
      (mkWorld ∅ 0 ∅ [])
    = Done (@EAI_ADDRFAMILY P, None)
        (mkWorld ∅ 0 ∅
           [String.append "hints.ai_family is invalid in getaddrinfo_unix()"
              (String LF EmptyString)])
  ∧ String.length (String.append "hints.ai_family is invalid in getaddrinfo_unix()"
                     (String LF EmptyString)) = 49%nat
  ∧ String.get 48 (String.append "hints.ai_family is invalid in getaddrinfo_unix()"
                     (String LF EmptyString)) = Some (ascii_of_nat 10).
Proof.
  intros P. split; [reflexivity|]. split; [|split; reflexivity].
  apply (@getaddrinfo_unix_family_mismatch P). discriminate.
Defined.

(** ** getaddrinfo_unix: a path that fits *)

(** X16. For a path shorter than [sun_path], made of characters other
    than NUL, and two allocations available, [getaddrinfo_unix] returns 0
    and leaves in [*result] a fresh node: family AF_UNIX, the socket type
    of the hints or SOCK_STREAM where they give none, the protocol of the
    hints, flags 0, no canonical name, no next node, and as address a
    fresh [sockaddr_un] of family AF_UNIX whose [sun_path] holds the path
    and NUL up to its end. Nothing else in the heap changes, the log is
    as before, and the file at the path is removed exactly when the hints
    carry AI_PASSIVE. *)
Theorem getaddrinfo_unix_success `{Platform} (path : string) (hintsp : option addrinfo)
    (result : option ptr) (w : world) (n : nat) :
  ai_family (getaddrinfo_unix_hints hintsp) = AF_UNIX →
  Z.of_nat (String.length path) < sizeof_sun_path →
  NUL ∉ list_ascii_of_string path →
  avail w = S (S n) →
  ∃ aip unp : ptr,
    heap w !! aip = None ∧ heap w !! unp = None ∧ aip ≠ unp
    ∧ getaddrinfo_unix (Some path) hintsp result w
      = Done (0, Some aip)
          (mkWorld
             (<[aip := Obj_addrinfo
                         (mkAddrinfo 0 AF_UNIX
                            (match hintsp with
                             | Some h => if ai_socktype h =? 0 then SOCK_STREAM
                                         else ai_socktype h
                             | None => SOCK_STREAM
                             end)
                            (match hintsp with Some h => ai_protocol h | None => 0 end)
                            sizeof_sockaddr_un (Some unp) None None)]>
                (<[unp := Obj_sockaddr_un (mkSockaddrUn AF_UNIX (path_buffer path))]>
                   (heap w)))
             n
             (if Z.land (match hintsp with Some h => ai_flags h | None => 0 end) AI_PASSIVE
                 =? 0
              then files w
              else files w ∖ {[path]})
             (log w))
    ∧ cstring (path_buffer path) = Some (list_ascii_of_string path)
    ∧ List.length (path_buffer path) = Z.to_nat sizeof_sun_path.
Proof.
  intros Hfam Hlen Hnul Hav.
  destruct (getaddrinfo_unix_fits path hintsp result w n Hfam Hlen Hav)
    as (aip & unp & name & Ha & Hu & Hne & Hname & Hid & Hrun).
  specialize (Hid Hnul). subst name.
  exists aip, unp. repeat (split; [done|]). split; [|split; [done|]].
  - rewrite Hrun. unfold unix_node, unix_addr.
    rewrite getaddrinfo_unix_hints_flags, getaddrinfo_unix_hints_socktype.
    rewrite string_of_list_ascii_of_string.
    replace (ai_protocol (getaddrinfo_unix_hints hintsp))
      with (match hintsp with Some h => ai_protocol h | None => 0 end); [done|].
    unfold getaddrinfo_unix_hints. destruct hintsp as [h|]; simpl.
    + by destruct (ai_socktype h =? 0).
    + by destruct (SOCK_STREAM =? 0).
  - unfold path_buffer.
    rewrite length_app, length_list_ascii_of_string, repeat_length. lia.
Qed.

Lemma getaddrinfo_unix_success_witness :
  let P := linux LittleEndian in
  let path := "/tmp/.s.PGSQL.5432" in
  let w := mkWorld ∅ 2 {[path]} [] in
  ai_family (@getaddrinfo_unix_hints P (Some (unix_hints 1))) = @AF_UNIX P
  ∧ Z.of_nat (String.length path) < @sizeof_sun_path P
  ∧ ∃ (aip unp : ptr) (w' : world),
      @getaddrinfo_unix P (Some path) (Some (unix_hints 1)) None w = Done (0, Some aip) w'
      ∧ files w' = {[path]} ∖ {[path]}
      ∧ heap w' !! unp
        = Some (Obj_sockaddr_un (mkSockaddrUn 1 (@path_buffer P path))).
Proof.
  intros P path w.
  assert (Hfam : ai_family (@getaddrinfo_unix_hints P (Some (unix_hints 1))) = @AF_UNIX P)
    by reflexivity.
  assert (Hlen : Z.of_nat (String.length path) < @sizeof_sun_path P) by reflexivity.
  assert (Hnul : NUL ∉ list_ascii_of_string path).
  { rewrite list_elem_of_In. simpl. intros Hin.
    repeat (destruct Hin as [Hin|Hin]; [discriminate Hin|]). exact Hin. }
  destruct (@getaddrinfo_unix_success P path (Some (unix_hints 1)) None w 0
              Hfam Hlen Hnul eq_refl) as (aip & unp & _ & _ & Hne & Hrun & _).
  split; [exact Hfam|]. split; [exact Hlen|].
  eexists aip, unp, _. split; [exact Hrun|]. split; [reflexivity|].
  cbn [heap]. rewrite lookup_insert_ne by exact Hne. apply lookup_insert_eq.
Defined.

(** X17. What a successful [getaddrinfo_unix] has allocated is what
    [freeaddrinfo2] with AF_UNIX frees: after the two calls the heap and
    the number of allocations available are those before the first. *)
Theorem getaddrinfo_unix_then_free `{Platform} `{Resolver} (path : string)
    (hintsp : option addrinfo) (result : option ptr) (w : world) (n : nat) :
  ai_family (getaddrinfo_unix_hints hintsp) = AF_UNIX →
  Z.of_nat (String.length path) < sizeof_sun_path →
  avail w = S (S n) →
  ∃ (r : option ptr) (w' : world),
    getaddrinfo_unix (Some path) hintsp result w = Done (0, r) w'
    ∧ avail w' = n
    ∧ size (heap w') = S (S (size (heap w)))
    ∧ freeaddrinfo2 AF_UNIX r w'
      = Done tt (mkWorld (heap w) (avail w) (files w') (log w)).
Proof.
  intros Hfam Hlen Hav.
  destruct (getaddrinfo_unix_fits path hintsp result w n Hfam Hlen Hav)
    as (aip & unp & name & Ha & Hu & Hne & _ & _ & Hrun).
  eexists (Some aip), _. split; [exact Hrun|]. cbn [heap avail files log].
  split; [done|]. split.
  { rewrite !map_size_insert_None; [done..|]. by rewrite lookup_insert_ne. }
  set (fs := if Z.land (ai_flags (getaddrinfo_unix_hints hintsp)) AI_PASSIVE =? 0
             then files w else files w ∖ {[string_of_list_ascii name]}).
  pose proof (freeaddrinfo2_single aip unp (unix_node hintsp (Some unp))
    (unix_addr (path_buffer path)) (mkWorld (heap w) n fs (log w)) Ha Hu Hne
    eq_refl eq_refl) as Hfree.
  cbn [heap avail files log] in Hfree. by rewrite Hfree, Hav.
Qed.

Lemma getaddrinfo_unix_then_free_witness :
  let P := linux LittleEndian in
  let path := "/tmp/.s.PGSQL.5432" in
  let w := mkWorld ∅ 2 {[path]} [] in
  ai_family (@getaddrinfo_unix_hints P None) = @AF_UNIX P
  ∧ Z.of_nat (String.length path) < @sizeof_sun_path P
  ∧ ∃ (r : option ptr) (w' : world),
      @getaddrinfo_unix P (Some path) None None w = Done (0, r) w'
      ∧ @freeaddrinfo2 P no_resolver (@AF_UNIX P) r w'
        = Done tt (mkWorld ∅ 2 (files w') []).
Proof.
  intros P path w.
  assert (Hfam : ai_family (@getaddrinfo_unix_hints P None) = @AF_UNIX P) by reflexivity.
  assert (Hlen : Z.of_nat (String.length path) < @sizeof_sun_path P) by reflexivity.
  destruct (@getaddrinfo_unix_then_free P no_resolver path None None w 0 Hfam Hlen eq_refl)
    as (r & w' & Hrun & _ & _ & Hfree).
  split; [exact Hfam|]. split; [exact Hlen|].
  exists r, w'. split; [exact Hrun|exact Hfree].
Defined.

(** ** getaddrinfo_unix: what a call leaves alone *)

(** X18. Whatever [getaddrinfo_unix] returns, every object that was
    allocated before the call is allocated after it with the content it
    had; every allocation the call has taken is an object of the heap; no
    file has appeared; and [*result] is as before or points at an object
    that the call has allocated. *)
Theorem getaddrinfo_unix_frame `{Platform} (path : option string)
    (hintsp : option addrinfo) (result : option ptr) (w : world)
    (rc : Z) (r : option ptr) (w' : world) :
  getaddrinfo_unix path hintsp result w = Done (rc, r) w' →
  (∀ p o, heap w !! p = Some o → heap w' !! p = Some o)
  ∧ (size (heap w') + avail w' = size (heap w) + avail w)%nat
  ∧ files w' ⊆ files w
  ∧ (r = result
     ∨ ∃ aip, r = Some aip ∧ heap w !! aip = None ∧ is_Some (heap w' !! aip)).
Proof.
  intros Hrun.
  apply getaddrinfo_unix_outcome in Hrun
    as [(_ & _ & -> & ->) | [(_ & _ & -> & ->)
        | (t & n & aip & unp & buf & fs & _ & Hav & Ha & Hu & Hne & -> & -> & Hfs & _)]];
    cbn [heap avail files log].
  - repeat split; auto.
  - repeat split; auto.
  - split; [|split; [|split; [done|]]].
    + intros p o Hp.
      assert (aip ≠ p) by (intros E; rewrite E in Ha; congruence).
      assert (unp ≠ p) by (intros E; rewrite E in Hu; congruence).
      by rewrite !lookup_insert_ne.
    + rewrite !map_size_insert_None; [lia|done|]. by rewrite lookup_insert_ne.
    + right. exists aip. split; [done|]. split; [done|].
      rewrite lookup_insert_eq. eauto.
Qed.

Lemma getaddrinfo_unix_frame_witness :
  let P := linux LittleEndian in
  let old := Obj_sockaddr_un (mkSockaddrUn 1 []) in
  let w := mkWorld (<[0%nat := old]> ∅) 2 ∅ [] in
  ∃ (r : option ptr) (w' : world),
    @getaddrinfo_unix P (Some long_path) None None w = Done (@EAI_SERVICE P, r) w'
    ∧ heap w' !! 0%nat = Some old
    ∧ (size (heap w') + avail w' = 3)%nat.
Proof.
  intros P old w.
  destruct (@getaddrinfo_unix P (Some long_path) None None w) as [[rc r] w'|] eqn:Hrun;
    [|vm_compute in Hrun; discriminate Hrun].
  assert (Hrc : rc = @EAI_SERVICE P)
    by (vm_compute in Hrun; injection Hrun as <- _ _; reflexivity).
  destruct (@getaddrinfo_unix_frame P (Some long_path) None None w rc r w' Hrun)
    as (Hold & Hsize & _).
  exists r, w'. rewrite Hrc. split; [reflexivity|]. split.
  - apply Hold. reflexivity.
  - rewrite Hsize. reflexivity.
Defined.

(** ** getaddrinfo2: a NULL service name *)

(** X19. [getaddrinfo_unix] takes the length of the path without testing
    the pointer. With hints of family AF_UNIX and a NULL service name,
    [getaddrinfo2] returns EAI_MEMORY when no allocation is available and
    ends on an invalid access otherwise. *)
Theorem getaddrinfo2_unix_null_servname `{Platform} `{Resolver}
    (hostname : option string) (hints : addrinfo) (result : option ptr) (w : world) :
  ai_family hints = AF_UNIX →
  getaddrinfo2 hostname None (Some hints) result w
  = match avail w with
    | O => Done (EAI_MEMORY, result) w
    | S _ => Crash
    end.
Proof.
  intros Hfam. unfold getaddrinfo2. rewrite Hfam, Z.eqb_refl.
  assert (Hfam' : ai_family (getaddrinfo_unix_hints (Some hints)) = AF_UNIX)
    by (by rewrite getaddrinfo_unix_hints_family).
  destruct (avail w) as [|[|n]] eqn:Hav.
  - by apply getaddrinfo_unix_no_memory.
  - by apply getaddrinfo_unix_second_calloc.
  - by apply (getaddrinfo_unix_no_path _ _ _ n).
Qed.

Lemma getaddrinfo2_unix_null_servname_witness :
  let P := linux LittleEndian in
  ai_family (unix_hints 0) = @AF_UNIX P
  ∧ @getaddrinfo2 P no_resolver (Some "localhost") None (Some (unix_hints 0)) None
      (mkWorld ∅ 2 ∅ []) = Crash
  ∧ @getaddrinfo2 P no_resolver (Some "localhost") None (Some (unix_hints 0)) None
      (mkWorld ∅ 0 ∅ []) = Done (@EAI_MEMORY P, None) (mkWorld ∅ 0 ∅ []).
Proof.
  intros P.
  assert (Hfam : ai_family (unix_hints 0) = @AF_UNIX P) by reflexivity.
  split; [exact Hfam|]. split.
  - exact (@getaddrinfo2_unix_null_servname P no_resolver (Some "localhost")
             (unix_hints 0) None (mkWorld ∅ 2 ∅ []) Hfam).
  - exact (@getaddrinfo2_unix_null_servname P no_resolver (Some "localhost")
             (unix_hints 0) None (mkWorld ∅ 0 ∅ []) Hfam).
Defined.

(** ** freeaddrinfo2: lists of any length *)

Section chains.
Context `{Platform} `{Resolver}.

Lemma release_size (q : option ptr) (h : gmap ptr object) :
  (size (release q h) ≤ size h)%nat.
Proof.
  destruct q as [u|]; simpl; [|done].
  rewrite map_size_delete. destruct (h !! u); simpl; lia.
Qed.

(** A list has no more nodes than the heap has objects. *)
Lemma chain_size (cells : list (ptr * option ptr)) (h : gmap ptr object) (ai : option ptr) :
  chain h ai cells → (List.length cells ≤ size h)%nat.
Proof.
  revert h ai. induction cells as [|[p q] cells IH]; intros h ai; simpl; [lia|].
  intros (_ & node & Hp & _ & Hq & _ & Hrest).
  apply IH in Hrest.
  assert (Hp' : is_Some (release q h !! p)).
  { destruct q as [u|]; simpl; [|eauto].
    rewrite lookup_delete_ne by congruence. eauto. }
  rewrite map_size_delete_Some in Hrest by done.
  pose proof (release_size q h).
  assert (size (release q h) ≠ 0%nat).
  { intros E. apply map_size_empty_inv in E. rewrite E in Hp'.
    rewrite lookup_empty in Hp'. by destruct Hp'. }
  lia.
Qed.

Lemma free_release (q : option ptr) (w : world) :
  (∀ u, q = Some u → is_Some (heap w !! u)) →
  free q w
  = Done tt (mkWorld (release q (heap w))
               (match q with Some _ => S (avail w) | None => avail w end)
               (files w) (log w)).
Proof.
  intros Hq. destruct q as [u|]; simpl.
  - destruct (Hq u eq_refl) as [o Ho]. by rewrite Ho.
  - by destruct w.
Qed.

(** The loop, with fuel for every node. *)
Lemma freeaddrinfo2_loop_chain (cells : list (ptr * option ptr)) (fuel : nat)
    (ai : option ptr) (w : world) :
  chain (heap w) ai cells → (List.length cells ≤ fuel)%nat →
  freeaddrinfo2_loop fuel ai w
  = Done tt (mkWorld (released (heap w) cells) (freed cells + avail w) (files w) (log w)).
Proof.
  revert fuel ai w. induction cells as [|[p q] cells IH]; intros fuel ai w; simpl.
  - intros -> _. destruct w. by destruct fuel.
  - intros (-> & node & Hp & Hq & Hne & Halloc & Hrest) Hfuel.
    destruct fuel as [|fuel]; [lia|]. cbn [freeaddrinfo2_loop].
    erewrite bind_Done by (by apply load_addrinfo_Done).
    cbv beta zeta. rewrite Hq.
    erewrite bind_Done by (by apply free_release).
    cbv beta.
    erewrite bind_Done.
    2:{ eapply (free_Done p (Obj_addrinfo node)). cbn [heap].
        destruct q as [u|]; simpl; [|done].
        rewrite lookup_delete_ne by congruence. done. }
    cbv beta. cbn [heap avail files log].
    rewrite IH; [|done|lia]. cbn [heap avail files log].
    f_equal. f_equal. destruct q; lia.
Qed.

Lemma released_None (cells : list (ptr * option ptr)) (h : gmap ptr object) (x : ptr) :
  h !! x = None → released h cells !! x = None.
Proof.
  revert h. induction cells as [|[p q] cells IH]; intros h Hx; simpl; [done|].
  apply IH. apply lookup_delete_None. right.
  destruct q as [u|]; simpl; [|done]. apply lookup_delete_None. by right.
Qed.


End chains.



(** X21. A list that [freeaddrinfo2] has freed cannot be freed again: the
    first call returns, and a second call with the same pointer reads a
    node that is no longer allocated and ends on an invalid access. *)
Theorem freeaddrinfo2_twice `{Platform} `{Resolver} (p : ptr) (q : option ptr)
    (cells : list (ptr * option ptr)) (w : world) :
  chain (heap w) (Some p) ((p, q) :: cells) →
  ∃ w', freeaddrinfo2 AF_UNIX (Some p) w = Done tt w'
        ∧ freeaddrinfo2 AF_UNIX (Some p) w' = Crash.
Proof.
  intros Hchain.
  assert (Hfree : freeaddrinfo2 AF_UNIX (Some p) w
                  = Done tt (mkWorld (released (heap w) ((p, q) :: cells))
                               (freed ((p, q) :: cells) + avail w) (files w) (log w))).
  { unfold freeaddrinfo2. rewrite Z.eqb_refl.
    apply freeaddrinfo2_loop_chain; [done|]. by eapply chain_size. }
  eexists. split; [exact Hfree|].
  unfold freeaddrinfo2. rewrite Z.eqb_refl. cbn [heap].
  assert (Hp : released (heap w) ((p, q) :: cells) !! p = None)
    by (simpl; apply released_None, lookup_delete_eq).
  destruct (size (released (heap w) ((p, q) :: cells))); [reflexivity|].
  cbn [freeaddrinfo2_loop]. unfold bind, load_addrinfo. cbn [heap]. by rewrite Hp.
Qed.

Lemma freeaddrinfo2_twice_witness :
  let P := linux LittleEndian in
  chain (heap two_nodes) (Some 1%nat) [(1%nat, Some 2%nat); (3%nat, None)]
  ∧ ∃ w', @freeaddrinfo2 P no_resolver (@AF_UNIX P) (Some 1%nat) two_nodes = Done tt w'
          ∧ @freeaddrinfo2 P no_resolver (@AF_UNIX P) (Some 1%nat) w' = Crash.
Proof.
  intros P.
  assert (Hchain : chain (heap two_nodes) (Some 1%nat) [(1%nat, Some 2%nat); (3%nat, None)]).
  { simpl. split; [done|]. eexists. split; [reflexivity|]. split; [reflexivity|].
    split; [discriminate|]. split; [intros u [= <-]; by eexists|].
    split; [done|]. eexists. split; [reflexivity|]. split; [reflexivity|].
    split; [discriminate|]. split; [discriminate|]. reflexivity. }
  split; [exact Hchain|].
  exact (@freeaddrinfo2_twice P no_resolver 1%nat (Some 2%nat) [(3%nat, None)]
           two_nodes Hchain).
Defined.

(** ** Range matching across byte orders *)

(** [SockAddr_pton] of a dotted text, on Linux. *)
Lemma pton_ok_dotted (bo : byte_order) (a b c d : Z) :
  0 <= a < 256 → 0 <= b < 256 → 0 <= c < 256 → 0 <= d < 256 →
  @pton_ok (linux bo) (dotted a b c d) = @ipv4 (linux bo) (in_addr_of bo a b c d).
Proof.
  intros Ha Hb Hc Hd. unfold pton_ok, dotted.
  rewrite SockAddr_pton_unfold by discriminate.
  destruct (inet_ntop4_chars a b c d) as [Hch _]; [done..|].
  rewrite has_colon_false.
  2:{ eapply Forall_impl; [exact Hch|].
      intros ch Hr ->. vm_compute in Hr. destruct Hr as [_ Hr]. by apply Hr. }
  cbn [inet_pton4_addr linux].
  rewrite list_ascii_of_string_of_list_ascii, inet_pton4_ntop4 by done.
  reflexivity.
Qed.

(** X22. On Linux, for an address, a network and a mask given as dotted
    texts, [rangeSockAddr] of what [SockAddr_pton] reads from them is 1
    exactly when each of the four numbers of the address agrees with the
    number of the network under the number of the mask; the byte order of
    the host has no part in it. *)
Theorem rangeSockAddr_dotted_texts (bo : byte_order)
    (a0 a1 a2 a3 n0 n1 n2 n3 m0 m1 m2 m3 : Z) :
  Forall (fun b => 0 <= b < 256) [a0; a1; a2; a3; n0; n1; n2; n3; m0; m1; m2; m3] →
  range_of_text (linux bo) (dotted a0 a1 a2 a3) (dotted n0 n1 n2 n3) (dotted m0 m1 m2 m3) = 1
  ↔ ∀ i, (i < 4)%nat → octet_match [a0; a1; a2; a3] [n0; n1; n2; n3] [m0; m1; m2; m3] i.
Proof.
  intros Hall. rewrite <- (load32_match bo) by done.
  repeat (apply Forall_cons in Hall as [? Hall]).
  unfold range_of_text. rewrite !pton_ok_dotted by done.
  unfold rangeSockAddr. cbn [ipv4 sa_family]. rewrite Z.eqb_refl.
  rewrite (@rangeSockAddrAF_INET_inet (linux bo)) by done.
  cbn [ipv4 s_addr]. unfold in_addr_of.
  by destruct (Z.eqb_spec
    (Z.land (Z.lxor (load32 bo a0 a1 a2 a3) (load32 bo n0 n1 n2 n3)) (load32 bo m0 m1 m2 m3))
    0).
Qed.

Lemma rangeSockAddr_dotted_texts_witness :
  Forall (fun b => 0 <= b < 256) [192; 168; 7; 9; 192; 168; 0; 0; 255; 255; 0; 0]
  ∧ dotted 192 168 7 9 = "192.168.7.9"
  ∧ range_of_text (linux LittleEndian) "192.168.7.9" "192.168.0.0" "255.255.0.0" = 1
  ∧ range_of_text (linux BigEndian) "192.168.7.9" "192.168.0.0" "255.255.0.0" = 1.
Proof.
  assert (Hall : Forall (fun b => 0 <= b < 256)
                   [192; 168; 7; 9; 192; 168; 0; 0; 255; 255; 0; 0])
    by (repeat constructor; lia).
  assert (Hoct : ∀ i, (i < 4)%nat →
                   octet_match [192; 168; 7; 9] [192; 168; 0; 0] [255; 255; 0; 0] i)
    by (intros i Hi; do 4 (destruct i as [|i]; [reflexivity|]); lia).
  split; [exact Hall|]. split; [reflexivity|]. split.
  - exact (proj2 (rangeSockAddr_dotted_texts LittleEndian
                    192 168 7 9 192 168 0 0 255 255 0 0 Hall) Hoct).
  - exact (proj2 (rangeSockAddr_dotted_texts BigEndian
                    192 168 7 9 192 168 0 0 255 255 0 0 Hall) Hoct).
Defined.

(** X23. For an IPv4-mapped address and an IPv4 rule whose network and
    mask the host has loaded from four octets each, [rangeSockAddrAF_INET6]
    returns 1 exactly when the last four octets of the address agree with
    the network under the mask on a big-endian host, and exactly when
    these four octets taken in reverse order do on a little-endian host:
    there ::ffff:a.b.c.d is tested as d.c.b.a. *)
Theorem rangeSockAddrAF_INET6_mapped_octets `{Platform} (bo : byte_order)
    (addr4 addr : SockAddr) (n0 n1 n2 n3 m0 m1 m2 m3 : Z) :
  AF_INET ≠ AF_INET6 →
  wf_in6 (s6_addr addr) → IN6_IS_ADDR_V4MAPPED (s6_addr addr) = true →
  Forall (fun b => 0 <= b < 256) [n0; n1; n2; n3; m0; m1; m2; m3] →
  rangeSockAddrAF_INET6 addr4 addr
    (ipv4 (in_addr_of bo n0 n1 n2 n3)) (ipv4 (in_addr_of bo m0 m1 m2 m3)) = 1
  ↔ ∀ i, (i < 4)%nat →
         octet_match
           (match bo with
            | BigEndian => drop 12 (s6_addr addr)
            | LittleEndian => rev (drop 12 (s6_addr addr))
            end) [n0; n1; n2; n3] [m0; m1; m2; m3] i.
Proof.
  intros Hne Hwf Hmapped Hrule.
  unfold rangeSockAddrAF_INET6. rewrite Hmapped. cbn [andb].
  rewrite rangeSockAddrAF_INET_inet by done.
  rewrite convSockAddr6to4_value by (intros i; by apply octet_range).
  destruct (in6_addr_octets (s6_addr addr) Hwf)
    as (a0 & a1 & a2 & a3 & a4 & a5 & a6 & a7 & a8 & a9 & a10 & a11 & a12 & a13 & a14 & a15
        & -> & Hall).
  do 12 (apply Forall_cons in Hall as [_ Hall]).
  cbn [octet nth drop rev app ipv4 s_addr sa_family]. unfold in_addr_of.
  assert (Hrule6 : negb (AF_INET =? AF_INET6) || negb (AF_INET =? AF_INET6) = true)
    by (by destruct (Z.eqb_spec AF_INET AF_INET6)).
  rewrite Hrule6.
  assert (Hval : a12 * 2^24 + a13 * 2^16 + a14 * 2^8 + a15
                 = match bo with
                   | BigEndian => load32 bo a12 a13 a14 a15
                   | LittleEndian => load32 bo a15 a14 a13 a12
                   end) by (by destruct bo).
  rewrite Hval.
  destruct bo.
  - rewrite <- (load32_match BigEndian).
    2:{ repeat (apply Forall_cons in Hall as [? Hall]).
        repeat (apply Forall_cons; split; [done|]). exact Hrule. }
    by destruct (Z.eqb_spec
      (Z.land (Z.lxor (load32 BigEndian a12 a13 a14 a15) (load32 BigEndian n0 n1 n2 n3))
         (load32 BigEndian m0 m1 m2 m3)) 0).
  - rewrite <- (load32_match LittleEndian).
    2:{ repeat (apply Forall_cons in Hall as [? Hall]).
        repeat (apply Forall_cons; split; [done|]). exact Hrule. }
    by destruct (Z.eqb_spec
      (Z.land (Z.lxor (load32 LittleEndian a15 a14 a13 a12) (load32 LittleEndian n0 n1 n2 n3))
         (load32 LittleEndian m0 m1 m2 m3)) 0).
Qed.

Lemma rangeSockAddrAF_INET6_mapped_octets_witness :
  let P := linux LittleEndian in
  let addr := @pton_ok P "::ffff:3.2.1.10" in
  @AF_INET P = 2 ∧ @AF_INET6 P = 10
  ∧ wf_in6 (s6_addr addr) ∧ IN6_IS_ADDR_V4MAPPED (s6_addr addr) = true
  ∧ Forall (fun b => 0 <= b < 256) [10; 0; 0; 0; 255; 0; 0; 0]
  ∧ @rangeSockAddrAF_INET6 P blank addr
      (@ipv4 P (in_addr_of LittleEndian 10 0 0 0))
      (@ipv4 P (in_addr_of LittleEndian 255 0 0 0)) = 1
  ∧ @pton_ok P "10.0.0.0" = @ipv4 P (in_addr_of LittleEndian 10 0 0 0).
Proof.
  intros P addr.
  assert (Hne : @AF_INET P ≠ @AF_INET6 P) by discriminate.
  assert (Hwf : wf_in6 (s6_addr addr)).
  { split; [reflexivity|]. repeat constructor; vm_compute; congruence. }
  assert (Hrule : Forall (fun b => 0 <= b < 256) [10; 0; 0; 0; 255; 0; 0; 0])
    by (repeat constructor; lia).
  repeat (split; [reflexivity|]). split; [exact Hwf|]. split; [reflexivity|].
  split; [exact Hrule|]. split; [|reflexivity].
  apply (@rangeSockAddrAF_INET6_mapped_octets P LittleEndian blank addr
           10 0 0 0 255 0 0 0 Hne Hwf eq_refl Hrule).
  intros i Hi. do 4 (destruct i as [|i]; [reflexivity|]). lia.
Defined.
